(** * DeepEyeClaw: a shallow embedding of the request-orchestration core

    The development follows the TypeScript sources module by module:
    [types.ts], [cost-calculator.ts], [budget-tracker.ts],
    [smart-router.ts] (router and cascade executor), [cache/semantic.ts]
    with the in-memory adapter, [quality-estimator.ts], [artifacts.ts] and
    [agent-manager.ts].

    Conventions.
    - A JavaScript [number] that carries money, a score or a ratio is a
      rational ([Q]); comparisons are the decidable ones of [QArith].
      Epoch milliseconds, counters and array indices are [Z] or [nat].
    - [Date.now()] is an explicit argument of every operation that reads
      the clock.
    - What the JavaScript platform provides (local-time calendar of
      [Date], [Math.sqrt], number formatting, regular expressions,
      SHA-256, URL parsing) is a field of the record [Runtime]; every
      statement below holds for every runtime.
    - Code that throws, or that mutates shared singletons, runs in the
      state-and-exception monad [M] below: an exception keeps the state
      reached so far, as in JavaScript. *)

From Stdlib Require Import List String Ascii Bool Arith ZArith QArith Lia.
From Stdlib Require Import Qround Qabs Lqa Permutation Sorted.
Import ListNotations.

Local Open Scope string_scope.
Local Open Scope Q_scope.

Set Implicit Arguments.

(* ------------------------------------------------------------------ *)
(** ** JavaScript numbers as rationals *)

Module Num.

(** [a < b] on numbers. *)
Definition ltb (a b : Q) : bool := negb (Qle_bool b a).
(** [a <= b] on numbers. *)
Definition leb (a b : Q) : bool := Qle_bool a b.
(** [a >= b] on numbers. *)
Definition geb (a b : Q) : bool := Qle_bool b a.
(** [a > b] on numbers. *)
Definition gtb (a b : Q) : bool := negb (Qle_bool a b).

(** [Math.max(a, b)] and [Math.min(a, b)]. *)
Definition max (a b : Q) : Q := if Qle_bool a b then b else a.
Definition min (a b : Q) : Q := if Qle_bool a b then a else b.

(** [Math.round(x)]: the nearest integer, ties towards +infinity. *)
Definition round (x : Q) : Z := Qfloor (x + (1 # 2)).

(** [Math.round(x * k) / k]. *)
Definition roundTo (k : Z) (x : Q) : Q :=
  inject_Z (round (x * inject_Z k)) / inject_Z k.

End Num.

(* ------------------------------------------------------------------ *)
(** ** Exceptions and the state-and-exception monad *)

(** What the modelled code throws. [Error msg] is [new Error(msg)]. *)
Inductive Exn : Type :=
| Error (msg : string)
| TypeError
| ProviderError (provider : string) (msg : string)
| BudgetExceededError (period : string) (spent limit : Q).

Inductive Result (A : Type) : Type :=
| Ok (a : A)
| Throw (e : Exn).
Arguments Ok {A} a.
Arguments Throw {A} e.

Module Monad.
Section Defs.
Variable W : Type.

(** A computation over the shared state [W]; a thrown exception keeps
    the state it was thrown in. *)
Definition M (A : Type) : Type := W -> Result A * W.

Definition ret {A} (a : A) : M A := fun w => (Ok a, w).

Definition bind {A B} (m : M A) (k : A -> M B) : M B :=
  fun w =>
    match m w with
    | (Ok a, w') => k a w'
    | (Throw e, w') => (Throw e, w')
    end.

Definition throw {A} (e : Exn) : M A := fun w => (Throw e, w).

(** [try { m } catch (e) { h e }]. *)
Definition try_catch {A} (m : M A) (h : Exn -> M A) : M A :=
  fun w =>
    match m w with
    | (Ok a, w') => (Ok a, w')
    | (Throw e, w') => h e w'
    end.

Definition get : M W := fun w => (Ok w, w).
Definition modify (f : W -> W) : M unit := fun w => (Ok tt, f w).

End Defs.
End Monad.

Arguments Monad.ret {W A} a.
Arguments Monad.bind {W A B} m k.
Arguments Monad.throw {W A} e.
Arguments Monad.try_catch {W A} m h.
Arguments Monad.get {W}.
Arguments Monad.modify {W} f.

Declare Scope monad_scope.
Delimit Scope monad_scope with monad.
Notation "x <- m ;; k" := (Monad.bind m (fun x => k))
  (at level 61, m at next level, right associativity) : monad_scope.
Notation "m ;;; k" := (Monad.bind m (fun _ => k))
  (at level 61, right associativity) : monad_scope.

(* ------------------------------------------------------------------ *)
(** ** types.ts *)

Inductive QueryComplexity : Type := simple | medium | complex.

Inductive QueryIntent : Type :=
| search | reasoning | chat | creative | code.

Inductive ProviderName : Type := perplexity | openai | anthropic.

Inductive ModelCapability : Type :=
| web_search | citations | deep_search | cap_reasoning
| chain_of_thought | images | cap_code | long_context.

Definition QueryComplexity_eqb (a b : QueryComplexity) : bool :=
  match a, b with
  | simple, simple | medium, medium | complex, complex => true
  | _, _ => false
  end.

Definition QueryIntent_eqb (a b : QueryIntent) : bool :=
  match a, b with
  | search, search | reasoning, reasoning | chat, chat
  | creative, creative | code, code => true
  | _, _ => false
  end.

Definition ProviderName_eqb (a b : ProviderName) : bool :=
  match a, b with
  | perplexity, perplexity | openai, openai | anthropic, anthropic => true
  | _, _ => false
  end.

Definition ModelCapability_eqb (a b : ModelCapability) : bool :=
  match a, b with
  | web_search, web_search | citations, citations
  | deep_search, deep_search | cap_reasoning, cap_reasoning
  | chain_of_thought, chain_of_thought | images, images
  | cap_code, cap_code | long_context, long_context => true
  | _, _ => false
  end.

Definition providerString (p : ProviderName) : string :=
  match p with
  | perplexity => "perplexity"
  | openai => "openai"
  | anthropic => "anthropic"
  end.

Record ClassifiedQuery : Type := {
  cq_text : string;
  cq_complexity : QueryComplexity;
  cq_complexityScore : Q;
  cq_intent : QueryIntent;
  cq_isRealtime : bool;
  cq_matchedIndicators : list string;
  cq_estimatedTokens : Q
}.

Record ModelCostProfile : Type := {
  mp_provider : ProviderName;
  mp_model : string;
  inputCostPer1k : Q;
  outputCostPer1k : Q;
  mp_perRequestCost : Q;
  maxOutputTokens : Z;
  contextWindow : Z;
  suitableFor : list QueryComplexity;
  capabilities : list ModelCapability
}.

Record CostBreakdown : Type := {
  inputCost : Q;
  outputCost : Q;
  perRequestCost : Q
}.

Record CostEstimate : Type := {
  ce_provider : ProviderName;
  ce_model : string;
  estimatedInputTokens : Q;
  estimatedOutputTokens : Q;
  estimatedCost : Q;
  breakdown : CostBreakdown
}.

Record ActualCost : Type := {
  ac_provider : ProviderName;
  ac_model : string;
  inputTokens : Q;
  outputTokens : Q;
  totalCost : Q;
  timestamp : Z
}.

Inductive RoutingStrategy : Type :=
| priority | cost_optimized | cascade | emergency.

Record CascadeStep : Type := {
  step_provider : ProviderName;
  step_model : string;
  qualityThreshold : Q;
  maxCost : Q
}.

Record RoutingDecision : Type := {
  rd_provider : ProviderName;
  rd_model : string;
  rd_strategy : RoutingStrategy;
  rd_reason : string;
  rd_estimatedCost : CostEstimate;
  cascadeChain : option (list CascadeStep);
  rd_emergencyMode : bool
}.

Inductive BudgetPeriod : Type := daily | weekly | monthly.

Record BudgetStatus : Type := {
  bs_period : BudgetPeriod;
  limit : Q;
  spent : Q;
  remaining : Q;
  percentUsed : Q;
  periodStart : Z;
  periodEnd : Z
}.

Inductive AlertAction : Type := act_log | act_notify | act_emergency_mode.

Definition AlertAction_eqb (a b : AlertAction) : bool :=
  match a, b with
  | act_log, act_log | act_notify, act_notify
  | act_emergency_mode, act_emergency_mode => true
  | _, _ => false
  end.

Record BudgetAlertThreshold : Type := {
  percentage : Q;
  action : AlertAction;
  channels : option (list string)
}.

Record EmergencyModeConfig : Type := {
  enabled : bool;
  forceCheapestModels : bool;
  disableProviders : list ProviderName;
  notifyAdmin : bool
}.

Record BudgetConfig : Type := {
  dailyLimit : Q;
  weeklyLimit : Q;
  monthlyLimit : Q;
  alertThresholds : list BudgetAlertThreshold;
  emergencyMode : EmergencyModeConfig
}.

Record CacheEntry : Type := {
  queryHash : string;
  queryText : string;
  ce_response : string;
  entry_provider : ProviderName;
  entry_model : string;
  cost : Q;
  tokensUsed : Q;
  createdAt : Z;
  expiresAt : Z;
  hitCount : Z
}.

(* ------------------------------------------------------------------ *)
(** ** The JavaScript platform *)

Record Runtime : Type := {
  (** [Math.sqrt]. *)
  Math_sqrt : Q -> Q;
  (** [x.toFixed(digits)] and the conversion of a number in a template
      literal. *)
  toFixed : Q -> nat -> string;
  numberToString : Q -> string;
  (** [String.prototype.toLowerCase], [toUpperCase] and [trim]. *)
  toLowerCase : string -> string;
  toUpperCase : string -> string;
  trim : string -> string;
  (** [new RegExp(source, flags).test(text)], [text.replace(re, by)] and
      [text.split(re)], the pattern given by its source and flags. *)
  re_test : string -> string -> string -> bool;
  re_replace : string -> string -> string -> string -> string;
  re_split : string -> string -> list string;
  (** [new URL(url).hostname]; [None] when the constructor throws. *)
  url_hostname : string -> option string;
  (** The first 64 hex digits of [crypto.subtle.digest("SHA-256", ...)]
      over the UTF-8 encoding of the argument. *)
  sha256_hex : string -> string;
  (** Local-time fields of [new Date(ms)], and
      [new Date(year, month, day).getTime()] (month and day may lie
      outside their ranges and are normalised by the platform). *)
  getFullYear : Z -> Z;
  getMonth : Z -> Z;
  getDate : Z -> Z;
  getDay : Z -> Z;
  newDate : Z -> Z -> Z -> Z;
  (** [new Date(ms).toISOString()]. *)
  toISOString : Z -> string
}.

(** Array and Map built-ins used by the sources. *)
Module Js.

(** [xs.includes(x)] for a decidable equality. *)
Definition includes {A} (eqb : A -> A -> bool) (x : A) (xs : list A) : bool :=
  existsb (eqb x) xs.

(** [xs.slice(0, n)]. *)
Definition slice0 {A} (n : Z) (xs : list A) : list A :=
  if (n <? 0)%Z
  then firstn (Nat.sub (List.length xs) (Z.to_nat (- n))) xs
  else firstn (Z.to_nat n) xs.

(** [xs.sort(cmp)] for a comparator [cmp a b <= 0] given as [le a b]:
    the sort is stable, so the result is the insertion of each element
    before the first later one that it does not exceed. *)
Fixpoint insert {A} (le : A -> A -> bool) (x : A) (xs : list A) : list A :=
  match xs with
  | [] => [x]
  | y :: ys => if le x y then x :: y :: ys else y :: insert le x ys
  end.

Fixpoint sort {A} (le : A -> A -> bool) (xs : list A) : list A :=
  match xs with
  | [] => []
  | x :: rest => insert le x (sort le rest)
  end.

(** A [Map<string, V>]: keys in insertion order, each key once. *)
Definition Map (V : Type) : Type := list (string * V).

Fixpoint map_get {V} (k : string) (m : Map V) : option V :=
  match m with
  | [] => None
  | (k', v) :: rest => if String.eqb k k' then Some v else map_get k rest
  end.

(** [m.set(k, v)]: an existing key keeps its position. *)
Fixpoint map_set {V} (k : string) (v : V) (m : Map V) : Map V :=
  match m with
  | [] => [(k, v)]
  | (k', v') :: rest =>
      if String.eqb k k' then (k', v) :: rest
      else (k', v') :: map_set k v rest
  end.

Fixpoint map_delete {V} (k : string) (m : Map V) : Map V :=
  match m with
  | [] => []
  | (k', v') :: rest =>
      if String.eqb k k' then rest else (k', v') :: map_delete k rest
  end.

Definition map_has {V} (k : string) (m : Map V) : bool :=
  match map_get k m with Some _ => true | None => false end.

Definition map_values {V} (m : Map V) : list V := List.map snd m.

Definition map_size {V} (m : Map V) : nat := List.length m.

(** [xs.slice(0, n)] of a string. *)
Definition str_slice0 (n : nat) (s : string) : string := substring 0 n s.

End Js.

(* ------------------------------------------------------------------ *)
(** ** cost-calculator.ts *)

Module CostCalculator.

Definition MODEL_COSTS : list ModelCostProfile := [
  {| mp_provider := perplexity; mp_model := "sonar";
     inputCostPer1k := 0.001; outputCostPer1k := 0.001;
     mp_perRequestCost := 0.005;
     maxOutputTokens := 16384; contextWindow := 128000;
     suitableFor := [simple];
     capabilities := [web_search; citations] |};
  {| mp_provider := perplexity; mp_model := "sonar-pro";
     inputCostPer1k := 0.003; outputCostPer1k := 0.015;
     mp_perRequestCost := 0.005;
     maxOutputTokens := 16384; contextWindow := 200000;
     suitableFor := [simple; medium];
     capabilities := [web_search; deep_search; citations; images] |};
  {| mp_provider := perplexity; mp_model := "sonar-reasoning-pro";
     inputCostPer1k := 0.002; outputCostPer1k := 0.008;
     mp_perRequestCost := 0.005;
     maxOutputTokens := 16384; contextWindow := 128000;
     suitableFor := [medium; complex];
     capabilities := [web_search; cap_reasoning; chain_of_thought; citations] |};
  {| mp_provider := openai; mp_model := "gpt-4o-mini";
     inputCostPer1k := 0.00015; outputCostPer1k := 0.0006;
     mp_perRequestCost := 0;
     maxOutputTokens := 16384; contextWindow := 128000;
     suitableFor := [simple; medium];
     capabilities := [cap_code; long_context] |};
  {| mp_provider := openai; mp_model := "gpt-4o";
     inputCostPer1k := 0.0025; outputCostPer1k := 0.01;
     mp_perRequestCost := 0;
     maxOutputTokens := 4096; contextWindow := 128000;
     suitableFor := [medium; complex];
     capabilities := [cap_code; cap_reasoning; long_context] |};
  {| mp_provider := anthropic; mp_model := "claude-sonnet-4-5";
     inputCostPer1k := 0.003; outputCostPer1k := 0.015;
     mp_perRequestCost := 0;
     maxOutputTokens := 8192; contextWindow := 200000;
     suitableFor := [complex];
     capabilities := [cap_code; cap_reasoning; long_context] |};
  {| mp_provider := anthropic; mp_model := "claude-opus-4-6";
     inputCostPer1k := 0.015; outputCostPer1k := 0.075;
     mp_perRequestCost := 0;
     maxOutputTokens := 32768; contextWindow := 200000;
     suitableFor := [complex];
     capabilities := [cap_code; cap_reasoning; long_context] |}
].

Definition getModelCostProfile (provider : ProviderName) (model : string)
  : option ModelCostProfile :=
  find (fun m => ProviderName_eqb (mp_provider m) provider
                 && String.eqb (mp_model m) model) MODEL_COSTS.

Definition listModelCostProfiles : list ModelCostProfile := MODEL_COSTS.

Definition listModelsForComplexity (complexity : QueryComplexity)
  : list ModelCostProfile :=
  filter (fun m => Js.includes QueryComplexity_eqb complexity (suitableFor m))
         MODEL_COSTS.

Definition estimateCostForModel (profile : ModelCostProfile)
  (inputTokens outputTokens : Q) : Q :=
  let inputCost := (inputTokens / 1000) * inputCostPer1k profile in
  let outputCost := (outputTokens / 1000) * outputCostPer1k profile in
  inputCost + outputCost + mp_perRequestCost profile.

(** Returns models sorted by estimated cost (cheapest first). *)
Definition listModelsByCost (complexity : QueryComplexity)
  (estimatedInputTokens estimatedOutputTokens : Q)
  : list (ModelCostProfile * Q) :=
  let candidates := listModelsForComplexity complexity in
  Js.sort (fun a b => Num.leb (snd a - snd b) 0)
    (List.map (fun profile =>
       (profile,
        estimateCostForModel profile estimatedInputTokens estimatedOutputTokens))
       candidates).

Definition estimateOutputTokens (complexity : QueryComplexity)
  (estimatedInputTokens : Q) : Q :=
  match complexity with
  | simple => Num.min 200 (Num.max 50 (estimatedInputTokens * 2))
  | medium => Num.min 800 (Num.max 200 (estimatedInputTokens * 3))
  | complex => Num.min 4000 (Num.max 500 (estimatedInputTokens * 4))
  end.

Definition estimateCost (provider : ProviderName) (model : string)
  (estimatedInputTokens estimatedOutputTokens : Q) : CostEstimate :=
  match getModelCostProfile provider model with
  | None =>
      {| ce_provider := provider; ce_model := model;
         estimatedInputTokens := estimatedInputTokens;
         estimatedOutputTokens := estimatedOutputTokens;
         estimatedCost := 0;
         breakdown := {| inputCost := 0; outputCost := 0;
                         perRequestCost := 0 |} |}
  | Some profile =>
      let inputCost := (estimatedInputTokens / 1000) * inputCostPer1k profile in
      let outputCost :=
        (estimatedOutputTokens / 1000) * outputCostPer1k profile in
      let perRequestCost := mp_perRequestCost profile in
      {| ce_provider := provider; ce_model := model;
         estimatedInputTokens := estimatedInputTokens;
         estimatedOutputTokens := estimatedOutputTokens;
         estimatedCost := inputCost + outputCost + perRequestCost;
         breakdown := {| inputCost := inputCost; outputCost := outputCost;
                         perRequestCost := perRequestCost |} |}
  end.

(** [now] is the reading of [Date.now()]. *)
Definition computeActualCost (now : Z) (provider : ProviderName)
  (model : string) (inputTokens outputTokens : Q) : ActualCost :=
  match getModelCostProfile provider model with
  | None =>
      {| ac_provider := provider; ac_model := model;
         inputTokens := inputTokens; outputTokens := outputTokens;
         totalCost := 0; timestamp := now |}
  | Some profile =>
      let inputCost := (inputTokens / 1000) * inputCostPer1k profile in
      let outputCost := (outputTokens / 1000) * outputCostPer1k profile in
      {| ac_provider := provider; ac_model := model;
         inputTokens := inputTokens; outputTokens := outputTokens;
         totalCost := inputCost + outputCost + mp_perRequestCost profile;
         timestamp := now |}
  end.

Definition wouldExceedBudget (estimate : CostEstimate) (remaining : Q) : bool :=
  Num.gtb (estimatedCost estimate) remaining.

Definition cheapestModelWithinBudget (complexity : QueryComplexity)
  (estimatedInputTokens estimatedOutputTokens remainingBudget : Q)
  : option ModelCostProfile :=
  let ranked :=
    listModelsByCost complexity estimatedInputTokens estimatedOutputTokens in
  option_map fst
    (find (fun r => Num.leb (snd r) remainingBudget) ranked).

End CostCalculator.

(* ------------------------------------------------------------------ *)
(** ** budget-tracker.ts *)

Module BudgetTracker.

Definition DEFAULT_BUDGET_CONFIG : BudgetConfig := {|
  dailyLimit := 5.0;
  weeklyLimit := 30.0;
  monthlyLimit := 100.0;
  alertThresholds := [
    {| percentage := 50; action := act_log; channels := None |};
    {| percentage := 80; action := act_notify;
       channels := Some ["telegram"] |};
    {| percentage := 95; action := act_emergency_mode; channels := None |}
  ];
  emergencyMode := {|
    enabled := true;
    forceCheapestModels := true;
    disableProviders := [anthropic];
    notifyAdmin := true
  |}
|}.

(** [Partial<BudgetConfig>]. *)
Record PartialBudgetConfig : Type := {
  p_dailyLimit : option Q;
  p_weeklyLimit : option Q;
  p_monthlyLimit : option Q;
  p_alertThresholds : option (list BudgetAlertThreshold);
  p_emergencyMode : option EmergencyModeConfig
}.

Definition noOverrides : PartialBudgetConfig := {|
  p_dailyLimit := None; p_weeklyLimit := None; p_monthlyLimit := None;
  p_alertThresholds := None; p_emergencyMode := None
|}.

Definition orElse {A} (o : option A) (d : A) : A :=
  match o with Some a => a | None => d end.

(** [{ ...base, ...config }]. *)
Definition spread (base : BudgetConfig) (config : PartialBudgetConfig)
  : BudgetConfig := {|
  dailyLimit := orElse (p_dailyLimit config) (dailyLimit base);
  weeklyLimit := orElse (p_weeklyLimit config) (weeklyLimit base);
  monthlyLimit := orElse (p_monthlyLimit config) (monthlyLimit base);
  alertThresholds :=
    orElse (p_alertThresholds config) (alertThresholds base);
  emergencyMode := orElse (p_emergencyMode config) (emergencyMode base)
|}.

Definition getLimit (config : BudgetConfig) (period : BudgetPeriod) : Q :=
  match period with
  | daily => dailyLimit config
  | weekly => weeklyLimit config
  | monthly => monthlyLimit config
  end.

(** The alert key [`${percentage}-${action}`]: two thresholds have the
    same key exactly when they have the same number and the same action,
    so the key is kept as that pair and compared as numbers. *)
Definition AlertKey : Type := (Q * AlertAction)%type.

Definition alertKey (threshold : BudgetAlertThreshold) : AlertKey :=
  (percentage threshold, action threshold).

Definition AlertKey_eqb (a b : AlertKey) : bool :=
  Qeq_bool (fst a) (fst b) && AlertAction_eqb (snd a) (snd b).

Inductive ConsoleLevel : Type := console_info | console_warn | console_error.

(** The fields of the class, and the lines it wrote to the console. *)
Record Tracker : Type := {
  costs : list ActualCost;
  config : BudgetConfig;
  emergencyModeActive : bool;
  alertsFired : list AlertKey;
  console : list (ConsoleLevel * string)
}.

Definition set_costs (cs : list ActualCost) (t : Tracker) : Tracker :=
  {| costs := cs; config := config t;
     emergencyModeActive := emergencyModeActive t;
     alertsFired := alertsFired t; console := console t |}.

Definition set_config (c : BudgetConfig) (t : Tracker) : Tracker :=
  {| costs := costs t; config := c;
     emergencyModeActive := emergencyModeActive t;
     alertsFired := alertsFired t; console := console t |}.

Definition set_emergencyModeActive (b : bool) (t : Tracker) : Tracker :=
  {| costs := costs t; config := config t;
     emergencyModeActive := b;
     alertsFired := alertsFired t; console := console t |}.

Definition set_alertsFired (s : list AlertKey) (t : Tracker) : Tracker :=
  {| costs := costs t; config := config t;
     emergencyModeActive := emergencyModeActive t;
     alertsFired := s; console := console t |}.

Definition console_write (level : ConsoleLevel) (msg : string) (t : Tracker)
  : Tracker :=
  {| costs := costs t; config := config t;
     emergencyModeActive := emergencyModeActive t;
     alertsFired := alertsFired t;
     console := (console t ++ [(level, msg)])%list |}.

(** [alertsFired.has(key)] and [alertsFired.add(key)]. *)
Definition has (key : AlertKey) (s : list AlertKey) : bool :=
  existsb (AlertKey_eqb key) s.

Definition add (key : AlertKey) (s : list AlertKey) : list AlertKey :=
  if has key s then s else (s ++ [key])%list.

(** [new BudgetTracker(config)]. *)
Definition new (config : PartialBudgetConfig) : Tracker := {|
  costs := [];
  config := spread DEFAULT_BUDGET_CONFIG config;
  emergencyModeActive := false;
  alertsFired := [];
  console := []
|}.

Definition actionString (a : AlertAction) : string :=
  match a with
  | act_log => "log"
  | act_notify => "notify"
  | act_emergency_mode => "emergency_mode"
  end.

Section WithRuntime.
Variable rt : Runtime.

Definition getPeriodBounds (period : BudgetPeriod) (now : Z) : Z * Z :=
  match period with
  | daily =>
      let start :=
        newDate rt (getFullYear rt now) (getMonth rt now) (getDate rt now) in
      let end_ := (start + 24 * 60 * 60 * 1000)%Z in
      (start, end_)
  | weekly =>
      let dayOfWeek := getDay rt now in
      (* setDate(getDate() - k) then setHours(0, 0, 0, 0): the local
         midnight of the day k days before. *)
      let start :=
        newDate rt (getFullYear rt now) (getMonth rt now)
          (getDate rt now - ((dayOfWeek + 6) mod 7))%Z in
      let end_ := (start + 7 * 24 * 60 * 60 * 1000)%Z in
      (start, end_)
  | monthly =>
      let start := newDate rt (getFullYear rt now) (getMonth rt now) 1 in
      let end_ :=
        newDate rt (getFullYear rt now) (getMonth rt now + 1)%Z 1 in
      (start, end_)
  end.

(** [c.timestamp >= start && c.timestamp < end]. *)
Definition inPeriod (start end_ : Z) (c : ActualCost) : bool :=
  (start <=? timestamp c)%Z && (timestamp c <? end_)%Z.

(** Get budget status for a given period. *)
Definition getStatus (now : Z) (period : BudgetPeriod) (t : Tracker)
  : BudgetStatus :=
  let '(start, end_) := getPeriodBounds period now in
  let limit := getLimit (config t) period in
  let spent :=
    fold_left (fun sum c => sum + totalCost c)
      (filter (inPeriod start end_) (costs t)) 0 in
  let remaining := Num.max 0 (limit - spent) in
  let percentUsed :=
    if Num.gtb limit 0 then (spent / limit) * 100 else 0 in
  {| bs_period := period;
     limit := limit;
     spent := Num.roundTo 1000000 spent;
     remaining := Num.roundTo 1000000 remaining;
     percentUsed := Num.roundTo 100 percentUsed;
     periodStart := start;
     periodEnd := end_ |}.

Definition getAllStatuses (now1 now2 now3 : Z) (t : Tracker)
  : list BudgetStatus :=
  [getStatus now1 daily t; getStatus now2 weekly t; getStatus now3 monthly t].

Definition dailyRemaining (now : Z) (t : Tracker) : Q :=
  remaining (getStatus now daily t).

Definition isEmergencyMode (t : Tracker) : bool := emergencyModeActive t.

(** Force emergency mode on/off. *)
Definition setEmergencyMode (active : bool) (t : Tracker) : Tracker :=
  set_emergencyModeActive active t.

Definition isProviderDisabled (provider : ProviderName) (t : Tracker) : bool :=
  if negb (emergencyModeActive t) then false
  else Js.includes ProviderName_eqb provider
         (disableProviders (emergencyMode (config t))).

Definition getTodaySpend (now : Z) (t : Tracker) : Q :=
  spent (getStatus now daily t).

Definition getQueryCount (now : Z) (period : BudgetPeriod) (t : Tracker)
  : nat :=
  let '(start, end_) := getPeriodBounds period now in
  List.length (filter (inPeriod start end_) (costs t)).

(** [by[key] = (by[key] ?? 0) + amount] on an object used as a map;
    the keys, provider names and [provider/model] pairs, are not array
    indices, so the object keeps them in insertion order. *)
Definition addTo (key : string) (amount : Q) (by_ : Js.Map Q) : Js.Map Q :=
  Js.map_set key
    (match Js.map_get key by_ with Some v => v | None => 0 end + amount)
    by_.

(** Get per-provider cost breakdown for a period. *)
Definition getCostByProvider (now : Z) (period : BudgetPeriod) (t : Tracker)
  : Js.Map Q :=
  let '(start, end_) := getPeriodBounds period now in
  fold_left
    (fun byProvider cost =>
       if inPeriod start end_ cost
       then addTo (providerString (ac_provider cost)) (totalCost cost)
              byProvider
       else byProvider)
    (costs t) [].

(** Get per-model cost breakdown for a period. *)
Definition getCostByModel (now : Z) (period : BudgetPeriod) (t : Tracker)
  : Js.Map Q :=
  let '(start, end_) := getPeriodBounds period now in
  fold_left
    (fun byModel cost =>
       if inPeriod start end_ cost
       then
         let key := providerString (ac_provider cost) ++ "/" ++ ac_model cost in
         addTo key (totalCost cost) byModel
       else byModel)
    (costs t) [].

Definition fireAlert (action : AlertAction) (status : BudgetStatus)
  (channels : option (list string)) (t : Tracker) : Tracker :=
  let msg :=
    "[DeepEyeClaw Budget] " ++ toUpperCase rt (actionString action) ++ ": "
    ++ toFixed rt (percentUsed status) 1 ++ "% of daily budget used ($"
    ++ toFixed rt (spent status) 4 ++ " / $"
    ++ toFixed rt (limit status) 2 ++ ")" in
  match action with
  | act_log => console_write console_info msg t
  | act_notify => console_write console_warn msg t
  | act_emergency_mode =>
      if enabled (emergencyMode (config t)) then
        console_write console_error
          ("🚨 " ++ msg ++ " — EMERGENCY MODE ACTIVATED")
          (set_emergencyModeActive true t)
      else t
  end.

Definition checkThreshold (daily : BudgetStatus) (t : Tracker)
  (threshold : BudgetAlertThreshold) : Tracker :=
  let key := alertKey threshold in
  if Num.geb (percentUsed daily) (percentage threshold)
     && negb (has key (alertsFired t))
  then
    fireAlert (action threshold) daily (channels threshold)
      (set_alertsFired (add key (alertsFired t)) t)
  else t.

Definition checkAlerts (now : Z) (t : Tracker) : Tracker :=
  let dailyStatus := getStatus now daily t in
  fold_left (checkThreshold dailyStatus) (alertThresholds (config t)) t.

(** Record a completed query cost. *)
Definition recordCost (now : Z) (cost : ActualCost) (t : Tracker) : Tracker :=
  checkAlerts now (set_costs (costs t ++ [cost])%list t).

(** Update budget configuration. *)
Definition updateConfig (now : Z) (config : PartialBudgetConfig) (t : Tracker)
  : Tracker :=
  checkAlerts now
    (set_alertsFired []
       (set_config (spread (BudgetTracker.config t) config) t)).

(** Prune old cost records to prevent memory buildup. Keep last 90 days. *)
Definition prune (now : Z) (t : Tracker) : Tracker :=
  let cutoff := (now - 90 * 24 * 60 * 60 * 1000)%Z in
  set_costs (filter (fun c => (cutoff <=? timestamp c)%Z) (costs t)) t.

(** Reset alerts for a new day (call on period rollover). *)
Definition resetAlerts (t : Tracker) : Tracker :=
  set_emergencyModeActive false (set_alertsFired [] t).

End WithRuntime.

(** The state-changing methods of the class, each with the clock reading
    it makes. *)
Inductive Op : Type :=
| OpRecordCost (now : Z) (cost : ActualCost)
| OpSetEmergencyMode (active : bool)
| OpUpdateConfig (now : Z) (config : PartialBudgetConfig)
| OpPrune (now : Z)
| OpResetAlerts.

Definition step (rt : Runtime) (op : Op) (t : Tracker) : Tracker :=
  match op with
  | OpRecordCost now cost => recordCost rt now cost t
  | OpSetEmergencyMode active => setEmergencyMode active t
  | OpUpdateConfig now config => updateConfig rt now config t
  | OpPrune now => prune now t
  | OpResetAlerts => resetAlerts t
  end.

Definition run (rt : Runtime) (ops : list Op) (t : Tracker) : Tracker :=
  fold_left (fun t op => step rt op t) ops t.

End BudgetTracker.

(* ------------------------------------------------------------------ *)
(** ** providers/base.ts: the shared interfaces *)

Record Citation : Type := {
  url : string;
  title : option string
}.

Record TokenUsage : Type := {
  tok_input : Q;
  tok_output : Q;
  tok_total : Q
}.

Record ChatResponse : Type := {
  resp_id : string;
  content : string;
  resp_provider : ProviderName;
  resp_model : string;
  tokens : TokenUsage;
  resp_cost : Q;
  responseTimeMs : Q;
  resp_citations : option (list Citation);
  cacheHit : bool;
  finishReason : option string
}.

Record ChatRequest : Type := {
  req_id : option string;
  req_content : string;
  systemPrompt : option string;
  maxTokens : option Q;
  temperature : option Q
}.

(* ------------------------------------------------------------------ *)
(** ** utils/helpers.ts *)

Module Helpers.

(** Hash a string to a short hex digest (for cache keys). *)
Definition hashString (rt : Runtime) (input : string) : string :=
  Js.str_slice0 16 (sha256_hex rt (toLowerCase rt (trim rt input))).

(** Clamp a number between min and max. *)
Definition clamp (value min max : Q) : Q :=
  Num.max min (Num.min max value).

(** Exponential backoff delay in ms.  [random] is the reading of
    [Math.random()]; [attempt] is a retry count, for which
    [Math.pow(2, attempt)] is the power of two. *)
Definition backoffMs (random : Q) (attempt : nat) (baseMs cap : Q) : Q :=
  Num.min (baseMs * inject_Z (2 ^ Z.of_nat attempt) + random * 200) cap.

End Helpers.

(* ------------------------------------------------------------------ *)
(** ** cache/semantic.ts over cache/adapters/memory.ts *)

Module SemanticCache.

Record SemanticCacheConfig : Type := {
  maxEntries : Z;
  similarityThreshold : Q;
  defaultTtlMs : Z;
  realtimeTtlMs : Z
}.

Definition DEFAULT_CONFIG : SemanticCacheConfig := {|
  maxEntries := 1000;
  similarityThreshold := 0.82;
  defaultTtlMs := 3600000;
  realtimeTtlMs := 60000
|}.

Record CacheStats : Type := {
  totalEntries : Z;
  stats_hitCount : Z;
  stats_missCount : Z;
  hitRate : Q;
  totalCostSaved : Q;
  avgResponseTimeMs : Q
}.

Definition emptyStats : CacheStats := {|
  totalEntries := 0; stats_hitCount := 0; stats_missCount := 0;
  hitRate := 0; totalCostSaved := 0; avgResponseTimeMs := 0
|}.

(** The cache object: the [Map] held by its [MemoryAdapter], its
    configuration, its statistics and the vocabulary of the last scan. *)
Record Cache : Type := {
  adapter : Js.Map CacheEntry;
  config : SemanticCacheConfig;
  stats : CacheStats;
  vocab : Js.Map nat
}.

Definition set_adapter (a : Js.Map CacheEntry) (c : Cache) : Cache :=
  {| adapter := a; config := config c; stats := stats c; vocab := vocab c |}.

Definition set_stats (s : CacheStats) (c : Cache) : Cache :=
  {| adapter := adapter c; config := config c; stats := s; vocab := vocab c |}.

Definition set_vocab (v : Js.Map nat) (c : Cache) : Cache :=
  {| adapter := adapter c; config := config c; stats := stats c; vocab := v |}.

(** [new SemanticCache(new MemoryAdapter(), config)]. *)
Definition new (config : SemanticCacheConfig) : Cache :=
  {| adapter := []; config := config; stats := emptyStats; vocab := [] |}.

(** [entry.hitCount++]. *)
Definition bumpHitCount (e : CacheEntry) : CacheEntry :=
  {| queryHash := queryHash e; queryText := queryText e;
     ce_response := ce_response e; entry_provider := entry_provider e;
     entry_model := entry_model e; cost := cost e;
     tokensUsed := tokensUsed e; createdAt := createdAt e;
     expiresAt := expiresAt e; hitCount := (hitCount e + 1)%Z |}.

Definition updateHitRate (s : CacheStats) : CacheStats :=
  let total := (stats_hitCount s + stats_missCount s)%Z in
  {| totalEntries := totalEntries s;
     stats_hitCount := stats_hitCount s;
     stats_missCount := stats_missCount s;
     hitRate := if (0 <? total)%Z
                then inject_Z (stats_hitCount s) / inject_Z total else 0;
     totalCostSaved := totalCostSaved s;
     avgResponseTimeMs := avgResponseTimeMs s |}.

Definition recordHit (costSaved : Q) (c : Cache) : Cache :=
  let s := stats c in
  set_stats
    (updateHitRate
       {| totalEntries := totalEntries s;
          stats_hitCount := (stats_hitCount s + 1)%Z;
          stats_missCount := stats_missCount s;
          hitRate := hitRate s;
          totalCostSaved := totalCostSaved s + costSaved;
          avgResponseTimeMs := avgResponseTimeMs s |}) c.

Definition recordMiss (c : Cache) : Cache :=
  let s := stats c in
  set_stats
    (updateHitRate
       {| totalEntries := totalEntries s;
          stats_hitCount := stats_hitCount s;
          stats_missCount := (stats_missCount s + 1)%Z;
          hitRate := hitRate s;
          totalCostSaved := totalCostSaved s;
          avgResponseTimeMs := avgResponseTimeMs s |}) c.

Definition set_totalEntries (n : Z) (c : Cache) : Cache :=
  let s := stats c in
  set_stats
    {| totalEntries := n;
       stats_hitCount := stats_hitCount s;
       stats_missCount := stats_missCount s;
       hitRate := hitRate s;
       totalCostSaved := totalCostSaved s;
       avgResponseTimeMs := avgResponseTimeMs s |} c.

Section WithRuntime.
Variable rt : Runtime.

Definition tokenize (text : string) : list string :=
  filter (fun t => Nat.ltb 1 (String.length t))
    (re_split rt "\s+"
       (re_replace rt "[^\w\s]" "g" (toLowerCase rt text) " ")).

Definition buildVocab (docs : list string) : Js.Map nat :=
  fold_left
    (fun vocab doc =>
       fold_left
         (fun vocab tok =>
            if Js.map_has tok vocab then vocab
            else Js.map_set tok (Js.map_size vocab) vocab)
         (tokenize doc) vocab)
    docs [].

(** [vec[i]++]; the indices of a vocabulary are below its size. *)
Fixpoint increment (i : nat) (vec : list Q) : list Q :=
  match vec, i with
  | [], _ => []
  | x :: rest, O => (x + 1) :: rest
  | x :: rest, S j => x :: increment j rest
  end.

Definition toVector (text : string) (vocab : Js.Map nat) : list Q :=
  fold_left
    (fun vec tok =>
       match Js.map_get tok vocab with
       | Some i => increment i vec
       | None => vec
       end)
    (tokenize text) (repeat 0 (Js.map_size vocab)).

Fixpoint sumProducts (a b : list Q) : Q :=
  match a, b with
  | x :: a', y :: b' => x * y + sumProducts a' b'
  | _, _ => 0
  end.

Definition cosineSimilarity (a b : list Q) : Q :=
  if negb (Nat.eqb (List.length a) (List.length b))
     || Nat.eqb (List.length a) 0
  then 0
  else
    let dot := sumProducts a b in
    let magA := sumProducts a a in
    let magB := sumProducts b b in
    let denom := Math_sqrt rt magA * Math_sqrt rt magB in
    if Qeq_bool denom 0 then 0 else dot / denom.

(** The scan for the most similar entry.  An element of [active] is an
    entry together with the key it is stored under, which stands for the
    identity of the stored object. *)
Definition scan (queryVec : list Q) (vocab : Js.Map nat)
  (active : list (string * CacheEntry))
  : option (string * CacheEntry) * Q :=
  fold_left
    (fun best ke =>
       let entryVec := toVector (queryText (snd ke)) vocab in
       let sim := cosineSimilarity queryVec entryVec in
       if Num.gtb sim (snd best) then (Some ke, sim) else best)
    active (None, 0).

(** Step 2 of [lookup], the semantic match; [now] is the clock read
    before the scan. *)
Definition semanticMatch (query : string) (now : Z) (c : Cache)
  : option (CacheEntry * Q) * Cache :=
  let allEntries := adapter c in
  let active := filter (fun ke => (now <? expiresAt (snd ke))%Z) allEntries in
  match active with
  | [] => (None, recordMiss c)
  | _ :: _ =>
      let allTexts :=
        (List.map (fun ke => queryText (snd ke)) active ++ [query])%list in
      let vocab := buildVocab allTexts in
      let c1 := set_vocab vocab c in
      let queryVec := toVector query vocab in
      let '(bestEntry, bestSim) := scan queryVec vocab active in
      match bestEntry with
      | Some (key, entry) =>
          if Num.geb bestSim (similarityThreshold (config c))
          then
            let entry' := bumpHitCount entry in
            let c2 :=
              set_adapter
                (Js.map_set (queryHash entry') entry'
                   (Js.map_set key entry' (adapter c1))) c1 in
            (Some (entry', bestSim), recordHit (cost entry') c2)
          else (None, recordMiss c1)
      | None => (None, recordMiss c1)
      end
  end.

(** Look up a query in the cache.  [now1] is the clock read by the
    exact match, [now2] the one read before the scan. *)
Definition lookup (query : string) (now1 now2 : Z) (c : Cache)
  : option (CacheEntry * Q) * Cache :=
  let hash := Helpers.hashString rt query in
  (* 1. Exact match *)
  match Js.map_get hash (adapter c) with
  | Some exact =>
      if (now1 <? expiresAt exact)%Z then
        let exact' := bumpHitCount exact in
        let c1 := set_adapter (Js.map_set hash exact' (adapter c)) c in
        (Some (exact', 1.0), recordHit (cost exact') c1)
      else semanticMatch query now2 c
  | None =>
      (* 2. Semantic match *)
      semanticMatch query now2 c
  end.

(** Evict the oldest / least-hit entry. *)
Definition evictOldest (c : Cache) : Cache :=
  let all := Js.map_values (adapter c) in
  match
    Js.sort
      (fun a b =>
         let d := if (hitCount a - hitCount b =? 0)%Z
                  then (createdAt a - createdAt b)%Z
                  else (hitCount a - hitCount b)%Z in
         (d <=? 0)%Z)
      all
  with
  | [] => c
  | victim :: _ =>
      set_adapter (Js.map_delete (queryHash victim) (adapter c)) c
  end.

(** Store a response in the cache.  [nowCreated] and [nowExpires] are the
    two clock reads of the entry literal. *)
Definition store (query : string) (response : ChatResponse)
  (ttlMs : option Z) (nowCreated nowExpires : Z) (c : Cache) : Cache :=
  let hash := Helpers.hashString rt query in
  let ttl := match ttlMs with Some t => t | None => defaultTtlMs (config c) end in
  let size := Z.of_nat (Js.map_size (adapter c)) in
  let c1 := if (maxEntries (config c) <=? size)%Z then evictOldest c else c in
  let entry := {|
    queryHash := hash;
    queryText := query;
    ce_response := content response;
    entry_provider := resp_provider response;
    entry_model := resp_model response;
    cost := resp_cost response;
    tokensUsed := tok_total (tokens response);
    createdAt := nowCreated;
    expiresAt := (nowExpires + ttl)%Z;
    hitCount := 0
  |} in
  let c2 := set_adapter (Js.map_set hash entry (adapter c1)) c1 in
  set_totalEntries (Z.of_nat (Js.map_size (adapter c2))) c2.

(** Remove expired entries; returns how many were pruned. *)
Definition pruneExpired (now : Z) (c : Cache) : Z * Cache :=
  let all := Js.map_values (adapter c) in
  let '(pruned, a) :=
    fold_left
      (fun st entry =>
         if (expiresAt entry <=? now)%Z
         then ((fst st + 1)%Z, Js.map_delete (queryHash entry) (snd st))
         else st)
      all (0%Z, adapter c) in
  let c1 := set_adapter a c in
  (pruned, set_totalEntries (Z.of_nat (Js.map_size a)) c1).

Definition clear (c : Cache) : Cache :=
  set_stats emptyStats (set_adapter [] c).

Definition getAllEntries (c : Cache) : list CacheEntry :=
  Js.map_values (adapter c).

End WithRuntime.

(** The state-changing methods, each with its clock readings. *)
Inductive Op : Type :=
| OpLookup (query : string) (now1 now2 : Z)
| OpStore (query : string) (response : ChatResponse) (ttlMs : option Z)
    (nowCreated nowExpires : Z)
| OpPruneExpired (now : Z)
| OpClear.

Definition step (rt : Runtime) (op : Op) (c : Cache) : Cache :=
  match op with
  | OpLookup query now1 now2 => snd (lookup rt query now1 now2 c)
  | OpStore query response ttlMs nowCreated nowExpires =>
      store rt query response ttlMs nowCreated nowExpires c
  | OpPruneExpired now => snd (pruneExpired now c)
  | OpClear => clear c
  end.

Definition run (rt : Runtime) (ops : list Op) (c : Cache) : Cache :=
  fold_left (fun c op => step rt op c) ops c.

End SemanticCache.

(* ------------------------------------------------------------------ *)
(** ** quality-estimator.ts *)

Module QualityEstimator.

Record QualitySignal : Type := {
  name : string;
  score : Q;
  weight : Q;
  detail : string
}.

Inductive Grade : Type := A | B | C | D | F.

Inductive Recommendation : Type := accept | escalate | reject.

Record QualityReport : Type := {
  overallScore : Q;
  signals : list QualitySignal;
  grade : Grade;
  confidence : Q;
  recommendation : Recommendation
}.

Record SignalWeights : Type := {
  citationQuality : Q;
  confidenceLanguage : Q;
  structuralCompleteness : Q;
  lengthAppropriateness : Q;
  latencyVsExpected : Q;
  tokenEfficiency : Q
}.

Definition SIGNAL_WEIGHTS : SignalWeights := {|
  citationQuality := 0.25;
  confidenceLanguage := 0.2;
  structuralCompleteness := 0.2;
  lengthAppropriateness := 0.15;
  latencyVsExpected := 0.1;
  tokenEfficiency := 0.1
|}.

Record ExpectedTokens : Type := {
  exp_min : Q;
  exp_max : Q;
  exp_ideal : Q
}.

Definition EXPECTED_TOKENS_BY_COMPLEXITY (c : QueryComplexity)
  : ExpectedTokens :=
  match c with
  | simple => {| exp_min := 50; exp_max := 500; exp_ideal := 200 |}
  | medium => {| exp_min := 150; exp_max := 1500; exp_ideal := 600 |}
  | complex => {| exp_min := 300; exp_max := 4000; exp_ideal := 1500 |}
  end.

Definition EXPECTED_LATENCY_BY_COMPLEXITY (c : QueryComplexity) : Q :=
  match c with
  | simple => 2000
  | medium => 5000
  | complex => 10000
  end.

(** The patterns, by their sources; all are matched with the flag [i]. *)
Definition HIGH_CONFIDENCE_PATTERNS : list string := [
  "\bis\b"; "\bare\b"; "\bshows\b"; "\bdemonstrates\b";
  "\baccording to\b"; "\bevidence\b"; "\bresearch\b"; "\bspecifically\b";
  "\bin conclusion\b"; "\bproven\b"; "\bdata shows\b"; "\bstudies\b";
  "\bconfirmed\b"
].

Definition LOW_CONFIDENCE_PATTERNS : list string := [
  "\bi('m| am) not sure\b"; "\bi don'?t know\b"; "\bperhaps\b";
  "\bmight\b"; "\bcould be\b"; "\bi think\b"; "\bpossibly\b";
  "\bit'?s unclear\b"; "\bnot certain\b"; "\bhard to say\b";
  "\bi cannot\b"; "\bi can('| )not\b"; "\bunable to\b";
  "\bdon'?t have access\b"; "\bmay or may not\b"
].

Definition REFUSAL_PATTERNS : list string := [
  "\bi cannot help\b"; "\bi'?m unable\b"; "\bas an ai\b";
  "\bi don'?t have the ability\b"; "\bnot (able|equipped) to\b"
].

Section WithRuntime.
Variable rt : Runtime.

Definition countMatches (patterns : list string) (text : string) : Q :=
  inject_Z (Z.of_nat
    (List.length (filter (fun p => re_test rt p "i" text) patterns))).

Definition hostnameOf (c : Citation) : string :=
  match url_hostname rt (url c) with
  | Some h => h
  | None => "unknown"
  end.

(** Citation quality: 2-5 = high, 0-1 = questionable, >8 = lack of
    synthesis. *)
Definition scoreCitationQuality (response : ChatResponse) : QualitySignal :=
  let citations :=
    match resp_citations response with Some cs => cs | None => [] end in
  let count := List.length citations in
  let '(score, detail) :=
    if Nat.eqb count 0 then
      let supportsSearch := ProviderName_eqb (resp_provider response) perplexity in
      (if supportsSearch then 3.0 else 6.0,
       if supportsSearch then "No citations from search provider"
       else "No citations (non-search model)")
    else if Nat.eqb count 1 then
      (6.0, "Single citation — limited sourcing")
    else if Nat.leb 2 count && Nat.leb count 5 then
      (9.0, numberToString rt (inject_Z (Z.of_nat count))
            ++ " citations — well-sourced")
    else if Nat.leb count 8 then
      (7.5, numberToString rt (inject_Z (Z.of_nat count))
            ++ " citations — adequate")
    else
      (6.0, numberToString rt (inject_Z (Z.of_nat count))
            ++ " citations — possibly lacking synthesis") in
  let '(score, detail) :=
    if Nat.leb 2 count then
      let domains := nodup string_dec (List.map hostnameOf citations) in
      if Nat.leb (Nat.min 3 count) (List.length domains)
      then (Num.min 10 (score + 0.5), detail ++ " (diverse sources)")
      else (score, detail)
    else (score, detail) in
  {| name := "citationQuality"; score := score;
     weight := citationQuality SIGNAL_WEIGHTS; detail := detail |}.

(** Confidence language: high-confidence phrases vs hedging/refusal. *)
Definition scoreConfidenceLanguage (response : ChatResponse) : QualitySignal :=
  let text := content response in
  let score := 7.0 in
  let highCount := countMatches HIGH_CONFIDENCE_PATTERNS text in
  let lowCount := countMatches LOW_CONFIDENCE_PATTERNS text in
  let refusalCount := countMatches REFUSAL_PATTERNS text in
  if Num.gtb refusalCount 0 then
    {| name := "confidenceLanguage"; score := 1.0;
       weight := confidenceLanguage SIGNAL_WEIGHTS;
       detail := "Refusal detected (" ++ numberToString rt refusalCount
                 ++ " patterns)" |}
  else
    let net := highCount - lowCount * 2 in
    let score := score + Num.max (-5) (Num.min 3 (net * 0.5)) in
    let score := Num.max 0 (Num.min 10 score) in
    let detail :=
      if Num.geb score 8 then "High confidence language"
      else if Num.geb score 5 then "Moderate confidence"
      else "Excessive hedging (" ++ numberToString rt lowCount
           ++ " hedging patterns)" in
    {| name := "confidenceLanguage"; score := score;
       weight := confidenceLanguage SIGNAL_WEIGHTS; detail := detail |}.

Definition addIf (b : bool) (credit : Q) (score : Q) : Q :=
  if b then score + credit else score.

(** Structural completeness: headings, lists, code blocks, paragraphs. *)
Definition scoreStructuralCompleteness (response : ChatResponse)
  (query : ClassifiedQuery) : QualitySignal :=
  let text := content response in
  let score := 5.0 in
  let hasHeadings := re_test rt "^#{1,4}\s" "m" text in
  let hasList := re_test rt "^[-*]\s|^\d+\.\s" "m" text in
  let hasCodeBlock := re_test rt "```[\s\S]*?```" "" text in
  let hasBold := re_test rt "\*\*[^*]+\*\*" "" text in
  let paragraphCount := List.length (re_split rt "\n\n+" text) in
  let isCode := QueryIntent_eqb (cq_intent query) code in
  let score :=
    match cq_complexity query with
    | simple =>
        addIf (Nat.ltb 50 (String.length text)) 1
          (addIf (hasList || hasBold) 1
             (addIf (Nat.leb 1 paragraphCount) 2 score))
    | medium =>
        addIf (Nat.ltb 200 (String.length text)) 1
          (addIf hasBold 0.5
             (addIf hasList 1
                (addIf hasHeadings 1
                   (addIf (Nat.leb 2 paragraphCount) 1 score))))
    | complex =>
        addIf (Nat.leb 3 paragraphCount) 1
          (addIf hasBold 0.5
             (addIf (hasCodeBlock && isCode) 1
                (addIf hasList 1
                   (addIf hasHeadings 1.5 score))))
    end in
  let score := if isCode && negb hasCodeBlock then score - 2 else score in
  let score := Num.max 0 (Num.min 10 score) in
  let parts :=
    ((if hasHeadings then ["headings"] else [])
     ++ (if hasList then ["lists"] else [])
     ++ (if hasCodeBlock then ["code"] else [])
     ++ (if hasBold then ["emphasis"] else []))%list in
  let joined := String.concat ", " parts in
  let detail := if String.eqb joined "" then "plain text" else joined in
  {| name := "structuralCompleteness"; score := score;
     weight := structuralCompleteness SIGNAL_WEIGHTS;
     detail := "Structure: " ++ detail |}.

(** Length appropriateness: is the response the right size for the
    query? *)
Definition scoreLengthAppropriateness (response : ChatResponse)
  (query : ClassifiedQuery) : QualitySignal :=
  let expected := EXPECTED_TOKENS_BY_COMPLEXITY (cq_complexity query) in
  let totalTokens := tok_output (tokens response) in
  let '(score, detail) :=
    if Num.ltb totalTokens (exp_min expected) then
      let ratio := totalTokens / exp_min expected in
      (Num.max 2 (ratio * 7),
       "Too short (" ++ numberToString rt totalTokens ++ " tokens, expected "
       ++ numberToString rt (exp_min expected) ++ "+)")
    else if Num.gtb totalTokens (exp_max expected) then
      let overRatio := totalTokens / exp_max expected in
      (Num.max 4 (10 - (overRatio - 1) * 3),
       "Verbose (" ++ numberToString rt totalTokens ++ " tokens, expected <"
       ++ numberToString rt (exp_max expected) ++ ")")
    else
      let dist := Qabs (totalTokens - exp_ideal expected) / exp_ideal expected in
      (Num.max 7 (10 - dist * 3),
       "Appropriate length (" ++ numberToString rt totalTokens ++ " tokens)") in
  let score := Num.max 0 (Num.min 10 score) in
  {| name := "lengthAppropriateness"; score := score;
     weight := lengthAppropriateness SIGNAL_WEIGHTS; detail := detail |}.

(** Latency vs expected: penalize slow responses. *)
Definition scoreLatencyVsExpected (response : ChatResponse)
  (query : ClassifiedQuery) : QualitySignal :=
  let expectedMs := EXPECTED_LATENCY_BY_COMPLEXITY (cq_complexity query) in
  let actualMs := responseTimeMs response in
  let ms := numberToString rt in
  let '(score, detail) :=
    if Num.leb actualMs 0 then (7, "Latency unknown")
    else if Num.leb actualMs (expectedMs * 0.5) then
      (10, "Very fast (" ++ ms actualMs ++ "ms, expected "
           ++ ms expectedMs ++ "ms)")
    else if Num.leb actualMs expectedMs then
      (9, "Within expected (" ++ ms actualMs ++ "ms / "
          ++ ms expectedMs ++ "ms)")
    else if Num.leb actualMs (expectedMs * 2) then
      (6, "Somewhat slow (" ++ ms actualMs ++ "ms, expected "
          ++ ms expectedMs ++ "ms)")
    else
      (3, "Very slow (" ++ ms actualMs ++ "ms, expected "
          ++ ms expectedMs ++ "ms)") in
  {| name := "latencyVsExpected"; score := score;
     weight := latencyVsExpected SIGNAL_WEIGHTS; detail := detail |}.

(** Token efficiency: output tokens relative to input tokens. *)
Definition scoreTokenEfficiency (response : ChatResponse) : QualitySignal :=
  let input := tok_input (tokens response) in
  let output := tok_output (tokens response) in
  if Qeq_bool input 0 || Qeq_bool output 0 then
    {| name := "tokenEfficiency"; score := 5;
       weight := tokenEfficiency SIGNAL_WEIGHTS;
       detail := "Unknown efficiency" |}
  else
    let ratio := output / input in
    let '(score, detail) :=
      if Num.ltb ratio 0.5 then
        (4, "Low output ratio (" ++ toFixed rt ratio 2 ++ ")")
      else if Num.geb ratio 0.5 && Num.leb ratio 5 then
        (9, "Good output ratio (" ++ toFixed rt ratio 2 ++ ")")
      else if Num.leb ratio 10 then
        (7, "High output ratio (" ++ toFixed rt ratio 2 ++ ")")
      else
        (5, "Very high output ratio (" ++ toFixed rt ratio 2 ++ ")") in
    {| name := "tokenEfficiency"; score := score;
       weight := tokenEfficiency SIGNAL_WEIGHTS; detail := detail |}.

Definition computeConfidence (signals : list QualitySignal) : Q :=
  let scores := List.map score signals in
  let n := inject_Z (Z.of_nat (List.length scores)) in
  let mean := fold_left (fun a b => a + b) scores 0 / n in
  let variance :=
    fold_left (fun sum s => sum + (s - mean) * (s - mean)) scores 0 / n in
  let stddev := Math_sqrt rt variance in
  Num.max 0.2 (Num.min 1.0 (1 - stddev / 5)).

Definition toGrade (score : Q) : Grade :=
  if Num.geb score 8.5 then A
  else if Num.geb score 7.0 then B
  else if Num.geb score 5.0 then C
  else if Num.geb score 3.0 then D
  else F.

Definition toRecommendation (score : Q) (query : ClassifiedQuery)
  : Recommendation :=
  let '(t_accept, t_reject) :=
    match cq_complexity query with
    | simple => (6, 3)
    | medium => (7, 4)
    | complex => (8, 5)
    end in
  if Num.geb score t_accept then accept
  else if Num.geb score t_reject then escalate
  else reject.

(** Score a response against a query. *)
Definition estimate (response : ChatResponse) (query : ClassifiedQuery)
  : QualityReport :=
  let signals := [
    scoreCitationQuality response;
    scoreConfidenceLanguage response;
    scoreStructuralCompleteness response query;
    scoreLengthAppropriateness response query;
    scoreLatencyVsExpected response query;
    scoreTokenEfficiency response
  ] in
  let overallScore :=
    fold_left (fun sum s => sum + score s * weight s) signals 0 in
  let confidence := computeConfidence signals in
  let grade := toGrade overallScore in
  let recommendation := toRecommendation overallScore query in
  {| overallScore := overallScore; signals := signals; grade := grade;
     confidence := confidence; recommendation := recommendation |}.

(** Quick score — just the number. *)
Definition quickScore (response : ChatResponse) (query : ClassifiedQuery) : Q :=
  overallScore (estimate response query).

End WithRuntime.

End QualityEstimator.

(* ------------------------------------------------------------------ *)
(** ** artifacts.ts *)

Module Artifacts.

Inductive ArtifactType : Type :=
| route_decision | cascade_start | cascade_escalation | cascade_success
| cascade_failure | cache_hit | cache_miss | budget_reject
| emergency_mode | error.

Definition ArtifactType_eqb (a b : ArtifactType) : bool :=
  match a, b with
  | route_decision, route_decision | cascade_start, cascade_start
  | cascade_escalation, cascade_escalation
  | cascade_success, cascade_success | cascade_failure, cascade_failure
  | cache_hit, cache_hit | cache_miss, cache_miss
  | budget_reject, budget_reject | emergency_mode, emergency_mode
  | error, error => true
  | _, _ => false
  end.

Inductive TrailAction : Type := accepted | escalated | failed.

Record CascadeTrailEntry : Type := {
  tier : nat;
  trail_provider : string;
  trail_model : string;
  qualityScore : Q;
  trail_qualityThreshold : Q;
  trail_action : TrailAction;
  costEstimate : Q;
  latencyMs : option Q
}.

Record CacheInfo : Type := {
  hit : bool;
  similarity : option Q;
  savedCost : option Q;
  savedLatencyMs : option Q
}.

Record BudgetSnapshot : Type := {
  snap_dailySpent : Q;
  snap_dailyLimit : Q;
  snap_percentUsed : Q;
  snap_emergencyMode : bool
}.

Record ResponseInfo : Type := {
  contentLength : nat;
  info_tokensUsed : Q;
  info_responseTimeMs : Q;
  info_finishReason : option string
}.

Record RoutingArtifact : Type := {
  id : string;
  queryId : string;
  art_timestamp : string;
  epochMs : Z;
  type : ArtifactType;
  complexity_level : QueryComplexity;
  complexity_score : Q;
  selected_provider : string;
  selected_model : string;
  art_estimatedCost : Q;
  actualCost : option Q;
  art_confidence : Q;
  art_reasoning : string;
  cascadeTrail : option (list CascadeTrailEntry);
  qualityReport : option QualityEstimator.QualityReport;
  cache : option CacheInfo;
  budgetSnapshot : option BudgetSnapshot;
  art_response : option ResponseInfo;
  tags : list string
}.

(** An artifact is an object shared between the manager's buffer, the
    listeners of its events and the caller that keeps the returned
    reference; [enrichWithResponse] mutates it in place.  The objects live
    in [heap], in order of creation, and are named by their position. *)
Definition Ref : Type := nat.

Record Manager : Type := {
  heap : list RoutingArtifact;
  artifacts : list Ref;
  maxArtifacts : Z;
  emitted : list Ref
}.

(** [new ArtifactManager(maxArtifacts)]; the default is 5000. *)
Definition new (maxArtifacts : Z) : Manager :=
  {| heap := []; artifacts := []; maxArtifacts := maxArtifacts;
     emitted := [] |}.

Definition deref (m : Manager) (r : Ref) : option RoutingArtifact :=
  nth_error (heap m) r.

(** [push]: allocate the object, put it at the front of the buffer, trim
    the buffer, emit the event and return the object. *)
Definition push (artifact : RoutingArtifact) (m : Manager) : Ref * Manager :=
  let r := List.length (heap m) in
  let unshifted := r :: artifacts m in
  let trimmed :=
    if (maxArtifacts m <? Z.of_nat (List.length unshifted))%Z
    then Js.slice0 (maxArtifacts m) unshifted
    else unshifted in
  (r, {| heap := (heap m ++ [artifact])%list;
         artifacts := trimmed;
         maxArtifacts := maxArtifacts m;
         emitted := (emitted m ++ [r])%list |}).

Definition complexityString (c : QueryComplexity) : string :=
  match c with
  | simple => "simple" | medium => "medium" | complex => "complex"
  end.

Definition intentString (i : QueryIntent) : string :=
  match i with
  | search => "search" | reasoning => "reasoning" | chat => "chat"
  | creative => "creative" | code => "code"
  end.

Definition strategyString (s : RoutingStrategy) : string :=
  match s with
  | priority => "priority" | cost_optimized => "cost-optimized"
  | cascade => "cascade" | emergency => "emergency"
  end.

Fixpoint trailOf (i : nat) (chain : list CascadeStep)
  : list CascadeTrailEntry :=
  match chain with
  | [] => []
  | step :: rest =>
      {| tier := i + 1;
         trail_provider := providerString (step_provider step);
         trail_model := step_model step;
         qualityScore := 0;
         trail_qualityThreshold := qualityThreshold step;
         trail_action := if Nat.eqb i 0 then accepted else escalated;
         costEstimate := maxCost step;
         latencyMs := None |} :: trailOf (S i) rest
  end.

Section WithRuntime.
Variable rt : Runtime.

(** In each [record...] method [uid] is the fresh identifier, [nowIso] the
    clock read by [new Date()] and [now] the one read by [Date.now()]. *)

(** Record a routing decision artifact. *)
Definition recordRouteDecision (uid : string) (nowIso now : Z)
  (queryId : string) (query : ClassifiedQuery) (decision : RoutingDecision)
  (confidence : option Q) (m : Manager) : Ref * Manager :=
  push
    {| id := uid;
       queryId := queryId;
       art_timestamp := toISOString rt nowIso;
       epochMs := now;
       type := route_decision;
       complexity_level := cq_complexity query;
       complexity_score := cq_complexityScore query;
       selected_provider := providerString (rd_provider decision);
       selected_model := rd_model decision;
       art_estimatedCost := estimatedCost (rd_estimatedCost decision);
       actualCost := None;
       art_confidence := match confidence with Some c => c | None => 0.8 end;
       art_reasoning := rd_reason decision;
       cascadeTrail := option_map (trailOf 0) (cascadeChain decision);
       qualityReport := None;
       cache := None;
       budgetSnapshot := None;
       art_response := None;
       tags := [ strategyString (rd_strategy decision);
                 complexityString (cq_complexity query);
                 intentString (cq_intent query);
                 if rd_emergencyMode decision then "emergency" else "normal" ]
    |} m.

(** Record a cascade escalation. *)
Definition recordCascadeStep (uid : string) (nowIso now : Z)
  (queryId : string) (query : ClassifiedQuery)
  (fromProvider : ProviderName) (fromModel : string)
  (to : option (ProviderName * string))
  (qualityScore qualityThreshold cost : Q) (isLast : bool) (m : Manager)
  : Ref * Manager :=
  let met := Num.geb qualityScore qualityThreshold in
  push
    {| id := uid;
       queryId := queryId;
       art_timestamp := toISOString rt nowIso;
       epochMs := now;
       type := match to with
               | Some _ => cascade_escalation
               | None => if met then cascade_success else cascade_failure
               end;
       complexity_level := cq_complexity query;
       complexity_score := cq_complexityScore query;
       selected_provider := providerString fromProvider;
       selected_model := fromModel;
       art_estimatedCost := cost;
       actualCost := None;
       art_confidence := qualityScore / 10;
       art_reasoning :=
         "Quality " ++ toFixed rt qualityScore 1 ++ "/"
         ++ numberToString rt qualityThreshold
         ++ match to with
            | Some (toProvider, toModel) =>
                " → escalating to " ++ providerString toProvider ++ "/"
                ++ toModel
            | None => " → " ++ (if met then "accepted" else "best available")
            end;
       cascadeTrail := None;
       qualityReport := None;
       cache := None;
       budgetSnapshot := None;
       art_response := None;
       tags := [ "cascade"; complexityString (cq_complexity query);
                 if isLast then "final" else "intermediate" ]
    |} m.

(** Record a cache hit artifact. *)
Definition recordCacheHit (uid : string) (nowIso now : Z)
  (queryId : string) (query : ClassifiedQuery)
  (similarity savedCost savedLatencyMs : Q) (provider model : string)
  (m : Manager) : Ref * Manager :=
  push
    {| id := uid;
       queryId := queryId;
       art_timestamp := toISOString rt nowIso;
       epochMs := now;
       type := cache_hit;
       complexity_level := cq_complexity query;
       complexity_score := cq_complexityScore query;
       selected_provider := provider;
       selected_model := model;
       art_estimatedCost := 0;
       actualCost := None;
       art_confidence := similarity;
       art_reasoning :=
         "Cache hit (" ++ toFixed rt (similarity * 100) 1
         ++ "% similarity) — saved $" ++ toFixed rt savedCost 4;
       cascadeTrail := None;
       qualityReport := None;
       cache := Some {| hit := true; similarity := Some similarity;
                        savedCost := Some savedCost;
                        savedLatencyMs := Some savedLatencyMs |};
       budgetSnapshot := None;
       art_response := None;
       tags := ["cache"; "hit"; complexityString (cq_complexity query)]
    |} m.

(** Record a budget rejection.  The division is the one of [Q]; with
    [dailyLimit = 0] JavaScript would produce [Infinity] or [NaN]. *)
Definition recordBudgetReject (uid : string) (nowIso now : Z)
  (queryId : string) (query : ClassifiedQuery)
  (dailySpent dailyLimit estimatedCost : Q) (m : Manager) : Ref * Manager :=
  let percentUsed := (dailySpent / dailyLimit) * 100 in
  push
    {| id := uid;
       queryId := queryId;
       art_timestamp := toISOString rt nowIso;
       epochMs := now;
       type := budget_reject;
       complexity_level := cq_complexity query;
       complexity_score := cq_complexityScore query;
       selected_provider := "none";
       selected_model := "none";
       art_estimatedCost := estimatedCost;
       actualCost := None;
       art_confidence := 1.0;
       art_reasoning :=
         "Budget exceeded: $" ++ toFixed rt dailySpent 4 ++ " / $"
         ++ toFixed rt dailyLimit 2 ++ " (" ++ toFixed rt percentUsed 1
         ++ "%)";
       cascadeTrail := None;
       qualityReport := None;
       cache := None;
       budgetSnapshot :=
         Some {| snap_dailySpent := dailySpent;
                 snap_dailyLimit := dailyLimit;
                 snap_percentUsed := percentUsed;
                 snap_emergencyMode := Num.geb percentUsed 95 |};
       art_response := None;
       tags := [ "budget"; "rejected";
                 if Num.geb percentUsed 95 then "emergency" else "over_limit" ]
    |} m.

End WithRuntime.

Definition enrich (response : ChatResponse)
  (report : option QualityEstimator.QualityReport) (a : RoutingArtifact)
  : RoutingArtifact :=
  {| id := id a;
     queryId := queryId a;
     art_timestamp := art_timestamp a;
     epochMs := epochMs a;
     type := type a;
     complexity_level := complexity_level a;
     complexity_score := complexity_score a;
     selected_provider := selected_provider a;
     selected_model := selected_model a;
     art_estimatedCost := art_estimatedCost a;
     actualCost := Some (resp_cost response);
     art_confidence :=
       match report with
       | Some r => QualityEstimator.confidence r
       | None => art_confidence a
       end;
     art_reasoning := art_reasoning a;
     cascadeTrail := cascadeTrail a;
     qualityReport :=
       match report with Some r => Some r | None => qualityReport a end;
     cache := cache a;
     budgetSnapshot := budgetSnapshot a;
     art_response :=
       Some {| contentLength := String.length (content response);
               info_tokensUsed := tok_total (tokens response);
               info_responseTimeMs := responseTimeMs response;
               info_finishReason := finishReason response |};
     tags := tags a |}.

Fixpoint update_nth {X} (n : nat) (f : X -> X) (xs : list X) : list X :=
  match xs, n with
  | [], _ => []
  | x :: rest, O => f x :: rest
  | x :: rest, S k => x :: update_nth k f rest
  end.

(** Enrich an existing artifact with response data: the first artifact of
    the buffer with that id, if any. *)
Definition enrichWithResponse (artifactId : string) (response : ChatResponse)
  (report : option QualityEstimator.QualityReport) (m : Manager) : Manager :=
  match
    find (fun r => match deref m r with
                   | Some a => String.eqb (id a) artifactId
                   | None => false
                   end) (artifacts m)
  with
  | None => m
  | Some r =>
      {| heap := update_nth r (enrich response report) (heap m);
         artifacts := artifacts m;
         maxArtifacts := maxArtifacts m;
         emitted := emitted m |}
  end.

(** Get recent artifacts (newest first). *)
Definition getRecent (limit : Z) (m : Manager) : list Ref :=
  Js.slice0 limit (artifacts m).

Definition typeOf (m : Manager) (r : Ref) : option ArtifactType :=
  option_map type (deref m r).

(** Get artifacts by type. *)
Definition getByType (t : ArtifactType) (m : Manager) : list Ref :=
  filter (fun r => match typeOf m r with
                   | Some t' => ArtifactType_eqb t' t
                   | None => false
                   end) (artifacts m).

Definition size (m : Manager) : nat := List.length (artifacts m).

End Artifacts.

(* ------------------------------------------------------------------ *)
(** ** analytics/collector.ts *)

Module Analytics.

Inductive EventType : Type :=
| ev_query | ev_cache_hit | ev_cache_miss | ev_budget_alert | ev_error
| ev_cascade.

Record AnalyticsEvent : Type := {
  ev_id : string;
  ev_timestamp : Z;
  eventType : EventType;
  ev_queryText : option string;
  ev_classification : option ClassifiedQuery;
  ev_routing : option RoutingDecision;
  ev_cost : option ActualCost;
  ev_cacheHit : option bool;
  ev_responseTimeMs : option Q;
  ev_errorText : option string
}.

Record Collector : Type := {
  events : list AnalyticsEvent;
  maxEvents : Z;
  retentionMs : Z;
  emitted : list AnalyticsEvent
}.

(** [new AnalyticsCollector()] with the defaults. *)
Definition new : Collector :=
  {| events := []; maxEvents := 10000; retentionMs := 7 * 86400000;
     emitted := [] |}.

Definition push (event : AnalyticsEvent) (c : Collector) : Collector :=
  let unshifted := event :: events c in
  {| events :=
       if (maxEvents c <? Z.of_nat (List.length unshifted))%Z
       then Js.slice0 (maxEvents c) unshifted else unshifted;
     maxEvents := maxEvents c;
     retentionMs := retentionMs c;
     emitted := (emitted c ++ [event])%list |}.

Definition recordQuery (uid : string) (now : Z) (query : string)
  (classification : ClassifiedQuery) (routing : RoutingDecision)
  (cost : ActualCost) (responseTimeMs : Q) (cacheHit : bool) (c : Collector)
  : Collector :=
  push
    {| ev_id := uid; ev_timestamp := now;
       eventType := if cacheHit then ev_cache_hit else ev_query;
       ev_queryText := Some query;
       ev_classification := Some classification;
       ev_routing := Some routing;
       ev_cost := Some cost;
       ev_cacheHit := Some cacheHit;
       ev_responseTimeMs := Some responseTimeMs;
       ev_errorText := None |} c.

Definition recordCacheHit (uid : string) (now nowCost : Z) (query : string)
  (costSaved : Q) (c : Collector) : Collector :=
  push
    {| ev_id := uid; ev_timestamp := now;
       eventType := ev_cache_hit;
       ev_queryText := Some query;
       ev_classification := None;
       ev_routing := None;
       ev_cost := Some {| ac_provider := perplexity; ac_model := "cache";
                          inputTokens := 0; outputTokens := 0;
                          totalCost := 0; timestamp := nowCost |};
       ev_cacheHit := Some true;
       ev_responseTimeMs := Some 0;
       ev_errorText := None |} c.

Definition recordCacheMiss (uid : string) (now : Z) (query : string)
  (c : Collector) : Collector :=
  push
    {| ev_id := uid; ev_timestamp := now;
       eventType := ev_cache_miss;
       ev_queryText := Some query;
       ev_classification := None;
       ev_routing := None;
       ev_cost := None;
       ev_cacheHit := Some false;
       ev_responseTimeMs := None;
       ev_errorText := None |} c.

End Analytics.

(* ------------------------------------------------------------------ *)
(** ** providers/base.ts *)

Module BaseProvider.

Inductive HealthStatus : Type := healthy | degraded | unhealthy.

Record ProviderHealth : Type := {
  status : HealthStatus;
  latencyMs : Q;
  lastChecked : Z;
  errorRate : Q;
  totalRequests : Z;
  totalErrors : Z
}.

(** What [_chat] of a subclass throws: an [Error] with a message, or a
    [ProviderError] it has built itself. *)
Inductive Failure : Type :=
| PlainError (message : string)
| OwnProviderError (provider message : string).

Definition thrown (f : Failure) : Exn :=
  match f with
  | PlainError message => Error message
  | OwnProviderError provider message => ProviderError provider message
  end.

(** The events of the emitter, with the value handed to the listeners. *)
Inductive Event : Type :=
| ev_response (response : ChatResponse)
| ev_error (error : Exn)
| ev_healthChange (health : ProviderHealth).

(** What the surroundings answer: the n-th reading of [Date.now()], of
    [performance.now()] and of [Math.random()], the n-th value of
    [uid()], the outcome of the n-th call of [_chat], and the [message]
    of a thrown value that is neither an [Error] built with a message
    nor a [ProviderError]. *)
Record Env : Type := {
  dateAt : nat -> Z;
  perfAt : nat -> Q;
  randomAt : nat -> Q;
  uuidAt : nat -> string;
  rawAt : nat -> ChatRequest -> string -> ChatResponse + Failure;
  otherMessage : Exn -> string
}.

(** The provider object and what it has done so far: the events it
    emitted, the calls of [_chat] it made, the delays it slept. *)
Record Provider : Type := {
  name : ProviderName;
  health : ProviderHealth;
  emitted : list Event;
  rawCalls : list (ChatRequest * string);
  slept : list Q;
  dateReads : nat;
  perfReads : nat;
  randomReads : nat;
  uidReads : nat
}.

Definition M : Type -> Type := Monad.M Provider.

(** [new Provider(name)]; [now] is the reading of [Date.now()] in the
    field initialiser. *)
Definition new (name : ProviderName) (now : Z) : Provider :=
  {| name := name;
     health := {| status := healthy; latencyMs := 0; lastChecked := now;
                  errorRate := 0; totalRequests := 0; totalErrors := 0 |};
     emitted := []; rawCalls := []; slept := [];
     dateReads := 0; perfReads := 0; randomReads := 0; uidReads := 0 |}.

Definition set_health (h : ProviderHealth) (p : Provider) : Provider :=
  {| name := name p; health := h; emitted := emitted p;
     rawCalls := rawCalls p; slept := slept p;
     dateReads := dateReads p; perfReads := perfReads p;
     randomReads := randomReads p; uidReads := uidReads p |}.

Section WithEnv.
Variable env : Env.

Local Open Scope monad_scope.

Definition dateNow : M Z :=
  fun p =>
    (Ok (dateAt env (dateReads p)),
     {| name := name p; health := health p; emitted := emitted p;
        rawCalls := rawCalls p; slept := slept p;
        dateReads := S (dateReads p); perfReads := perfReads p;
        randomReads := randomReads p; uidReads := uidReads p |}).

Definition perfNow : M Q :=
  fun p =>
    (Ok (perfAt env (perfReads p)),
     {| name := name p; health := health p; emitted := emitted p;
        rawCalls := rawCalls p; slept := slept p;
        dateReads := dateReads p; perfReads := S (perfReads p);
        randomReads := randomReads p; uidReads := uidReads p |}).

Definition random : M Q :=
  fun p =>
    (Ok (randomAt env (randomReads p)),
     {| name := name p; health := health p; emitted := emitted p;
        rawCalls := rawCalls p; slept := slept p;
        dateReads := dateReads p; perfReads := perfReads p;
        randomReads := S (randomReads p); uidReads := uidReads p |}).

Definition uid : M string :=
  fun p =>
    (Ok (uuidAt env (uidReads p)),
     {| name := name p; health := health p; emitted := emitted p;
        rawCalls := rawCalls p; slept := slept p;
        dateReads := dateReads p; perfReads := perfReads p;
        randomReads := randomReads p; uidReads := S (uidReads p) |}).

(** [sleep(ms)]. *)
Definition sleep (ms : Q) : M unit :=
  Monad.modify (fun p =>
    {| name := name p; health := health p; emitted := emitted p;
       rawCalls := rawCalls p; slept := (slept p ++ [ms])%list;
       dateReads := dateReads p; perfReads := perfReads p;
       randomReads := randomReads p; uidReads := uidReads p |}).

(** [this.emit(event, value)]. *)
Definition emit (e : Event) : M unit :=
  Monad.modify (fun p =>
    {| name := name p; health := health p;
       emitted := (emitted p ++ [e])%list;
       rawCalls := rawCalls p; slept := slept p;
       dateReads := dateReads p; perfReads := perfReads p;
       randomReads := randomReads p; uidReads := uidReads p |}).

(** [this._chat(req, model, opts)], the call implemented by the
    subclass. *)
Definition rawChat (req : ChatRequest) (model : string) : M ChatResponse :=
  fun p =>
    (match rawAt env (List.length (rawCalls p)) req model with
     | inl response => Ok response
     | inr failure => Throw (thrown failure)
     end,
     {| name := name p; health := health p; emitted := emitted p;
        rawCalls := (rawCalls p ++ [(req, model)])%list; slept := slept p;
        dateReads := dateReads p; perfReads := perfReads p;
        randomReads := randomReads p; uidReads := uidReads p |}).

(** [backoffMs(attempt)], with the default base and cap. *)
Definition backoff (attempt : nat) : M Q :=
  r <- random ;;
  Monad.ret (Helpers.backoffMs r attempt 500 30000).

(** The loop of [withRetry] from [attempt] on, with [remaining] retries
    left: [attempt + remaining] is [maxRetries]. *)
Fixpoint attempts {T} (fn : M T) (attempt remaining : nat) : M T :=
  fun p =>
    match fn p with
    | (Ok x, p') => (Ok x, p')
    | (Throw err, p') =>
        match remaining with
        | O => (Throw err, p')
        | S remaining' =>
            (delay <- backoff attempt ;;
             sleep delay ;;;
             attempts fn (S attempt) remaining') p'
        end
    end.

Definition withRetry {T} (fn : M T) (maxRetries : nat) : M T :=
  attempts fn 0 maxRetries.

(** [Object.assign(this.health, partial, { lastChecked: Date.now() })]
    and the [healthChange] event. *)
Definition updateHealth (partial : ProviderHealth -> ProviderHealth)
  : M unit :=
  now <- dateNow ;;
  p <- Monad.get ;;
  let h := partial (health p) in
  let h' := {| status := status h; latencyMs := latencyMs h;
               lastChecked := now; errorRate := errorRate h;
               totalRequests := totalRequests h;
               totalErrors := totalErrors h |} in
  Monad.modify (set_health h') ;;;
  emit (ev_healthChange h').

Definition getHealth (p : Provider) : ProviderHealth := health p.

(** [err instanceof ProviderError ? err : new ProviderError(this.name,
    err.message, { model })]. *)
Definition wrap (name : ProviderName) (err : Exn) : Exn :=
  match err with
  | ProviderError _ _ => err
  | Error message => ProviderError (providerString name) message
  | _ => ProviderError (providerString name) (otherMessage env err)
  end.

(** Send a chat completion request: the wrapper that adds timing,
    retries and health tracking. *)
Definition chat (req : ChatRequest) (model : string) : M ChatResponse :=
  requestId <- match req_id req with
               | Some id => Monad.ret id
               | None => uid
               end ;;
  start <- perfNow ;;
  Monad.modify (fun p =>
    let h := health p in
    set_health
      {| status := status h; latencyMs := latencyMs h;
         lastChecked := lastChecked h; errorRate := errorRate h;
         totalRequests := (totalRequests h + 1)%Z;
         totalErrors := totalErrors h |} p) ;;;
  Monad.try_catch
    (response <- withRetry (rawChat req model) 2 ;;
     t <- perfNow ;;
     let ms := inject_Z (Num.round (t - start)) in
     updateHealth (fun h =>
       {| status := healthy; latencyMs := ms;
          lastChecked := lastChecked h; errorRate := errorRate h;
          totalRequests := totalRequests h;
          totalErrors := totalErrors h |}) ;;;
     emit (ev_response response) ;;;
     Monad.ret
       {| resp_id := requestId;
          content := content response;
          resp_provider := resp_provider response;
          resp_model := resp_model response;
          tokens := tokens response;
          resp_cost := resp_cost response;
          responseTimeMs := ms;
          resp_citations := resp_citations response;
          cacheHit := false;
          finishReason := finishReason response |})
    (fun err =>
       Monad.modify (fun p =>
         let h := health p in
         set_health
           {| status := status h; latencyMs := latencyMs h;
              lastChecked := lastChecked h; errorRate := errorRate h;
              totalRequests := totalRequests h;
              totalErrors := (totalErrors h + 1)%Z |} p) ;;;
       p <- Monad.get ;;
       let errRate :=
         inject_Z (totalErrors (health p))
         / inject_Z (totalRequests (health p)) in
       updateHealth (fun h =>
         {| status := if Num.gtb errRate 0.3 then unhealthy else degraded;
            latencyMs := latencyMs h;
            lastChecked := lastChecked h; errorRate := errRate;
            totalRequests := totalRequests h;
            totalErrors := totalErrors h |}) ;;;
       p' <- Monad.get ;;
       let wrapped := wrap (name p') err in
       emit (ev_error wrapped) ;;;
       Monad.throw wrapped).

End WithEnv.

End BaseProvider.

(* ------------------------------------------------------------------ *)
(** ** The process: module singletons, the agent manager and its
       surroundings *)

Module Process.

(** The fields of the [AgentManager] instance; a registered provider is
    known by its name, its behaviour is given by the environment. *)
Record AgentManagerFields : Type := {
  providers : list ProviderName;
  cache : option SemanticCache.Cache;
  queryCount : Z;
  totalQualityScore : Q;
  qualityCount : Z
}.

(** What the surroundings answer: the n-th reading of [Date.now()] and of
    [performance.now()], the n-th value of [uid()], the outcome of the
    n-th provider call (the response, or the message of the error that is
    left after the retries), and the classifier. *)
Record Env : Type := {
  dateAt : nat -> Z;
  perfAt : nat -> Q;
  uuidAt : nat -> string;
  chatAt : nat -> ProviderName -> ChatRequest -> string
           -> ChatResponse + string;
  classifyQuery : string -> ClassifiedQuery
}.

Record World : Type := {
  (** [_tracker], [_collector] and [_manager]: [None] is [null]. *)
  tracker : option BudgetTracker.Tracker;
  collector : option Analytics.Collector;
  artifactManager : option Artifacts.Manager;
  (** [this] of the agent manager. *)
  agent : AgentManagerFields;
  (** How often the clocks and [uid] were read, and the provider calls
      made so far. *)
  dateReads : nat;
  perfReads : nat;
  uidReads : nat;
  providerCalls : list (ProviderName * string * ChatRequest)
}.

Definition set_tracker (t : BudgetTracker.Tracker) (w : World) : World :=
  {| tracker := Some t; collector := collector w;
     artifactManager := artifactManager w; agent := agent w;
     dateReads := dateReads w; perfReads := perfReads w;
     uidReads := uidReads w; providerCalls := providerCalls w |}.

Definition set_collector (c : Analytics.Collector) (w : World) : World :=
  {| tracker := tracker w; collector := Some c;
     artifactManager := artifactManager w; agent := agent w;
     dateReads := dateReads w; perfReads := perfReads w;
     uidReads := uidReads w; providerCalls := providerCalls w |}.

Definition set_artifactManager (m : Artifacts.Manager) (w : World) : World :=
  {| tracker := tracker w; collector := collector w;
     artifactManager := Some m; agent := agent w;
     dateReads := dateReads w; perfReads := perfReads w;
     uidReads := uidReads w; providerCalls := providerCalls w |}.

Definition set_agent (a : AgentManagerFields) (w : World) : World :=
  {| tracker := tracker w; collector := collector w;
     artifactManager := artifactManager w; agent := a;
     dateReads := dateReads w; perfReads := perfReads w;
     uidReads := uidReads w; providerCalls := providerCalls w |}.

Definition M : Type -> Type := Monad.M World.

Section WithEnv.
Variable env : Env.

Local Open Scope monad_scope.

(** [Date.now()]. *)
Definition dateNow : M Z :=
  fun w =>
    (Ok (dateAt env (dateReads w)),
     {| tracker := tracker w; collector := collector w;
        artifactManager := artifactManager w; agent := agent w;
        dateReads := S (dateReads w); perfReads := perfReads w;
        uidReads := uidReads w; providerCalls := providerCalls w |}).

(** [performance.now()]. *)
Definition perfNow : M Q :=
  fun w =>
    (Ok (perfAt env (perfReads w)),
     {| tracker := tracker w; collector := collector w;
        artifactManager := artifactManager w; agent := agent w;
        dateReads := dateReads w; perfReads := S (perfReads w);
        uidReads := uidReads w; providerCalls := providerCalls w |}).

(** [uid()]. *)
Definition uid : M string :=
  fun w =>
    (Ok (uuidAt env (uidReads w)),
     {| tracker := tracker w; collector := collector w;
        artifactManager := artifactManager w; agent := agent w;
        dateReads := dateReads w; perfReads := perfReads w;
        uidReads := S (uidReads w); providerCalls := providerCalls w |}).

(** [provider.chat(request, model)] on a registered provider: as in
    [BaseProvider.chat], what is thrown is a [ProviderError] that names
    the provider. *)
Definition chat (provider : ProviderName) (request : ChatRequest)
  (model : string) : M ChatResponse :=
  fun w =>
    (match chatAt env (List.length (providerCalls w)) provider request model
     with
     | inl response => Ok response
     | inr message => Throw (ProviderError (providerString provider) message)
     end,
     {| tracker := tracker w; collector := collector w;
        artifactManager := artifactManager w; agent := agent w;
        dateReads := dateReads w; perfReads := perfReads w;
        uidReads := uidReads w;
        providerCalls :=
          (providerCalls w ++ [(provider, model, request)])%list |}).

(** [startTimer()] reads the clock once; the returned [elapsed()] reads
    it again and rounds the difference. *)
Definition startTimer : M Q := perfNow.

Definition elapsed (start : Q) : M Q :=
  t <- perfNow ;;
  Monad.ret (inject_Z (Num.round (t - start))).

(** [getBudgetTracker()], [getAnalytics()] and [getArtifactManager()]:
    the singleton, created on first use. *)
Definition getBudgetTracker : M BudgetTracker.Tracker :=
  fun w =>
    match tracker w with
    | Some t => (Ok t, w)
    | None =>
        let t := BudgetTracker.new BudgetTracker.noOverrides in
        (Ok t, set_tracker t w)
    end.

Definition getAnalytics : M Analytics.Collector :=
  fun w =>
    match collector w with
    | Some c => (Ok c, w)
    | None => (Ok Analytics.new, set_collector Analytics.new w)
    end.

Definition getArtifactManager : M Artifacts.Manager :=
  fun w =>
    match artifactManager w with
    | Some m => (Ok m, w)
    | None => (Ok (Artifacts.new 5000), set_artifactManager (Artifacts.new 5000) w)
    end.

(** A method call on a singleton: run [f] on the object and keep the
    object it leaves. *)
Definition onTracker {X} (f : BudgetTracker.Tracker -> X * BudgetTracker.Tracker)
  : M X :=
  t <- getBudgetTracker ;;
  let '(x, t') := f t in
  Monad.modify (set_tracker t') ;;;
  Monad.ret x.

Definition onAnalytics (f : Analytics.Collector -> Analytics.Collector)
  : M unit :=
  c <- getAnalytics ;;
  Monad.modify (set_collector (f c)).

Definition onArtifacts {X} (f : Artifacts.Manager -> X * Artifacts.Manager)
  : M X :=
  m <- getArtifactManager ;;
  let '(x, m') := f m in
  Monad.modify (set_artifactManager m') ;;;
  Monad.ret x.

End WithEnv.

End Process.

(* ------------------------------------------------------------------ *)
(** ** perplexity-provider.ts *)

Module PerplexityProvider.

Definition selectPerplexityModel (isRealtime needsReasoning needsDeepSearch : bool)
  : string :=
  if needsReasoning then "sonar-reasoning-pro"
  else if needsDeepSearch then "sonar-pro"
  else "sonar".

End PerplexityProvider.

(* ------------------------------------------------------------------ *)
(** ** smart-router.ts: the cascade executor *)

Module Cascade.

Record CascadeResult (T : Type) : Type := {
  response : T;
  provider : ProviderName;
  model : string;
  step : nat;
  totalSteps : nat;
  totalCost : Q
}.

(** The argument of [onStep]. *)
Record StepInfo : Type := {
  info_provider : ProviderName;
  info_model : string;
  quality : Q;
  index : nat
}.

(** The message of the error thrown when nothing was kept. *)
Definition AllCascadeStepsFailed : Exn :=
  Error "[DeepEyeClaw] All cascade steps failed".

Section Executor.
Variables W T : Type.

Local Open Scope monad_scope.

Variable run : ProviderName -> string -> Monad.M W T.
Variable evaluate : T -> Monad.M W Q.
Variable onStep : option (StepInfo -> Monad.M W unit).

(** The local variables of [executeCascade]. *)
Record Best : Type := {
  bestResponse : option T;
  bestQuality : Q;
  bestProvider : ProviderName;
  bestModel : string;
  bestStep : nat
}.

(** The calls of the [try] block, up to the last one that can throw. *)
Definition attempt (i : nat) (step : CascadeStep) : Monad.M W (T * Q) :=
  response <- run (step_provider step) (step_model step) ;;
  quality <- evaluate response ;;
  match onStep with
  | Some f => f {| info_provider := step_provider step;
                   info_model := step_model step;
                   quality := quality; index := i |}
  | None => Monad.ret tt
  end ;;;
  Monad.ret (response, quality).

Definition keepBest (i : nat) (step : CascadeStep) (response : T)
  (quality : Q) (b : Best) : Best :=
  if Num.gtb quality (bestQuality b) then
    {| bestResponse := Some response;
       bestQuality := quality;
       bestProvider := step_provider step;
       bestModel := step_model step;
       bestStep := i |}
  else b.

(** The [for] loop from index [i] on, over the steps not yet tried, and
    the statements after it. *)
Fixpoint loop (total : nat) (i : nat) (steps : list CascadeStep) (b : Best)
  : Monad.M W (CascadeResult T) :=
  match steps with
  | [] =>
      match bestResponse b with
      | None => Monad.throw AllCascadeStepsFailed
      | Some response =>
          Monad.ret {| response := response;
                       provider := bestProvider b;
                       model := bestModel b;
                       step := bestStep b;
                       totalSteps := total;
                       totalCost := 0 |}
      end
  | step :: rest =>
      fun w =>
        match attempt i step w with
        | (Ok (response, quality), w') =>
            let b' := keepBest i step response quality b in
            if Num.geb quality (qualityThreshold step) then
              (Ok {| response := response;
                     provider := step_provider step;
                     model := step_model step;
                     step := i;
                     totalSteps := total;
                     totalCost := 0 |}, w')
            else loop total (S i) rest b' w'
        | (Throw _, w') =>
            (* console.warn; continue to next step on failure. *)
            loop total (S i) rest b w'
        end
  end.

(** Execute a cascade chain: try each model in order. *)
Definition executeCascade (chain : list CascadeStep)
  : Monad.M W (CascadeResult T) :=
  match chain with
  | [] => Monad.throw TypeError  (* params.chain[0].provider *)
  | first :: _ =>
      loop (List.length chain) 0 chain
        {| bestResponse := None;
           bestQuality := 0;
           bestProvider := step_provider first;
           bestModel := step_model first;
           bestStep := 0 |}
  end.

(** What each step does when all of them are tried in turn: [Some] of
    the response and its score, or [None] when the step threw. *)
Fixpoint outcomes (i : nat) (steps : list CascadeStep) (w : W)
  : list (option (T * Q)) :=
  match steps with
  | [] => []
  | step :: rest =>
      match attempt i step w with
      | (Ok rq, w') => Some rq :: outcomes (S i) rest w'
      | (Throw _, w') => None :: outcomes (S i) rest w'
      end
  end.

End Executor.

End Cascade.

(* ------------------------------------------------------------------ *)
(** ** smart-router.ts: the router *)

Module SmartRouter.

Definition SIMPLE_CASCADE : list CascadeStep := [
  {| step_provider := perplexity; step_model := "sonar";
     qualityThreshold := 7; maxCost := 0.01 |};
  {| step_provider := openai; step_model := "gpt-4o-mini";
     qualityThreshold := 8; maxCost := 0.05 |}
].

Definition MEDIUM_CASCADE : list CascadeStep := [
  {| step_provider := perplexity; step_model := "sonar-pro";
     qualityThreshold := 7.5; maxCost := 0.02 |};
  {| step_provider := openai; step_model := "gpt-4o-mini";
     qualityThreshold := 8.5; maxCost := 0.08 |};
  {| step_provider := openai; step_model := "gpt-4o";
     qualityThreshold := 9; maxCost := 0.15 |}
].

Definition COMPLEX_CASCADE : list CascadeStep := [
  {| step_provider := perplexity; step_model := "sonar-reasoning-pro";
     qualityThreshold := 8; maxCost := 0.05 |};
  {| step_provider := openai; step_model := "gpt-4o";
     qualityThreshold := 9; maxCost := 0.15 |};
  {| step_provider := anthropic; step_model := "claude-sonnet-4-5";
     qualityThreshold := 9.5; maxCost := 0.3 |}
].

Definition getCascadeChain (query : ClassifiedQuery) : list CascadeStep :=
  if cq_isRealtime query then
    {| step_provider := perplexity;
       step_model :=
         PerplexityProvider.selectPerplexityModel true
           (QueryIntent_eqb (cq_intent query) reasoning)
           (negb (QueryComplexity_eqb (cq_complexity query) simple));
       qualityThreshold := 7; maxCost := 0.02 |}
    :: tl MEDIUM_CASCADE
  else
    match cq_complexity query with
    | simple => SIMPLE_CASCADE
    | medium => MEDIUM_CASCADE
    | complex => COMPLEX_CASCADE
    end.

Record Selection : Type := {
  sel_provider : ProviderName;
  sel_model : string;
  sel_reason : string
}.

Definition routePriority (query : ClassifiedQuery) : Selection :=
  if cq_isRealtime query || QueryIntent_eqb (cq_intent query) search then
    let model :=
      PerplexityProvider.selectPerplexityModel (cq_isRealtime query)
        (QueryIntent_eqb (cq_intent query) reasoning)
        (negb (QueryComplexity_eqb (cq_complexity query) simple)) in
    {| sel_provider := perplexity; sel_model := model;
       sel_reason := "Real-time/search → Perplexity " ++ model |}
  else if QueryIntent_eqb (cq_intent query) reasoning then
    if QueryComplexity_eqb (cq_complexity query) complex then
      {| sel_provider := anthropic; sel_model := "claude-sonnet-4-5";
         sel_reason := "Complex reasoning → Claude Sonnet 4.5" |}
    else
      {| sel_provider := perplexity; sel_model := "sonar-reasoning-pro";
         sel_reason := "Reasoning → Perplexity Sonar Reasoning Pro" |}
  else if QueryIntent_eqb (cq_intent query) code then
    if QueryComplexity_eqb (cq_complexity query) complex then
      {| sel_provider := anthropic; sel_model := "claude-sonnet-4-5";
         sel_reason := "Complex code → Claude Sonnet 4.5" |}
    else
      {| sel_provider := openai; sel_model := "gpt-4o";
         sel_reason := "Code → GPT-4o" |}
  else if QueryComplexity_eqb (cq_complexity query) simple then
    {| sel_provider := openai; sel_model := "gpt-4o-mini";
       sel_reason := "Simple query → GPT-4o-mini" |}
  else if QueryComplexity_eqb (cq_complexity query) medium then
    {| sel_provider := openai; sel_model := "gpt-4o-mini";
       sel_reason := "Medium query → GPT-4o-mini" |}
  else
    {| sel_provider := anthropic; sel_model := "claude-sonnet-4-5";
       sel_reason := "Complex query → Claude Sonnet 4.5" |}.

Definition determineStrategy (configured : option RoutingStrategy)
  (isEmergency : bool) : RoutingStrategy :=
  if isEmergency then emergency
  else match configured with Some s => s | None => cascade end.

Section WithRuntime.
Variable rt : Runtime.
Variable env : Process.Env.

Local Open Scope monad_scope.

Definition routeCostOptimized (query : ClassifiedQuery) : Selection :=
  let estimatedOutput :=
    CostCalculator.estimateOutputTokens (cq_complexity query)
      (cq_estimatedTokens query) in
  let ranked :=
    CostCalculator.listModelsByCost (cq_complexity query)
      (cq_estimatedTokens query) estimatedOutput in
  let pick (label : string) (best : ModelCostProfile * Q) :=
    {| sel_provider := mp_provider (fst best);
       sel_model := mp_model (fst best);
       sel_reason :=
         label ++ providerString (mp_provider (fst best)) ++ "/"
         ++ mp_model (fst best) ++ " ($" ++ toFixed rt (snd best) 4 ++ ")" |} in
  let searchCandidates :=
    if cq_isRealtime query || QueryIntent_eqb (cq_intent query) search
    then filter (fun r => Js.includes ModelCapability_eqb web_search
                            (capabilities (fst r))) ranked
    else [] in
  match searchCandidates with
  | best :: _ => pick "Cost-optimized search → " best
  | [] =>
      match ranked with
      | best :: _ => pick "Cost-optimized → " best
      | [] =>
          {| sel_provider := openai; sel_model := "gpt-4o-mini";
             sel_reason := "Cost-optimized fallback → GPT-4o-mini" |}
      end
  end.

Definition routeEmergency (query : ClassifiedQuery) : Process.M Selection :=
  let estimatedOutput :=
    CostCalculator.estimateOutputTokens (cq_complexity query)
      (cq_estimatedTokens query) in
  budget <- Process.getBudgetTracker ;;
  now <- Process.dateNow env ;;
  let remaining := BudgetTracker.dailyRemaining rt now budget in
  match
    CostCalculator.cheapestModelWithinBudget (cq_complexity query)
      (cq_estimatedTokens query) estimatedOutput remaining
  with
  | Some cheapest =>
      Monad.ret
        {| sel_provider := mp_provider cheapest;
           sel_model := mp_model cheapest;
           sel_reason :=
             "🚨 Emergency mode → " ++ providerString (mp_provider cheapest)
             ++ "/" ++ mp_model cheapest ++ " (budget: $"
             ++ toFixed rt remaining 4 ++ " remaining)" |}
  | None =>
      Monad.ret
        {| sel_provider := openai; sel_model := "gpt-4o-mini";
           sel_reason :=
             "🚨 Emergency mode → forced GPT-4o-mini (budget nearly exhausted)" |}
  end.

(** The main routing entry point. *)
Definition routeQuery (query : ClassifiedQuery)
  (configured : option RoutingStrategy) : Process.M RoutingDecision :=
  budget <- Process.getBudgetTracker ;;
  let strategy :=
    determineStrategy configured (BudgetTracker.isEmergencyMode budget) in
  sc <- match strategy with
        | emergency =>
            selection <- routeEmergency query ;;
            Monad.ret (selection, None)
        | cost_optimized => Monad.ret (routeCostOptimized query, None)
        | cascade =>
            let cascadeChain := getCascadeChain query in
            match cascadeChain with
            | [] => Monad.throw TypeError
            | first :: _ =>
                Monad.ret
                  ({| sel_provider := step_provider first;
                      sel_model := step_model first;
                      sel_reason :=
                        "Cascade start → "
                        ++ providerString (step_provider first) ++ "/"
                        ++ step_model first ++ " ("
                        ++ numberToString rt
                             (inject_Z (Z.of_nat (List.length cascadeChain)))
                        ++ " steps)" |},
                   Some cascadeChain)
            end
        | priority => Monad.ret (routePriority query, None)
        end ;;
  let '(selection, cascadeChain) := sc in
  selection <-
    (if BudgetTracker.isProviderDisabled (sel_provider selection) budget
     then routeEmergency query
     else Monad.ret selection) ;;
  let estimatedOutput :=
    CostCalculator.estimateOutputTokens (cq_complexity query)
      (cq_estimatedTokens query) in
  let estimatedCost :=
    CostCalculator.estimateCost (sel_provider selection) (sel_model selection)
      (cq_estimatedTokens query) estimatedOutput in
  Monad.ret
    {| rd_provider := sel_provider selection;
       rd_model := sel_model selection;
       rd_strategy := strategy;
       rd_reason := sel_reason selection;
       rd_estimatedCost := estimatedCost;
       cascadeChain := cascadeChain;
       rd_emergencyMode := BudgetTracker.isEmergencyMode budget |}.

End WithRuntime.

End SmartRouter.

(* ------------------------------------------------------------------ *)
(** ** agent-manager.ts *)

Module AgentManager.

Record Opts : Type := {
  o_systemPrompt : option string;
  o_maxTokens : option Q;
  o_temperature : option Q
}.

Record AgentResponse : Type := {
  ar_response : ChatResponse;
  classification : ClassifiedQuery;
  routing : RoutingDecision;
  ar_artifacts : list Artifacts.Ref;
  ar_cacheHit : bool;
  totalTimeMs : Q
}.

(** The state seen by one call of [processQuery]: the process, and the
    local array [generatedArtifacts] that its closures push to. *)
Definition PState : Type := (Process.World * list Artifacts.Ref)%type.

Definition PM : Type -> Type := Monad.M PState.

Definition lift {X} (m : Process.M X) : PM X :=
  fun s => let '(r, w') := m (fst s) in (r, (w', snd s)).

(** [generatedArtifacts.push(artifact)]. *)
Definition generated (r : Artifacts.Ref) : PM unit :=
  fun s => (Ok tt, (fst s, (snd s ++ [r])%list)).

Definition generatedArtifacts : PM (list Artifacts.Ref) :=
  fun s => (Ok (snd s), s).

Definition set_cache (c : SemanticCache.Cache) (a : Process.AgentManagerFields)
  : Process.AgentManagerFields :=
  {| Process.providers := Process.providers a;
     Process.cache := Some c;
     Process.queryCount := Process.queryCount a;
     Process.totalQualityScore := Process.totalQualityScore a;
     Process.qualityCount := Process.qualityCount a |}.

Definition incrementQueryCount (a : Process.AgentManagerFields)
  : Process.AgentManagerFields :=
  {| Process.providers := Process.providers a;
     Process.cache := Process.cache a;
     Process.queryCount := (Process.queryCount a + 1)%Z;
     Process.totalQualityScore := Process.totalQualityScore a;
     Process.qualityCount := Process.qualityCount a |}.

Definition addQuality (overallScore : Q) (a : Process.AgentManagerFields)
  : Process.AgentManagerFields :=
  {| Process.providers := Process.providers a;
     Process.cache := Process.cache a;
     Process.queryCount := Process.queryCount a;
     Process.totalQualityScore := Process.totalQualityScore a + overallScore;
     Process.qualityCount := (Process.qualityCount a + 1)%Z |}.

(** Register a provider. *)
Definition registerProvider (name : ProviderName)
  (a : Process.AgentManagerFields) : Process.AgentManagerFields :=
  {| Process.providers :=
       if Js.includes ProviderName_eqb name (Process.providers a)
       then Process.providers a
       else (Process.providers a ++ [name])%list;
     Process.cache := Process.cache a;
     Process.queryCount := Process.queryCount a;
     Process.totalQualityScore := Process.totalQualityScore a;
     Process.qualityCount := Process.qualityCount a |}.

Section WithRuntime.
Variable rt : Runtime.
Variable env : Process.Env.

Local Open Scope monad_scope.

Definition onAgent (f : Process.AgentManagerFields -> Process.AgentManagerFields)
  : Process.M unit :=
  Monad.modify (fun w => Process.set_agent (f (Process.agent w)) w).

(** [this.getProvider(name)]. *)
Definition getProvider (name : ProviderName) : Process.M ProviderName :=
  w <- Monad.get ;;
  if Js.includes ProviderName_eqb name (Process.providers (Process.agent w))
  then Monad.ret name
  else Monad.throw (Error ("Provider not registered: " ++ providerString name)).

(** [this.cache?.lookup(content) ?? null]; the two clock readings of
    [lookup] are taken up front. *)
Definition cacheLookup (content : string)
  : Process.M (option (CacheEntry * Q)) :=
  w <- Monad.get ;;
  match Process.cache (Process.agent w) with
  | None => Monad.ret None
  | Some c =>
      now1 <- Process.dateNow env ;;
      now2 <- Process.dateNow env ;;
      let '(r, c') := SemanticCache.lookup rt content now1 now2 c in
      onAgent (set_cache c') ;;;
      Monad.ret r
  end.

(** [this.cache?.store(content, response).catch(...)]. *)
Definition cacheStore (content : string) (response : ChatResponse)
  : Process.M unit :=
  w <- Monad.get ;;
  match Process.cache (Process.agent w) with
  | None => Monad.ret tt
  | Some c =>
      nowCreated <- Process.dateNow env ;;
      nowExpires <- Process.dateNow env ;;
      onAgent
        (set_cache
           (SemanticCache.store rt content response None nowCreated
              nowExpires c))
  end.

(** A [record...] method of the artifact manager: [uid()], [new Date()]
    and [Date.now()] are read for the artifact literal. *)
Definition recordArtifact
  (f : string -> Z -> Z -> Artifacts.Manager
       -> Artifacts.Ref * Artifacts.Manager) : Process.M Artifacts.Ref :=
  m <- Process.getArtifactManager ;;
  id <- Process.uid env ;;
  nowIso <- Process.dateNow env ;;
  now <- Process.dateNow env ;;
  Process.onArtifacts (f id nowIso now).

Definition mkRequest (queryId content : string) (opts : Opts) : ChatRequest :=
  {| req_id := Some queryId;
     req_content := content;
     systemPrompt := o_systemPrompt opts;
     maxTokens := o_maxTokens opts;
     temperature := o_temperature opts |}.

(** The [run], [evaluate] and [onStep] closures handed to
    [executeCascade]. *)
Definition cascadeRun (queryId content : string) (opts : Opts)
  (provider : ProviderName) (model : string) : PM ChatResponse :=
  lift (p <- getProvider provider ;;
        Process.chat env p (mkRequest queryId content opts) model).

Definition cascadeEvaluate (classification : ClassifiedQuery)
  (resp : ChatResponse) : PM Q :=
  let report := QualityEstimator.estimate rt resp classification in
  lift (onAgent (addQuality (QualityEstimator.overallScore report))) ;;;
  Monad.ret (QualityEstimator.overallScore report).

Definition cascadeOnStep (queryId : string) (classification : ClassifiedQuery)
  (chain : list CascadeStep) (step : Cascade.StepInfo) : PM unit :=
  let nextStep := nth_error chain (Cascade.index step + 1) in
  match nth_error chain (Cascade.index step) with
  | None => Monad.throw TypeError
  | Some current =>
      stepArtifact <-
        lift (recordArtifact (fun id nowIso now =>
          Artifacts.recordCascadeStep rt id nowIso now queryId classification
            (Cascade.info_provider step) (Cascade.info_model step)
            (option_map (fun n => (step_provider n, step_model n)) nextStep)
            (Cascade.quality step) (qualityThreshold current) 0
            (match nextStep with Some _ => false | None => true end))) ;;
      generated stepArtifact
  end.

(** [processQuery] is one function in the source; its numbered sections
    are the definitions below, composed in [processQuery]. *)

(** The local constants on entry and the result of section 1. *)
Record Pre : Type := {
  pre_queryId : string;
  pre_start : Q;
  pre_classification : ClassifiedQuery;
  pre_cacheResult : option (CacheEntry * Q)
}.

(** Entry and section 1: pre-processing. *)
Definition preprocess (content : string) : PM Pre :=
  queryId <- lift (Process.uid env) ;;
  start <- lift (Process.startTimer env) ;;
  lift Process.getBudgetTracker ;;;
  lift Process.getAnalytics ;;;
  lift Process.getArtifactManager ;;;
  lift (onAgent incrementQueryCount) ;;;
  let classification := Process.classifyQuery env content in
  cacheResult <- lift (cacheLookup content) ;;
  Monad.ret {| pre_queryId := queryId; pre_start := start;
               pre_classification := classification;
               pre_cacheResult := cacheResult |}.

(** Section 2: cache hit, return immediately. *)
Definition onCacheHit (pre : Pre) (entry : CacheEntry) (similarity : Q)
  (content : string) : PM AgentResponse :=
  let queryId := pre_queryId pre in
  let start := pre_start pre in
  let classification := pre_classification pre in
  savedLatencyMs <- lift (Process.elapsed env start) ;;
  cacheArtifact <-
    lift (recordArtifact (fun id nowIso now =>
      Artifacts.recordCacheHit rt id nowIso now queryId classification
        similarity (cost entry) savedLatencyMs
        (providerString (entry_provider entry)) (entry_model entry))) ;;
  generated cacheArtifact ;;;
  lift (id <- Process.uid env ;;
        now <- Process.dateNow env ;;
        nowCost <- Process.dateNow env ;;
        Process.onAnalytics
          (Analytics.recordCacheHit id now nowCost content (cost entry))) ;;;
  responseTimeMs <- lift (Process.elapsed env start) ;;
  let cachedResponse :=
    {| resp_id := queryId;
       content := ce_response entry;
       resp_provider := entry_provider entry;
       resp_model := entry_model entry;
       tokens := {| tok_input := 0; tok_output := tokensUsed entry;
                    tok_total := tokensUsed entry |};
       resp_cost := 0;
       responseTimeMs := responseTimeMs;
       resp_citations := None;
       cacheHit := true;
       finishReason := None |} in
  routing <- lift (SmartRouter.routeQuery rt env classification None) ;;
  artifacts <- generatedArtifacts ;;
  totalTimeMs <- lift (Process.elapsed env start) ;;
  Monad.ret
    {| ar_response := cachedResponse;
       classification := classification;
       routing := routing;
       ar_artifacts := artifacts;
       ar_cacheHit := true;
       totalTimeMs := totalTimeMs |}.

(** [analytics.recordCacheMiss(content)]. *)
Definition noteCacheMiss (content : string) : Process.M unit :=
  id <- Process.uid env ;;
  now <- Process.dateNow env ;;
  Process.onAnalytics (Analytics.recordCacheMiss id now content).

(** [budget.getStatus("daily")]. *)
Definition readDailyStatus : Process.M BudgetStatus :=
  budget <- Process.getBudgetTracker ;;
  now <- Process.dateNow env ;;
  Monad.ret (BudgetTracker.getStatus rt now daily budget).

(** Section 3, the branch taken when [dailyStatus.percentUsed >= 100]. *)
Definition rejectBudget (pre : Pre) (dailyStatus : BudgetStatus)
  : PM AgentResponse :=
  rejectArtifact <-
    lift (recordArtifact (fun id nowIso now =>
      Artifacts.recordBudgetReject rt id nowIso now (pre_queryId pre)
        (pre_classification pre) (spent dailyStatus) (limit dailyStatus) 0)) ;;
  generated rejectArtifact ;;;
  Monad.throw
    (BudgetExceededError "daily" (spent dailyStatus) (limit dailyStatus)).

(** Section 5: execute (cascade or direct). *)
Definition execute (pre : Pre) (content : string) (opts : Opts)
  (routing : RoutingDecision) (routeArtifact : Artifacts.Ref)
  : PM ChatResponse :=
  let queryId := pre_queryId pre in
  let classification := pre_classification pre in
  match rd_strategy routing, cascadeChain routing with
  | cascade, Some chain =>
      cascadeResult <-
        Cascade.executeCascade
          (cascadeRun queryId content opts)
          (cascadeEvaluate classification)
          (Some (cascadeOnStep queryId classification chain))
          chain ;;
      Monad.ret (Cascade.response cascadeResult)
  | _, _ =>
      lift (
        provider <- getProvider (rd_provider routing) ;;
        response <-
          Process.chat env provider
            (mkRequest queryId content opts) (rd_model routing) ;;
        let report := QualityEstimator.estimate rt response classification in
        onAgent (addQuality (QualityEstimator.overallScore report)) ;;;
        m <- Process.getArtifactManager ;;
        let routeId :=
          match Artifacts.deref m routeArtifact with
          | Some a => Artifacts.id a
          | None => ""
          end in
        Process.onArtifacts (fun m =>
          (tt, Artifacts.enrichWithResponse routeId response (Some report) m)) ;;;
        Monad.ret response)
  end.

(** Section 6: post-processing. *)
Definition postprocess (content : string) (classification : ClassifiedQuery)
  (routing : RoutingDecision) (response : ChatResponse) : Process.M unit :=
  nowCost <- Process.dateNow env ;;
  let actualCost :=
    CostCalculator.computeActualCost nowCost (rd_provider routing)
      (rd_model routing) (tok_input (tokens response))
      (tok_output (tokens response)) in
  cacheStore content response ;;;
  (id <- Process.uid env ;;
   now <- Process.dateNow env ;;
   Process.onAnalytics
     (Analytics.recordQuery id now content classification routing
        actualCost (responseTimeMs response) false)) ;;;
  (now <- Process.dateNow env ;;
   Process.onTracker (fun t =>
     (tt, BudgetTracker.recordCost rt now actualCost t))).

(** Sections 4 to 6 and the return. *)
Definition routeAndExecute (pre : Pre) (content : string) (opts : Opts)
  : PM AgentResponse :=
  let queryId := pre_queryId pre in
  let classification := pre_classification pre in
  routing <- lift (SmartRouter.routeQuery rt env classification None) ;;
  routeArtifact <-
    lift (recordArtifact (fun id nowIso now =>
      Artifacts.recordRouteDecision rt id nowIso now queryId classification
        routing None)) ;;
  generated routeArtifact ;;;
  response <- execute pre content opts routing routeArtifact ;;
  lift (postprocess content classification routing response) ;;;
  artifacts <- generatedArtifacts ;;
  totalTimeMs <- lift (Process.elapsed env (pre_start pre)) ;;
  Monad.ret
    {| ar_response := response;
       classification := classification;
       routing := routing;
       ar_artifacts := artifacts;
       ar_cacheHit := false;
       totalTimeMs := totalTimeMs |}.

(** Section 3: budget check. *)
Definition onCacheMiss (pre : Pre) (content : string) (opts : Opts)
  : PM AgentResponse :=
  lift (noteCacheMiss content) ;;;
  dailyStatus <- lift readDailyStatus ;;
  if Num.geb (percentUsed dailyStatus) 100
  then rejectBudget pre dailyStatus
  else routeAndExecute pre content opts.

(** Process a query through the full agent pipeline. *)
Definition processQuery (content : string) (opts : Opts) : PM AgentResponse :=
  pre <- preprocess content ;;
  match pre_cacheResult pre with
  | Some (entry, similarity) => onCacheHit pre entry similarity content
  | None => onCacheMiss pre content opts
  end.

End WithRuntime.

End AgentManager.

(* ------------------------------------------------------------------ *)
(** ** A runtime to run the model on examples

    The clock is UTC with the proleptic Gregorian calendar; strings are
    ASCII; the digest of a text is the text itself; of the patterns only
    the two of the tokenizer are interpreted, no other pattern matches;
    the square root is the integer one, exact on perfect squares; numbers
    print as the empty string. *)

Module ExampleRuntime.

(** Days since 1970-01-01 of the civil date [y]-[m]-[d], [m] in 1..12. *)
Definition daysFromCivil (y m d : Z) : Z :=
  let y' := (if m <=? 2 then y - 1 else y)%Z in
  let era := (y' / 400)%Z in
  let yoe := (y' - era * 400)%Z in
  let mp := (if 2 <? m then m - 3 else m + 9)%Z in
  let doy := ((153 * mp + 2) / 5 + d - 1)%Z in
  let doe := (yoe * 365 + yoe / 4 - yoe / 100 + doy)%Z in
  (era * 146097 + doe - 719468)%Z.

(** The civil date (year, month in 1..12, day) of a day number. *)
Definition civilFromDays (z : Z) : Z * Z * Z :=
  let z' := (z + 719468)%Z in
  let era := (z' / 146097)%Z in
  let doe := (z' - era * 146097)%Z in
  let yoe := ((doe - doe / 1460 + doe / 36524 - doe / 146096) / 365)%Z in
  let doy := (doe - (365 * yoe + yoe / 4 - yoe / 100))%Z in
  let mp := ((5 * doy + 2) / 153)%Z in
  let d := (doy - (153 * mp + 2) / 5 + 1)%Z in
  let m := (if mp <? 10 then mp + 3 else mp - 9)%Z in
  let y := (yoe + era * 400 + (if m <=? 2 then 1 else 0))%Z in
  (y, m, d).

Definition msPerDay : Z := 86400000.

Definition dayOf (ms : Z) : Z := (ms / msPerDay)%Z.

Definition lowerAscii (c : ascii) : ascii :=
  let n := nat_of_ascii c in
  if Nat.leb 65 n && Nat.leb n 90 then ascii_of_nat (n + 32) else c.

Definition upperAscii (c : ascii) : ascii :=
  let n := nat_of_ascii c in
  if Nat.leb 97 n && Nat.leb n 122 then ascii_of_nat (n - 32) else c.

Fixpoint mapString (f : ascii -> ascii) (s : string) : string :=
  match s with
  | EmptyString => EmptyString
  | String c rest => String (f c) (mapString f rest)
  end.

Definition isSpace (c : ascii) : bool :=
  let n := nat_of_ascii c in
  Nat.eqb n 32 || (Nat.leb 9 n && Nat.leb n 13).

Fixpoint trimStart (s : string) : string :=
  match s with
  | EmptyString => EmptyString
  | String c rest => if isSpace c then trimStart rest else s
  end.

Fixpoint trimEnd (s : string) : string :=
  match s with
  | EmptyString => EmptyString
  | String c rest =>
      match trimEnd rest with
      | EmptyString => if isSpace c then EmptyString else String c EmptyString
      | rest' => String c rest'
      end
  end.

Definition isWord (c : ascii) : bool :=
  let n := nat_of_ascii c in
  (Nat.leb 48 n && Nat.leb n 57) || (Nat.leb 65 n && Nat.leb n 90)
  || (Nat.leb 97 n && Nat.leb n 122) || Nat.eqb n 95.

(** The pieces of [s] between runs of white space; [cur] is the piece
    being read, reversed. *)
Fixpoint splitSpaces (s : string) (cur : option string) : list string :=
  match s with
  | EmptyString =>
      match cur with Some w => [w] | None => [] end
  | String c rest =>
      if isSpace c then
        match cur with
        | Some w => w :: splitSpaces rest None
        | None => splitSpaces rest None
        end
      else
        splitSpaces rest
          (Some (match cur with
                 | Some w => w ++ String c EmptyString
                 | None => String c EmptyString
                 end))
  end.

Definition utc : Runtime := {|
  Math_sqrt := fun q => inject_Z (Z.sqrt (Qfloor q));
  toFixed := fun _ _ => "";
  numberToString := fun _ => "";
  toLowerCase := mapString lowerAscii;
  toUpperCase := mapString upperAscii;
  trim := fun s => trimEnd (trimStart s);
  re_test := fun _ _ _ => false;
  re_replace := fun source _ text _ =>
    if String.eqb source "[^\w\s]"
    then mapString (fun c => if isWord c || isSpace c then c else " "%char) text
    else text;
  re_split := fun source text =>
    if String.eqb source "\s+" then splitSpaces text None else [text];
  url_hostname := fun u => Some u;
  sha256_hex := fun s => s;
  getFullYear := fun ms => fst (fst (civilFromDays (dayOf ms)));
  getMonth := fun ms => (snd (fst (civilFromDays (dayOf ms))) - 1)%Z;
  getDate := fun ms => snd (civilFromDays (dayOf ms));
  getDay := fun ms => ((dayOf ms + 4) mod 7)%Z;
  newDate := fun y m d =>
    ((daysFromCivil (y + m / 12) (m mod 12 + 1) 1 + (d - 1)) * msPerDay)%Z;
  toISOString := fun _ => ""
|}.

(** Surroundings in which every clock reads [now], every identifier is
    [id] and every provider call gives [outcome]. *)
Definition constantEnv (now : Z) (outcome : ChatResponse + string)
  (classification : ClassifiedQuery) : Process.Env := {|
  Process.dateAt := fun _ => now;
  Process.perfAt := fun _ => 0;
  Process.uuidAt := fun _ => "id";
  Process.chatAt := fun _ _ _ _ => outcome;
  Process.classifyQuery := fun _ => classification
|}.

(** A process in which nothing has happened yet, with the given
    providers registered and the given cache attached. *)
Definition freshWorld (providers : list ProviderName)
  (cache : option SemanticCache.Cache) : Process.World := {|
  Process.tracker := None;
  Process.collector := None;
  Process.artifactManager := None;
  Process.agent := {| Process.providers := providers;
                      Process.cache := cache;
                      Process.queryCount := 0;
                      Process.totalQualityScore := 0;
                      Process.qualityCount := 0 |};
  Process.dateReads := 0;
  Process.perfReads := 0;
  Process.uidReads := 0;
  Process.providerCalls := []
|}.

End ExampleRuntime.

(* ================================================================== *)
(** * Properties *)

Unset Implicit Arguments.

(* ------------------------------------------------------------------ *)
(** ** Comparisons, [Math.max], [Math.min] and rounding *)

Module NumFacts.

Lemma ltb_lt a b : Num.ltb a b = true <-> a < b.
Proof.
  unfold Num.ltb. rewrite negb_true_iff.
  destruct (Qle_bool b a) eqn:E.
  - apply Qle_bool_iff in E. split; [discriminate|].
    intro H. exfalso. exact (Qlt_not_le _ _ H E).
  - split; [|reflexivity]. intros _.
    apply Qnot_le_lt. intro H. apply Qle_bool_iff in H. congruence.
Qed.

Lemma ltb_ge a b : Num.ltb a b = false <-> b <= a.
Proof. unfold Num.ltb. rewrite negb_false_iff. apply Qle_bool_iff. Qed.

Lemma leb_le a b : Num.leb a b = true <-> a <= b.
Proof. apply Qle_bool_iff. Qed.

Lemma geb_le a b : Num.geb a b = true <-> b <= a.
Proof. apply Qle_bool_iff. Qed.

Lemma geb_lt a b : Num.geb a b = false <-> a < b.
Proof.
  unfold Num.geb. destruct (Qle_bool b a) eqn:E.
  - apply Qle_bool_iff in E. split; [discriminate|].
    intro H. exfalso. exact (Qlt_not_le _ _ H E).
  - split; [|reflexivity]. intros _.
    apply Qnot_le_lt. intro H. apply Qle_bool_iff in H. congruence.
Qed.

Lemma gtb_lt a b : Num.gtb a b = true <-> b < a.
Proof. exact (ltb_lt b a). Qed.

Lemma gtb_le a b : Num.gtb a b = false <-> a <= b.
Proof. exact (ltb_ge b a). Qed.

Lemma max_l a b : a <= Num.max a b.
Proof.
  unfold Num.max. destruct (Qle_bool a b) eqn:E.
  - now apply Qle_bool_iff.
  - apply Qle_refl.
Qed.

Lemma max_r a b : b <= Num.max a b.
Proof.
  unfold Num.max. destruct (Qle_bool a b) eqn:E.
  - apply Qle_refl.
  - apply Qlt_le_weak, Qnot_le_lt. intro H.
    apply Qle_bool_iff in H. congruence.
Qed.

Lemma min_l a b : Num.min a b <= a.
Proof.
  unfold Num.min. destruct (Qle_bool a b) eqn:E.
  - apply Qle_refl.
  - apply Qlt_le_weak, Qnot_le_lt. intro H.
    apply Qle_bool_iff in H. congruence.
Qed.

Lemma min_r a b : Num.min a b <= b.
Proof.
  unfold Num.min. destruct (Qle_bool a b) eqn:E.
  - now apply Qle_bool_iff.
  - apply Qle_refl.
Qed.

(** [Math.max(lo, Math.min(hi, x))] lies between [lo] and [hi]. *)
Lemma clamp_bounds lo hi x :
  lo <= hi -> lo <= Num.max lo (Num.min hi x) <= hi.
Proof.
  intro H. split; [apply max_l|].
  unfold Num.max. destruct (Qle_bool lo (Num.min hi x)).
  - apply min_l.
  - exact H.
Qed.

(** [Math.min(hi, Math.max(lo, x))] lies between [lo] and [hi], and is
    [x] when [x] does. *)
Lemma min_max_bounds lo hi x :
  lo <= hi -> lo <= Num.min hi (Num.max lo x) <= hi.
Proof.
  intro H. split; [|apply min_l].
  unfold Num.min. destruct (Qle_bool hi (Num.max lo x)).
  - exact H.
  - apply max_l.
Qed.

Lemma min_max_inside lo hi x :
  lo <= x <= hi -> Num.min hi (Num.max lo x) == x.
Proof.
  intros [Hlo Hhi]. unfold Num.min, Num.max.
  apply Qle_bool_iff in Hlo. rewrite Hlo.
  destruct (Qle_bool hi x) eqn:E; [|reflexivity].
  apply Qle_bool_iff in E. now apply Qle_antisym.
Qed.

(** Rounding respects equality of rationals. *)
Lemma roundTo_comp k x y : x == y -> Num.roundTo k x = Num.roundTo k y.
Proof.
  intro H. unfold Num.roundTo, Num.round.
  assert (E : x * inject_Z k + (1 # 2) == y * inject_Z k + (1 # 2))
    by (rewrite H; reflexivity).
  now rewrite (Qfloor_comp _ _ E).
Qed.

Lemma roundTo_not_negative k x :
  (0 < k)%Z -> 0 <= x -> 0 <= Num.roundTo k x.
Proof.
  intros Hk Hx. unfold Num.roundTo, Num.round.
  assert (Hk' : 0 < inject_Z k).
  { change 0 with (inject_Z 0). now rewrite <- Zlt_Qlt. }
  apply Qle_shift_div_l; [exact Hk'|]. rewrite Qmult_0_l.
  change 0 with (inject_Z 0). rewrite <- Zle_Qle.
  change 0%Z with (Qfloor 0). apply Qfloor_resp_le.
  pose proof (Qmult_le_0_compat _ _ Hx (Qlt_le_weak _ _ Hk')). lra.
Qed.

Lemma roundTo_0 k : Num.roundTo k 0 == 0.
Proof.
  unfold Num.roundTo, Num.round.
  assert (E : 0 * inject_Z k + (1 # 2) == 1 # 2) by ring.
  rewrite (Qfloor_comp _ _ E). reflexivity.
Qed.

End NumFacts.

(* ------------------------------------------------------------------ *)
(** ** Filtering twice *)

Module ListFacts.

Lemma filter_filter {A} (f g : A -> bool) xs :
  filter f (filter g xs) = filter (fun x => g x && f x) xs.
Proof.
  induction xs as [|x xs IH]; simpl; [reflexivity|].
  destruct (g x); simpl; [|exact IH].
  destruct (f x); now rewrite IH.
Qed.

Lemma filter_filter_implied {A} (f g : A -> bool) xs :
  (forall x, f x = true -> g x = true) ->
  filter f (filter g xs) = filter f xs.
Proof.
  intro H. induction xs as [|x xs IH]; simpl; [reflexivity|].
  destruct (g x) eqn:Eg; simpl.
  - now rewrite IH.
  - destruct (f x) eqn:Ef; [|exact IH].
    rewrite (H x Ef) in Eg. discriminate.
Qed.

End ListFacts.

(* ------------------------------------------------------------------ *)
(** ** Sorting with a comparator *)

Module SortFacts.

Section Sorting.
Variable A : Type.
Variable le : A -> A -> bool.

Lemma insert_Permutation x xs : Permutation (Js.insert le x xs) (x :: xs).
Proof.
  induction xs as [|y ys IH]; simpl; [reflexivity|].
  destruct (le x y); [reflexivity|].
  rewrite IH. apply perm_swap.
Qed.

Lemma sort_Permutation xs : Permutation (Js.sort le xs) xs.
Proof.
  induction xs as [|x rest IH]; simpl; [reflexivity|].
  rewrite insert_Permutation. now constructor.
Qed.

Lemma sort_In x xs : In x (Js.sort le xs) <-> In x xs.
Proof.
  split; apply Permutation_in;
    [apply sort_Permutation | apply Permutation_sym, sort_Permutation].
Qed.

(** The comparator is a total preorder, as [Array.prototype.sort]
    requires of a consistent comparator. *)
Hypothesis le_total : forall a b, le a b = false -> le b a = true.
Hypothesis le_trans :
  forall a b c, le a b = true -> le b c = true -> le a c = true.

Lemma insert_sorted x xs :
  StronglySorted (fun a b => le a b = true) xs ->
  StronglySorted (fun a b => le a b = true) (Js.insert le x xs).
Proof.
  induction 1 as [|y ys Hs IH Hy]; simpl.
  - constructor; constructor.
  - destruct (le x y) eqn:E.
    + constructor; [now constructor|].
      constructor; [exact E|].
      eapply Forall_impl; [|exact Hy]. intros z Hz. simpl in Hz.
      exact (le_trans x y z E Hz).
    + constructor; [exact IH|].
      apply Forall_forall. intros z Hz.
      apply (Permutation_in _ (insert_Permutation x ys)) in Hz.
      destruct Hz as [<-|Hz]; [now apply le_total|].
      rewrite Forall_forall in Hy. now apply Hy.
Qed.

Lemma sort_sorted xs :
  StronglySorted (fun a b => le a b = true) (Js.sort le xs).
Proof.
  induction xs as [|x rest IH]; simpl; [constructor|].
  now apply insert_sorted.
Qed.

(** The first element of the sorted array is a least one. *)
Lemma sort_head_least xs v rest :
  Js.sort le xs = v :: rest -> forall x, In x xs -> le v x = true.
Proof.
  intros E x Hx. apply sort_In in Hx. rewrite E in Hx.
  pose proof (sort_sorted xs) as Hs. rewrite E in Hs.
  inversion Hs as [|? ? _ Hall]; subst.
  destruct Hx as [<-|Hx].
  - destruct (le v v) eqn:Ev; [reflexivity|].
    pose proof (le_total v v Ev). congruence.
  - rewrite Forall_forall in Hall. now apply Hall.
Qed.

End Sorting.

Lemma StronglySorted_impl {A} (R R' : A -> A -> Prop) xs :
  (forall a b, R a b -> R' a b) ->
  StronglySorted R xs -> StronglySorted R' xs.
Proof.
  intro H. induction 1 as [|x rest Hs IH Hall]; constructor; [exact IH|].
  eapply Forall_impl; [|exact Hall]. intros b Hb. now apply H.
Qed.

End SortFacts.

(* ------------------------------------------------------------------ *)
(** ** The cost book *)

Module CostCalculatorFacts.
Import CostCalculator.

(** A pair of the registry is found again: no two profiles share a
    provider and a model. *)
Lemma getModelCostProfile_registered p :
  In p MODEL_COSTS ->
  getModelCostProfile (mp_provider p) (mp_model p) = Some p.
Proof.
  unfold MODEL_COSTS. simpl.
  intros [<-|[<-|[<-|[<-|[<-|[<-|[<-|[]]]]]]]]; reflexivity.
Qed.

Lemma getModelCostProfile_found provider model p :
  getModelCostProfile provider model = Some p ->
  In p MODEL_COSTS /\ mp_provider p = provider /\ mp_model p = model.
Proof.
  unfold getModelCostProfile. intro H.
  apply find_some in H. destruct H as [Hin Hb].
  apply andb_true_iff in Hb. destruct Hb as [Hp Hm].
  split; [exact Hin|]. split.
  - destruct (mp_provider p), provider; simpl in Hp; congruence.
  - now apply String.eqb_eq.
Qed.

Lemma getModelCostProfile_missing provider model :
  (forall p, In p MODEL_COSTS ->
             ~ (mp_provider p = provider /\ mp_model p = model)) ->
  getModelCostProfile provider model = None.
Proof.
  intro H. destruct (getModelCostProfile provider model) as [p|] eqn:E.
  - apply getModelCostProfile_found in E. destruct E as [Hin Heq].
    exfalso. exact (H p Hin Heq).
  - reflexivity.
Qed.

(** C8. For a provider/model pair of the cost book and token counts
    [i], [o] that are not negative, the estimate's [estimatedCost] is
    [inputCost + outputCost + perRequestCost] of its breakdown, with
    [inputCost = (i / 1000) * inputCostPer1k], [outputCost = (o / 1000) *
    outputCostPer1k] and the profile's per-request cost; for a pair that
    is not in the cost book the estimate is the sentinel whose cost fields
    are all 0, and nothing is thrown ([estimateCost] is a total
    function). *)
Theorem estimateCost_breakdown_and_sentinel provider model i o :
  0 <= i -> 0 <= o ->
  let e := estimateCost provider model i o in
  (forall p, In p MODEL_COSTS ->
     mp_provider p = provider -> mp_model p = model ->
     estimatedCost e
     = inputCost (breakdown e) + outputCost (breakdown e)
       + perRequestCost (breakdown e)
     /\ inputCost (breakdown e) = (i / 1000) * inputCostPer1k p
     /\ outputCost (breakdown e) = (o / 1000) * outputCostPer1k p
     /\ perRequestCost (breakdown e) = mp_perRequestCost p)
  /\ ((forall p, In p MODEL_COSTS ->
         ~ (mp_provider p = provider /\ mp_model p = model)) ->
      estimatedCost e = 0
      /\ inputCost (breakdown e) = 0
      /\ outputCost (breakdown e) = 0
      /\ perRequestCost (breakdown e) = 0
      /\ ce_provider e = provider /\ ce_model e = model
      /\ estimatedInputTokens e = i /\ estimatedOutputTokens e = o).
Proof.
  intros _ _ e. subst e. split.
  - intros p Hin <- <-. unfold estimateCost.
    rewrite (getModelCostProfile_registered p Hin). simpl.
    repeat split.
  - intro Hmissing. unfold estimateCost.
    rewrite (getModelCostProfile_missing _ _ Hmissing). simpl.
    repeat split.
Qed.

Definition sonarProfile : ModelCostProfile :=
  {| mp_provider := perplexity; mp_model := "sonar";
     inputCostPer1k := 0.001; outputCostPer1k := 0.001;
     mp_perRequestCost := 0.005;
     maxOutputTokens := 16384; contextWindow := 128000;
     suitableFor := [simple];
     capabilities := [web_search; citations] |}.

Lemma estimateCost_breakdown_and_sentinel_witness :
  (let e := estimateCost perplexity "sonar" 1000 500 in
   estimatedCost e
   = inputCost (breakdown e) + outputCost (breakdown e)
     + perRequestCost (breakdown e)
   /\ inputCost (breakdown e) = (1000 / 1000) * 0.001
   /\ outputCost (breakdown e) = (500 / 1000) * 0.001
   /\ perRequestCost (breakdown e) = 0.005)
  /\ estimatedCost (estimateCost openai "gpt-999" 1000 500) = 0.
Proof.
  split.
  - apply (estimateCost_breakdown_and_sentinel perplexity "sonar" 1000 500
             ltac:(discriminate) ltac:(discriminate)) with (p := sonarProfile).
    + simpl. auto.
    + reflexivity.
    + reflexivity.
  - apply (estimateCost_breakdown_and_sentinel openai "gpt-999" 1000 500
             ltac:(discriminate) ltac:(discriminate)).
    intros p Hin [Hp Hm]. simpl in Hin.
    repeat (destruct Hin as [<-|Hin]; [discriminate Hm|]). exact Hin.
Defined.

(** *** Ranking models by cost *)

Definition cheaper (a b : ModelCostProfile * Q) : bool :=
  Num.leb (snd a - snd b) 0.

Lemma cheaper_le a b : cheaper a b = true <-> snd a <= snd b.
Proof.
  unfold cheaper, Num.leb. rewrite Qle_bool_iff. split; intro H; lra.
Qed.

Lemma cheaper_total a b : cheaper a b = false -> cheaper b a = true.
Proof.
  intro H. apply cheaper_le.
  destruct (Qlt_le_dec (snd a) (snd b)) as [Hlt|Hle]; [|exact Hle].
  assert (Ht : cheaper a b = true) by (apply cheaper_le; lra).
  congruence.
Qed.

Lemma cheaper_trans a b c :
  cheaper a b = true -> cheaper b c = true -> cheaper a c = true.
Proof. rewrite !cheaper_le. intros. lra. Qed.

Definition suitable (complexity : QueryComplexity) (p : ModelCostProfile)
  : Prop :=
  In p MODEL_COSTS
  /\ Js.includes QueryComplexity_eqb complexity (suitableFor p) = true.

Lemma listModelsForComplexity_In complexity p :
  In p (listModelsForComplexity complexity) <-> suitable complexity p.
Proof. unfold listModelsForComplexity, suitable. apply filter_In. Qed.

Lemma listModelsByCost_In complexity i o r :
  In r (listModelsByCost complexity i o)
  <-> suitable complexity (fst r) /\ snd r = estimateCostForModel (fst r) i o.
Proof.
  unfold listModelsByCost. fold cheaper.
  rewrite SortFacts.sort_In, in_map_iff. split.
  - intros (p & <- & Hp). simpl.
    now rewrite <- listModelsForComplexity_In.
  - intros [Hs Hc]. exists (fst r). split.
    + destruct r as [p c]. simpl in *. now rewrite Hc.
    + now apply listModelsForComplexity_In.
Qed.

Lemma listModelsByCost_members_sorted complexity i o :
  (forall r, In r (listModelsByCost complexity i o)
     <-> suitable complexity (fst r)
         /\ snd r = estimateCostForModel (fst r) i o)
  /\ StronglySorted (fun a b => snd a <= snd b)
       (listModelsByCost complexity i o).
Proof.
  split; [intro r; apply listModelsByCost_In|].
  unfold listModelsByCost. fold cheaper.
  eapply SortFacts.StronglySorted_impl;
    [|apply (SortFacts.sort_sorted _ cheaper cheaper_total cheaper_trans)].
  intros a b H. now apply cheaper_le.
Qed.

(** X6. [listModelsByCost] lists exactly the models of the cost book that
    are suitable for the complexity, each once and with its estimated
    cost for the given token counts, in ascending order of that cost. *)
Theorem listModelsByCost_ranks_suitable_models complexity i o :
  let ranked := listModelsByCost complexity i o in
  Permutation (List.map fst ranked) (listModelsForComplexity complexity)
  /\ (forall r, In r ranked ->
        In (fst r) MODEL_COSTS
        /\ Js.includes QueryComplexity_eqb complexity (suitableFor (fst r))
           = true
        /\ snd r = estimateCostForModel (fst r) i o)
  /\ StronglySorted (fun a b => snd a <= snd b) ranked.
Proof.
  intro ranked. split; [|split].
  - unfold ranked, listModelsByCost.
    rewrite SortFacts.sort_Permutation, map_map. simpl. now rewrite map_id.
  - intros r Hr. apply listModelsByCost_In in Hr.
    destruct Hr as [[Hin Hs] Hc]. auto.
  - apply listModelsByCost_members_sorted.
Qed.

Lemma find_first_fitting remaining (ranked : list (ModelCostProfile * Q)) :
  StronglySorted (fun a b => snd a <= snd b) ranked ->
  match find (fun r => Num.leb (snd r) remaining) ranked with
  | Some r =>
      In r ranked /\ snd r <= remaining
      /\ forall r', In r' ranked -> snd r <= snd r'
  | None => forall r', In r' ranked -> remaining < snd r'
  end.
Proof.
  induction 1 as [|r0 rest Hs IH Hall]; simpl; [intros r' []|].
  destruct (Num.leb (snd r0) remaining) eqn:E.
  - apply NumFacts.leb_le in E. split; [now left|]. split; [exact E|].
    intros r' [<-|Hr']; [apply Qle_refl|].
    rewrite Forall_forall in Hall. now apply Hall.
  - assert (Hgt : remaining < snd r0).
    { apply Qnot_le_lt. intro Hle. apply NumFacts.leb_le in Hle.
      congruence. }
    destruct (find (fun r => Num.leb (snd r) remaining) rest) as [r|].
    + destruct IH as (Hin & Hfit & Hmin). exfalso.
      rewrite Forall_forall in Hall. specialize (Hall r Hin). simpl in Hall.
      lra.
    + intros r' [<-|Hr']; [exact Hgt|now apply IH].
Qed.

(** X7. [cheapestModelWithinBudget] returns a model exactly when the
    cheapest suitable model fits the remaining budget, and then it
    returns a suitable model that no suitable model undercuts; it
    returns [null] exactly when every suitable model costs more than the
    remaining budget. *)
Theorem cheapestModelWithinBudget_is_cheapest complexity i o remaining :
  match cheapestModelWithinBudget complexity i o remaining with
  | Some p =>
      In p MODEL_COSTS
      /\ Js.includes QueryComplexity_eqb complexity (suitableFor p) = true
      /\ estimateCostForModel p i o <= remaining
      /\ forall p', In p' MODEL_COSTS ->
           Js.includes QueryComplexity_eqb complexity (suitableFor p') = true ->
           estimateCostForModel p i o <= estimateCostForModel p' i o
  | None =>
      forall p', In p' MODEL_COSTS ->
        Js.includes QueryComplexity_eqb complexity (suitableFor p') = true ->
        remaining < estimateCostForModel p' i o
  end.
Proof.
  unfold cheapestModelWithinBudget.
  destruct (listModelsByCost_members_sorted complexity i o)
    as [Hin Hsorted].
  pose proof (find_first_fitting remaining _ Hsorted) as H.
  destruct (find (fun r => Num.leb (snd r) remaining)
              (listModelsByCost complexity i o)) as [[p c]|]; simpl.
  - destruct H as (Hr & Hfit & Hmin). apply Hin in Hr.
    destruct Hr as [[Hp Hs] Hc]. simpl in Hp, Hs, Hc, Hfit. subst c.
    split; [exact Hp|]. split; [exact Hs|]. split; [exact Hfit|].
    intros p' Hp' Hs'.
    apply (Hmin (p', estimateCostForModel p' i o)).
    apply Hin. simpl. split; [split; assumption|reflexivity].
  - intros p' Hp' Hs'.
    apply (H (p', estimateCostForModel p' i o)).
    apply Hin. simpl. split; [split; assumption|reflexivity].
Qed.

(** *** Estimates *)

(** X8. The estimated output tokens stay within the range of the
    complexity (50..200, 200..800, 500..4000), whatever the input
    estimate, and are 2, 3 or 4 times the input tokens when that product
    lies in the range. *)
Theorem estimateOutputTokens_range i :
  (50 <= estimateOutputTokens simple i <= 200
   /\ (50 <= i * 2 <= 200 -> estimateOutputTokens simple i == i * 2))
  /\ (200 <= estimateOutputTokens medium i <= 800
      /\ (200 <= i * 3 <= 800 -> estimateOutputTokens medium i == i * 3))
  /\ (500 <= estimateOutputTokens complex i <= 4000
      /\ (500 <= i * 4 <= 4000 -> estimateOutputTokens complex i == i * 4)).
Proof.
  unfold estimateOutputTokens.
  repeat split;
    try (apply NumFacts.min_max_bounds; discriminate);
    try (intro H; now apply NumFacts.min_max_inside).
Qed.

Lemma registry_rates_not_negative p :
  In p MODEL_COSTS ->
  0 <= inputCostPer1k p /\ 0 <= outputCostPer1k p
  /\ 0 <= mp_perRequestCost p.
Proof.
  unfold MODEL_COSTS. simpl.
  intros [<-|[<-|[<-|[<-|[<-|[<-|[<-|[]]]]]]]]; simpl;
    repeat split; discriminate.
Qed.

Lemma estimateCostForModel_monotone p i o i' o' :
  0 <= inputCostPer1k p -> 0 <= outputCostPer1k p ->
  0 <= mp_perRequestCost p ->
  0 <= i -> i <= i' -> 0 <= o -> o <= o' ->
  0 <= estimateCostForModel p i o
  /\ estimateCostForModel p i o <= estimateCostForModel p i' o'.
Proof.
  intros Ha Hb Hc Hi Hii Ho Hoo. unfold estimateCostForModel.
  assert (H1 : 0 <= i / 1000) by (apply Qle_shift_div_l; [reflexivity|lra]).
  assert (H2 : 0 <= o / 1000) by (apply Qle_shift_div_l; [reflexivity|lra]).
  assert (H3 : i / 1000 <= i' / 1000) by (unfold Qdiv; apply Qmult_le_compat_r; [exact Hii|discriminate]).
  assert (H4 : o / 1000 <= o' / 1000) by (unfold Qdiv; apply Qmult_le_compat_r; [exact Hoo|discriminate]).
  pose proof (Qmult_le_0_compat _ _ H1 Ha) as P1.
  pose proof (Qmult_le_0_compat _ _ H2 Hb) as P2.
  pose proof (Qmult_le_compat_r _ _ _ H3 Ha) as P3.
  pose proof (Qmult_le_compat_r _ _ _ H4 Hb) as P4.
  split; lra.
Qed.

(** X9. For token counts that are not negative the estimated cost is not
    negative, and it does not decrease when the token counts grow. *)
Theorem estimateCost_monotone provider model i o i' o' :
  0 <= i -> i <= i' -> 0 <= o -> o <= o' ->
  0 <= estimatedCost (estimateCost provider model i o)
  /\ estimatedCost (estimateCost provider model i o)
     <= estimatedCost (estimateCost provider model i' o').
Proof.
  intros Hi Hii Ho Hoo. unfold estimateCost.
  destruct (getModelCostProfile provider model) as [p|] eqn:E; simpl.
  - apply getModelCostProfile_found in E. destruct E as [Hin _].
    destruct (registry_rates_not_negative p Hin) as (Ha & Hb & Hc).
    exact (estimateCostForModel_monotone p i o i' o' Ha Hb Hc Hi Hii Ho Hoo).
  - split; apply Qle_refl.
Qed.

Lemma estimateCost_monotone_witness :
  0 <= estimatedCost (estimateCost openai "gpt-4o" 1000 500)
  /\ estimatedCost (estimateCost openai "gpt-4o" 1000 500)
     <= estimatedCost (estimateCost openai "gpt-4o" 2000 500).
Proof.
  apply (estimateCost_monotone openai "gpt-4o" 1000 500 2000 500);
    discriminate.
Defined.

(** X10. The cost computed after a call is the estimate for the same
    token counts, stamped with the current time; so the pre-flight check
    [wouldExceedBudget] passes exactly when the cost that will be
    recorded for those token counts fits the remaining budget. *)
Theorem computeActualCost_is_the_estimate now provider model i o remaining :
  let actual := computeActualCost now provider model i o in
  let estimate := estimateCost provider model i o in
  totalCost actual = estimatedCost estimate
  /\ timestamp actual = now
  /\ (ac_provider actual, ac_model actual) = (provider, model)
  /\ (inputTokens actual, outputTokens actual) = (i, o)
  /\ (wouldExceedBudget estimate remaining = false
      <-> totalCost actual <= remaining).
Proof.
  intros actual estimate.
  assert (E : totalCost actual = estimatedCost estimate).
  { unfold actual, estimate, computeActualCost, estimateCost.
    destruct (getModelCostProfile provider model); reflexivity. }
  split; [exact E|]. rewrite E.
  unfold actual, computeActualCost, wouldExceedBudget.
  destruct (getModelCostProfile provider model); simpl;
    (split; [reflexivity|]); (split; [reflexivity|]);
    (split; [reflexivity|]); apply NumFacts.gtb_le.
Qed.

End CostCalculatorFacts.

(* ------------------------------------------------------------------ *)
(** ** The quality estimator *)

Module QualityEstimatorFacts.
Import QualityEstimator.

(** A signal carries the weight [w] and a score between 0 and 10. *)
Definition signal_ok (w : Q) (s : QualitySignal) : Prop :=
  weight s = w /\ 0 <= score s <= 10.

Ltac split_conditions :=
  repeat match goal with
         | |- context [if ?b then _ else _] => destruct b
         end.

Ltac constant_score :=
  split; [reflexivity | split; unfold Qle; simpl; lia].

Lemma clamped_ok x : 0 <= Num.max 0 (Num.min 10 x) <= 10.
Proof. apply NumFacts.clamp_bounds. unfold Qle; simpl; lia. Qed.

Section Signals.
Variable rt : Runtime.

Lemma scoreCitationQuality_ok response :
  signal_ok 0.25 (scoreCitationQuality rt response).
Proof.
  unfold scoreCitationQuality.
  set (count := List.length _).
  set (domains := List.length (nodup _ _)).
  split_conditions; constant_score.
Qed.

Lemma scoreConfidenceLanguage_ok response :
  signal_ok 0.2 (scoreConfidenceLanguage rt response).
Proof.
  unfold scoreConfidenceLanguage.
  destruct (Num.gtb _ 0).
  - constant_score.
  - split; [reflexivity|]. simpl. apply clamped_ok.
Qed.

Lemma scoreStructuralCompleteness_ok response query :
  signal_ok 0.2 (scoreStructuralCompleteness rt response query).
Proof.
  unfold scoreStructuralCompleteness.
  split; [reflexivity|]. simpl. apply clamped_ok.
Qed.

Lemma scoreLengthAppropriateness_ok response query :
  signal_ok 0.15 (scoreLengthAppropriateness rt response query).
Proof.
  unfold scoreLengthAppropriateness.
  destruct (Num.ltb _ _); [|destruct (Num.gtb _ _)];
    (split; [reflexivity|]; simpl; apply clamped_ok).
Qed.

Lemma scoreLatencyVsExpected_ok response query :
  signal_ok 0.1 (scoreLatencyVsExpected rt response query).
Proof.
  unfold scoreLatencyVsExpected.
  split_conditions; constant_score.
Qed.

Lemma scoreTokenEfficiency_ok response :
  signal_ok 0.1 (scoreTokenEfficiency rt response).
Proof.
  unfold scoreTokenEfficiency.
  split_conditions; constant_score.
Qed.

End Signals.

(** The weighted sum of six scores in [0, 10] with these weights is in
    [0, 10]. *)
Lemma weighted_sum_bounds s1 s2 s3 s4 s5 s6 :
  0 <= s1 <= 10 -> 0 <= s2 <= 10 -> 0 <= s3 <= 10 ->
  0 <= s4 <= 10 -> 0 <= s5 <= 10 -> 0 <= s6 <= 10 ->
  0 <= 0 + s1 * 0.25 + s2 * 0.2 + s3 * 0.2 + s4 * 0.15 + s5 * 0.1 + s6 * 0.1
    <= 10.
Proof. intros. lra. Qed.

(** C9. The report's [overallScore] is the weighted sum of the six
    signal scores with the weights 0.25, 0.20, 0.20, 0.15, 0.10 and 0.10
    (citation quality, confidence language, structural completeness,
    length appropriateness, latency, token efficiency); the weights sum
    to 1; every signal score lies in [0, 10]; hence so does
    [overallScore]. *)
Theorem estimate_overallScore_weighted_sum rt response query :
  let report := estimate rt response query in
  let s1 := scoreCitationQuality rt response in
  let s2 := scoreConfidenceLanguage rt response in
  let s3 := scoreStructuralCompleteness rt response query in
  let s4 := scoreLengthAppropriateness rt response query in
  let s5 := scoreLatencyVsExpected rt response query in
  let s6 := scoreTokenEfficiency rt response in
  signals report = [s1; s2; s3; s4; s5; s6]
  /\ List.map weight (signals report)
     = [ citationQuality SIGNAL_WEIGHTS; confidenceLanguage SIGNAL_WEIGHTS;
         structuralCompleteness SIGNAL_WEIGHTS;
         lengthAppropriateness SIGNAL_WEIGHTS;
         latencyVsExpected SIGNAL_WEIGHTS; tokenEfficiency SIGNAL_WEIGHTS ]
  /\ List.map weight (signals report) = [0.25; 0.2; 0.2; 0.15; 0.1; 0.1]
  /\ 0.25 + 0.2 + 0.2 + 0.15 + 0.1 + 0.1 == 1
  /\ overallScore report
     == 0.25 * score s1 + 0.2 * score s2 + 0.2 * score s3
        + 0.15 * score s4 + 0.1 * score s5 + 0.1 * score s6
  /\ Forall (fun s => 0 <= score s <= 10) (signals report)
  /\ 0 <= overallScore report <= 10.
Proof.
  intros report s1 s2 s3 s4 s5 s6.
  destruct (scoreCitationQuality_ok rt response) as [W1 B1].
  destruct (scoreConfidenceLanguage_ok rt response) as [W2 B2].
  destruct (scoreStructuralCompleteness_ok rt response query) as [W3 B3].
  destruct (scoreLengthAppropriateness_ok rt response query) as [W4 B4].
  destruct (scoreLatencyVsExpected_ok rt response query) as [W5 B5].
  destruct (scoreTokenEfficiency_ok rt response) as [W6 B6].
  fold s1 in W1, B1. fold s2 in W2, B2. fold s3 in W3, B3.
  fold s4 in W4, B4. fold s5 in W5, B5. fold s6 in W6, B6.
  assert (Hsum : overallScore report
                 = 0 + score s1 * weight s1 + score s2 * weight s2
                   + score s3 * weight s3 + score s4 * weight s4
                   + score s5 * weight s5 + score s6 * weight s6)
    by reflexivity.
  assert (Hsig : signals report = [s1; s2; s3; s4; s5; s6]) by reflexivity.
  rewrite W1, W2, W3, W4, W5, W6 in Hsum.
  split; [exact Hsig|]. rewrite Hsig. cbn [List.map].
  rewrite W1, W2, W3, W4, W5, W6.
  split; [reflexivity|]. split; [reflexivity|]. split; [reflexivity|].
  split; [rewrite Hsum; ring|].
  split; [repeat constructor; tauto|].
  rewrite Hsum. now apply weighted_sum_bounds.
Qed.

(** *** Grade and recommendation *)

(** The order of the grades and of the recommendations, worst first. *)
Definition gradeRank (g : Grade) : nat :=
  match g with F => 0 | D => 1 | C => 2 | B => 3 | A => 4 end.

Definition recommendationRank (r : Recommendation) : nat :=
  match r with reject => 0 | escalate => 1 | accept => 2 end.

Ltac compare_scores :=
  repeat match goal with
         | H : Num.geb _ _ = true |- _ => apply NumFacts.geb_le in H
         | H : Num.geb _ _ = false |- _ => apply NumFacts.geb_lt in H
         end.

Lemma toGrade_monotone s1 s2 :
  s1 <= s2 -> (gradeRank (toGrade s1) <= gradeRank (toGrade s2))%nat.
Proof.
  intro H. unfold toGrade.
  destruct (Num.geb s1 8.5) eqn:E1, (Num.geb s1 7.0) eqn:E2,
    (Num.geb s1 5.0) eqn:E3, (Num.geb s1 3.0) eqn:E4,
    (Num.geb s2 8.5) eqn:F1, (Num.geb s2 7.0) eqn:F2,
    (Num.geb s2 5.0) eqn:F3, (Num.geb s2 3.0) eqn:F4;
    simpl; try lia; compare_scores; exfalso; lra.
Qed.

Lemma toRecommendation_monotone s1 s2 query :
  s1 <= s2 ->
  (recommendationRank (toRecommendation s1 query)
   <= recommendationRank (toRecommendation s2 query))%nat.
Proof.
  intro H. unfold toRecommendation.
  destruct (cq_complexity query);
    match goal with
    | |- context [Num.geb s1 ?a] =>
        match goal with
        | |- context [if Num.geb s1 a then _ else if Num.geb s1 ?r then _ else _] =>
            destruct (Num.geb s1 a) eqn:E1, (Num.geb s1 r) eqn:E2,
              (Num.geb s2 a) eqn:F1, (Num.geb s2 r) eqn:F2
        end
    end;
    simpl; try lia; compare_scores; exfalso; lra.
Qed.

(** X27. The grade and the recommendation of a report follow its score
    coherently: a higher score never gets a worse grade or a worse
    recommendation; a response graded A is accepted and one graded F is
    rejected, for every complexity; and the confidence lies between 0.2
    and 1, whatever number [Math.sqrt] returns. *)
Theorem grade_and_recommendation_follow_the_score rt response query s1 s2 :
  let report := estimate rt response query in
  (0.2 <= confidence report /\ confidence report <= 1)
  /\ (grade report = A -> recommendation report = accept)
  /\ (grade report = F -> recommendation report = reject)
  /\ (s1 <= s2 ->
      (gradeRank (toGrade s1) <= gradeRank (toGrade s2))%nat
      /\ (recommendationRank (toRecommendation s1 query)
          <= recommendationRank (toRecommendation s2 query))%nat).
Proof.
  intro report. split; [|split; [|split]].
  - unfold report, estimate, computeConfidence. cbn [confidence].
    match goal with
    | |- 0.2 <= Num.max 0.2 (Num.min 1.0 ?x) /\ _ =>
        destruct (NumFacts.clamp_bounds 0.2 1.0 x) as [Hlo Hhi];
          [discriminate|]
    end.
    split; [exact Hlo|]. eapply Qle_trans; [exact Hhi|discriminate].
  - unfold report, estimate. cbn [grade recommendation].
    unfold toGrade, toRecommendation.
    destruct (Num.geb _ 8.5) eqn:E1; [|destruct (Num.geb _ 7.0);
      [discriminate|destruct (Num.geb _ 5.0);
        [discriminate|destruct (Num.geb _ 3.0); discriminate]]].
    intros _. compare_scores.
    destruct (cq_complexity query);
      match goal with
      | |- (if Num.geb ?x ?a then _ else _) = _ =>
          assert (Ha : Num.geb x a = true) by (apply NumFacts.geb_le; lra);
            now rewrite Ha
      end.
  - unfold report, estimate. cbn [grade recommendation].
    unfold toGrade, toRecommendation.
    destruct (Num.geb _ 8.5) eqn:E1; [discriminate|].
    destruct (Num.geb _ 7.0) eqn:E2; [discriminate|].
    destruct (Num.geb _ 5.0) eqn:E3; [discriminate|].
    destruct (Num.geb _ 3.0) eqn:E4; [discriminate|].
    intros _. compare_scores.
    destruct (cq_complexity query);
      match goal with
      | |- (if Num.geb ?x ?a then _ else if Num.geb ?x ?r then _ else _) = _ =>
          assert (Ha : Num.geb x a = false) by (apply NumFacts.geb_lt; lra);
            assert (Hr : Num.geb x r = false) by (apply NumFacts.geb_lt; lra);
            now rewrite Ha, Hr
      end.
  - intro H. split;
      [now apply toGrade_monotone | now apply toRecommendation_monotone].
Qed.

End QualityEstimatorFacts.

(* ------------------------------------------------------------------ *)
(** ** The buffer of the artifact manager *)

Module ArtifactsFacts.
Import Artifacts.

(** The artifacts [items], pushed one after the other. *)
Definition pushAll (items : list RoutingArtifact) (m : Manager) : Manager :=
  fold_left (fun m a => snd (push a m)) items m.

(** The references to the first [k] objects, the newest first. *)
Definition newestFirst (k : nat) : list Ref := rev (seq 0 k).

Lemma newestFirst_S k : newestFirst (S k) = k :: newestFirst k.
Proof.
  unfold newestFirst. rewrite seq_S, rev_app_distr. reflexivity.
Qed.

Lemma newestFirst_length k : List.length (newestFirst k) = k.
Proof. unfold newestFirst. now rewrite length_rev, length_seq. Qed.

(** The buffer holds the newest [M] of the [k] objects created so far. *)
Definition buffered (M k : nat) (m : Manager) : Prop :=
  List.length (heap m) = k
  /\ artifacts m = firstn M (newestFirst k)
  /\ emitted m = seq 0 k
  /\ M = Z.to_nat (maxArtifacts m)
  /\ (0 <= maxArtifacts m)%Z.

Lemma push_buffered a M k m :
  buffered M k m ->
  fst (push a m) = k
  /\ heap (snd (push a m)) = (heap m ++ [a])%list
  /\ buffered M (S k) (snd (push a m)).
Proof.
  intros (Hh & Ha & He & HM & Hpos). unfold push. cbv zeta. cbn [fst snd heap].
  split; [exact Hh|]. split; [reflexivity|].
  unfold buffered. cbn [heap artifacts emitted maxArtifacts].
  split; [rewrite length_app; simpl; lia|].
  split; [|split; [|split; [exact HM|exact Hpos]]].
  - rewrite Hh, Ha, newestFirst_S.
    assert (Hlen : List.length (k :: firstn M (newestFirst k))
                   = S (Nat.min M k)).
    { simpl. now rewrite length_firstn, newestFirst_length. }
    rewrite Hlen.
    destruct (maxArtifacts m <? Z.of_nat (S (Nat.min M k)))%Z eqn:E.
    + apply Z.ltb_lt in E. unfold Js.slice0.
      assert (En : (maxArtifacts m <? 0)%Z = false) by (apply Z.ltb_ge; lia).
      rewrite En, <- HM. destruct M as [|M']; [reflexivity|].
      rewrite !firstn_cons. f_equal. rewrite firstn_firstn. f_equal. lia.
    + apply Z.ltb_ge in E.
      assert (Hk : (k < M)%nat) by lia.
      destruct M as [|M']; [lia|]. rewrite firstn_cons. f_equal.
      rewrite !firstn_all2; [reflexivity| |];
        rewrite newestFirst_length; lia.
  - rewrite Hh, He, seq_S. reflexivity.
Qed.

Lemma pushAll_buffered items : forall M k m,
  buffered M k m ->
  heap (pushAll items m) = (heap m ++ items)%list
  /\ buffered M (k + List.length items) (pushAll items m).
Proof.
  unfold pushAll.
  induction items as [|a items IH]; intros M k m Hb;
    cbn [fold_left List.length].
  - rewrite app_nil_r, Nat.add_0_r. now split.
  - destruct (push_buffered a M k m Hb) as (_ & Hh & Hb').
    destruct (IH M (S k) _ Hb') as [Hh' Hb''].
    split.
    + now rewrite Hh', Hh, <- app_assoc.
    + now rewrite Nat.add_succ_r.
Qed.

(** X28. The buffer of the artifact manager holds the newest
    [maxArtifacts] artifacts, newest first: after [n] artifacts were
    pushed to a new manager its size is the smaller of [n] and
    [maxArtifacts], every push has emitted one event, in order, and
    [getRecent(limit)] returns the newest [limit] of the buffered
    artifacts, newest first. *)
Theorem buffer_holds_the_newest_artifacts max items limit :
  (0 <= max)%Z -> (0 <= limit)%Z ->
  let m := pushAll items (new max) in
  let n := List.length items in
  heap m = items
  /\ emitted m = seq 0 n
  /\ artifacts m = firstn (Z.to_nat max) (newestFirst n)
  /\ size m = Nat.min n (Z.to_nat max)
  /\ getRecent limit m
     = firstn (Nat.min (Z.to_nat limit) (Z.to_nat max)) (newestFirst n).
Proof.
  intros Hmax Hlimit m n.
  assert (H0 : buffered (Z.to_nat max) 0 (new max)).
  { unfold buffered, new. simpl. repeat split; try reflexivity.
    - now destruct (Z.to_nat max).
    - exact Hmax. }
  destruct (pushAll_buffered items _ _ _ H0) as [Hh (_ & Ha & He & _)].
  fold m in Hh, Ha, He. simpl in Hh, Ha, He. fold n in Ha, He.
  split; [exact Hh|]. split; [exact He|]. split; [exact Ha|]. split.
  - unfold size. rewrite Ha, length_firstn, newestFirst_length. lia.
  - unfold getRecent, Js.slice0.
    assert (En : (limit <? 0)%Z = false) by (apply Z.ltb_ge; lia).
    now rewrite En, Ha, firstn_firstn.
Qed.

(** An artifact of a cache hit. *)
Definition sample : RoutingArtifact :=
  {| id := "a1"; queryId := "q1"; art_timestamp := "2026-11-01T00:00:00Z";
     epochMs := 1793491200000; type := cache_hit;
     complexity_level := simple; complexity_score := 0.1;
     selected_provider := "openai"; selected_model := "gpt-4o-mini";
     art_estimatedCost := 0; actualCost := None; art_confidence := 1;
     art_reasoning := "Cache hit"; cascadeTrail := None;
     qualityReport := None; cache := None; budgetSnapshot := None;
     art_response := None; tags := ["cache"; "hit"; "simple"] |}.

Lemma buffer_holds_the_newest_artifacts_witness :
  let m := pushAll [sample; sample; sample] (new 2) in
  artifacts m = [2%nat; 1%nat]
  /\ size m = 2%nat
  /\ emitted m = [0%nat; 1%nat; 2%nat]
  /\ getRecent 1 m = [2%nat].
Proof.
  intro m.
  destruct (buffer_holds_the_newest_artifacts 2 [sample; sample; sample] 1)
    as (_ & He & Ha & Hs & Hr); [discriminate|discriminate|].
  split; [exact Ha|]. split; [exact Hs|]. split; [exact He|exact Hr].
Defined.

End ArtifactsFacts.

(* ------------------------------------------------------------------ *)
(** ** Retries and health of a provider *)

Module BaseProviderFacts.
Import BaseProvider.

Lemma backoffMs_capped random attempt baseMs cap :
  Helpers.backoffMs random attempt baseMs cap <= cap.
Proof. unfold Helpers.backoffMs. apply NumFacts.min_r. Qed.

Lemma errorRate_bounds (errors requests : Z) :
  (0 <= errors <= requests)%Z ->
  0 < inject_Z (errors + 1) / inject_Z (requests + 1) <= 1.
Proof.
  intros H.
  assert (Hpos : 0 < inject_Z (requests + 1)).
  { change 0 with (inject_Z 0). rewrite <- Zlt_Qlt. lia. }
  split.
  - apply Qlt_shift_div_l; [exact Hpos|]. rewrite Qmult_0_l.
    change 0 with (inject_Z 0). rewrite <- Zlt_Qlt. lia.
  - apply Qle_shift_div_r; [exact Hpos|]. rewrite Qmult_1_l.
    rewrite <- Zle_Qle. lia.
Qed.

Section WithEnv.
Variable env : Env.

(** The provider after one more call of [_chat]. *)
Definition called (req : ChatRequest) (model : string) (p : Provider)
  : Provider :=
  snd (rawChat env req model p).

Lemma rawChat_eq req model p :
  rawChat env req model p
  = (match rawAt env (List.length (rawCalls p)) req model with
     | inl response => Ok response
     | inr failure => Throw (thrown failure)
     end, called req model p).
Proof. reflexivity. Qed.

(** What [attempts] does with [_chat]: it makes [k + 1] calls for some
    [k] that is at most [remaining], of which the first [k] fail; it
    sleeps once after each of those, never longer than the cap; it
    returns the response of the last call, or, when that one failed too
    and no retry is left, throws what that call threw.  The health and
    the emitted events are left alone. *)
Lemma attempts_rawChat req model : forall retries attempt p,
  let n0 := List.length (rawCalls p) in
  let out := attempts env (rawChat env req model) attempt retries p in
  (health (snd out) = health p /\ name (snd out) = name p
   /\ emitted (snd out) = emitted p /\ dateReads (snd out) = dateReads p
   /\ perfReads (snd out) = perfReads p /\ uidReads (snd out) = uidReads p)
  /\ exists k,
       (k <= retries)%nat
       /\ List.length (rawCalls (snd out)) = (n0 + k + 1)%nat
       /\ (forall j, (j < k)%nat ->
             exists f, rawAt env (n0 + j) req model = inr f)
       /\ (exists delays,
             slept (snd out) = (slept p ++ delays)%list
             /\ List.length delays = k
             /\ Forall (fun d => d <= 30000) delays)
       /\ match fst out with
          | Ok response => rawAt env (n0 + k) req model = inl response
          | Throw err =>
              k = retries
              /\ exists f, rawAt env (n0 + k) req model = inr f
                           /\ err = thrown f
          end.
Proof.
  induction retries as [|retries IH]; intros attempt p n0 out.
  - unfold out. cbn [attempts]. rewrite rawChat_eq.
    destruct (rawAt env (List.length (rawCalls p)) req model) as [r|f] eqn:E;
      cbn [fst snd health name emitted rawCalls slept dateReads perfReads
           uidReads called rawChat];
      (split; [repeat split|]); exists 0%nat;
      (split; [lia|]);
      (split; [rewrite length_app; simpl; unfold n0; lia|]);
      (split; [intros j Hj; lia|]);
      (split; [exists []; rewrite app_nil_r; repeat split; constructor|]).
    + unfold n0. now rewrite Nat.add_0_r.
    + split; [reflexivity|]. exists f. unfold n0.
      now rewrite Nat.add_0_r.
  - unfold out. cbn [attempts]. rewrite rawChat_eq.
    destruct (rawAt env (List.length (rawCalls p)) req model) as [r|f] eqn:E.
    + cbn [fst snd health name emitted rawCalls slept dateReads perfReads
           uidReads called rawChat].
      (split; [repeat split|]). exists 0%nat.
      split; [lia|].
      split; [rewrite length_app; simpl; unfold n0; lia|].
      split; [intros j Hj; lia|].
      split; [exists []; rewrite app_nil_r; repeat split; constructor|].
      unfold n0. now rewrite Nat.add_0_r.
    + unfold backoff, random, sleep.
      unfold Monad.bind, Monad.modify, Monad.ret.
      cbn [fst snd health name emitted rawCalls slept dateReads perfReads
           uidReads randomReads called rawChat].
      match goal with
      | |- context [attempts env _ (S attempt) retries ?q] =>
          specialize (IH (S attempt) q); set (p2 := q) in *
      end.
      cbv zeta in IH.
      destruct IH as ((Hh & Hn & He & Hd & Hp & Hu)
                      & k & Hk & Hcalls & Hfail & (delays & Hs & Hl & Hcap)
                      & Hout).
      assert (Hlen : List.length (rawCalls p2) = S n0).
      { unfold p2. cbn [rawCalls called rawChat snd]. rewrite length_app. simpl.
        unfold n0. lia. }
      rewrite Hlen in *.
      split; [now rewrite Hh, Hn, He, Hd, Hp, Hu|].
      exists (S k). split; [lia|]. split; [lia|]. split; [|split].
      * intros [|j] Hj.
        -- exists f. unfold n0. now rewrite Nat.add_0_r.
        -- destruct (Hfail j ltac:(lia)) as [f' Hf']. exists f'.
           now rewrite Nat.add_succ_r.
      * eexists (_ :: delays). split; [|split].
        -- rewrite Hs. unfold p2. cbn [slept].
           rewrite <- app_assoc. reflexivity.
        -- simpl. now rewrite Hl.
        -- constructor; [apply backoffMs_capped|exact Hcap].
      * rewrite Nat.add_succ_r.
        destruct (fst (attempts env (rawChat env req model) (S attempt)
                         retries p2)).
        -- exact Hout.
        -- destruct Hout as [-> Hf]. split; [reflexivity|exact Hf].
Qed.

(** X29. [withRetry] calls [_chat] until a call succeeds, at most
    [maxRetries + 1] times: it returns the response of the first call
    that succeeds; it throws, and then what the last call threw, only
    after [maxRetries + 1] failed calls; between two calls it sleeps
    once, never longer than 30000 ms; it does not touch the health. *)
Theorem withRetry_returns_the_first_success req model maxRetries p :
  let n0 := List.length (rawCalls p) in
  let out := withRetry env (rawChat env req model) maxRetries p in
  health (snd out) = health p
  /\ exists k,
       (k <= maxRetries)%nat
       /\ List.length (rawCalls (snd out)) = (n0 + k + 1)%nat
       /\ (forall j, (j < k)%nat ->
             exists f, rawAt env (n0 + j) req model = inr f)
       /\ (exists delays,
             slept (snd out) = (slept p ++ delays)%list
             /\ List.length delays = k
             /\ Forall (fun d => d <= 30000) delays)
       /\ match fst out with
          | Ok response => rawAt env (n0 + k) req model = inl response
          | Throw err =>
              k = maxRetries
              /\ exists f, rawAt env (n0 + k) req model = inr f
                           /\ err = thrown f
          end.
Proof.
  intros n0 out.
  destruct (attempts_rawChat req model maxRetries 0 p) as [[Hh _] H].
  split; [exact Hh|exact H].
Qed.

(** X30. One [chat] counts one request.  When it returns, the response
    carries the id of the request when it has one, is no cache hit and
    reports the latency stored in the health, the provider is healthy
    again whatever its error rate, and the raw response was emitted.
    When it throws, it throws a [ProviderError] (the subclass's own, or
    its [Error] under the provider's name) after three failed calls, one
    more error is counted, the error rate is the counted errors over the
    counted requests, lies in (0, 1], and the provider is unhealthy above
    0.3 and degraded otherwise, never healthy. *)
Theorem chat_tracks_health req model p :
  (0 <= totalErrors (health p) <= totalRequests (health p))%Z ->
  let out := chat env req model p in
  let h := health p in
  let h' := health (snd out) in
  totalRequests h' = (totalRequests h + 1)%Z
  /\ (0 <= totalErrors h' <= totalRequests h')%Z
  /\ name (snd out) = name p
  /\ (List.length (rawCalls (snd out)) <= List.length (rawCalls p) + 3)%nat
  /\ match fst out with
     | Ok response =>
         totalErrors h' = totalErrors h
         /\ status h' = healthy
         /\ errorRate h' = errorRate h
         /\ cacheHit response = false
         /\ responseTimeMs response = latencyMs h'
         /\ (forall id, req_id req = Some id -> resp_id response = id)
         /\ exists raw k,
              rawAt env (List.length (rawCalls p) + k) req model = inl raw
              /\ In (ev_response raw) (emitted (snd out))
              /\ content response = content raw
              /\ tokens response = tokens raw
     | Throw err =>
         totalErrors h' = (totalErrors h + 1)%Z
         /\ List.length (rawCalls (snd out))
            = (List.length (rawCalls p) + 3)%nat
         /\ (exists f,
               rawAt env (List.length (rawCalls p) + 2) req model = inr f
               /\ err = match f with
                        | PlainError message =>
                            ProviderError (providerString (name p)) message
                        | OwnProviderError provider message =>
                            ProviderError provider message
                        end)
         /\ errorRate h'
            = inject_Z (totalErrors h') / inject_Z (totalRequests h')
         /\ 0 < errorRate h' <= 1
         /\ status h'
            = (if Num.gtb (errorRate h') 0.3 then unhealthy else degraded)
         /\ In (ev_error err) (emitted (snd out))
     end.
Proof.
  intros Hinv out h h'. unfold h', h, out. clear out h h'.
  unfold chat, updateHealth, emit, dateNow, perfNow, uid, Monad.try_catch.
  unfold Monad.bind, Monad.modify, Monad.get, Monad.ret, Monad.throw.
  destruct (req_id req) as [id|] eqn:Eid;
    cbn [fst snd health name emitted rawCalls slept dateReads perfReads
         uidReads randomReads set_health].
  all: match goal with
       | |- context [withRetry env _ 2 ?q] => set (p2 := q) in *
       end;
    pose proof (attempts_rawChat req model 2 0 p2) as H; cbv zeta in H;
    unfold withRetry;
    destruct (attempts env (rawChat env req model) 0 2 p2)
      as [[raw|err] p3] eqn:E3;
    cbn [fst snd] in H;
    destruct H as ((Hh & Hn & He & Hd & Hp & Hu)
                   & k & Hk & Hcalls & Hfail & (delays & Hs & Hl & Hcap)
                   & Hout);
    cbn [fst snd health name emitted rawCalls slept dateReads perfReads
         uidReads randomReads set_health status latencyMs lastChecked
         errorRate totalRequests totalErrors cacheHit responseTimeMs
         resp_id content tokens];
    rewrite ?Hh, ?Hn; unfold p2 in Hcalls, Hout, Hh, Hn |- *;
    cbn [fst snd health name emitted rawCalls slept dateReads perfReads
         uidReads randomReads set_health status latencyMs lastChecked
         errorRate totalRequests totalErrors] in Hcalls, Hout, Hh, Hn |- *.
  - repeat split; try reflexivity; try lia.
    + intros id0 [= ->]. reflexivity.
    + exists raw, k. split; [exact Hout|]. split; [|split; reflexivity].
      apply in_or_app. right. left. reflexivity.
  - destruct Hout as (-> & f & Hf & ->).
    pose proof (errorRate_bounds _ _ Hinv) as [Hlo Hhi].
    repeat split; try reflexivity; try lia; try assumption.
    + exists f. split; [exact Hf|]. destruct f; reflexivity.
    + apply in_or_app. right. left. reflexivity.
  - repeat split; try reflexivity; try lia.
    + intros id0 [=].
    + exists raw, k. split; [exact Hout|]. split; [|split; reflexivity].
      apply in_or_app. right. left. reflexivity.
  - destruct Hout as (-> & f & Hf & ->).
    pose proof (errorRate_bounds _ _ Hinv) as [Hlo Hhi].
    repeat split; try reflexivity; try lia; try assumption.
    + exists f. split; [exact Hf|]. destruct f; reflexivity.
    + apply in_or_app. right. left. reflexivity.
Qed.

End WithEnv.

(** A provider whose service is down, and a request without an id. *)
Definition downEnv : Env :=
  {| dateAt := fun n => Z.of_nat n;
     perfAt := fun n => inject_Z (Z.of_nat n);
     randomAt := fun _ => 0;
     uuidAt := fun _ => "q-1"%string;
     rawAt := fun _ _ _ => inr (PlainError "unreachable");
     otherMessage := fun _ => EmptyString |}.

Definition question : ChatRequest :=
  {| req_id := None; req_content := "what is new"%string;
     systemPrompt := None; maxTokens := None; temperature := None |}.

Lemma chat_tracks_health_witness :
  let out := chat downEnv question "sonar" (new perplexity 0) in
  totalRequests (health (snd out)) = 1%Z
  /\ (0 <= totalErrors (health (snd out))
      <= totalRequests (health (snd out)))%Z.
Proof.
  intro out.
  destruct (chat_tracks_health downEnv question "sonar" (new perplexity 0))
    as (Hr & Hi & _); [simpl; lia|].
  split; [exact Hr|exact Hi].
Defined.

End BaseProviderFacts.

(* ------------------------------------------------------------------ *)
(** ** The budget tracker *)

Module BudgetTrackerFacts.
Import BudgetTracker.

(** The sum of [totalCost] over a list of cost records. *)
Definition total (cs : list ActualCost) : Q :=
  fold_right (fun c acc => totalCost c + acc) 0 cs.

Lemma reduce_sum cs acc :
  fold_left (fun sum c => sum + totalCost c) cs acc == acc + total cs.
Proof.
  revert acc. induction cs as [|c cs IH]; intro acc; simpl.
  - ring.
  - rewrite IH. ring.
Qed.

Lemma max_0_comp x y : x == y -> Num.max 0 x == Num.max 0 y.
Proof.
  intro H. unfold Num.max.
  destruct (Qle_bool 0 x) eqn:Ex, (Qle_bool 0 y) eqn:Ey;
    try exact H; try reflexivity.
  - apply Qle_bool_iff in Ex. rewrite H in Ex.
    apply Qle_bool_iff in Ex. congruence.
  - apply Qle_bool_iff in Ey. rewrite <- H in Ey.
    apply Qle_bool_iff in Ey. congruence.
Qed.

Section WithRuntime.
Variable rt : Runtime.

(** *** What the alert check leaves alone *)

Lemma fireAlert_costs a st ch t :
  costs (fireAlert rt a st ch t) = costs t
  /\ config (fireAlert rt a st ch t) = config t
  /\ alertsFired (fireAlert rt a st ch t) = alertsFired t.
Proof.
  unfold fireAlert. destruct a; simpl; auto.
  destruct (enabled _); simpl; auto.
Qed.

Lemma checkThreshold_costs st t th :
  costs (checkThreshold rt st t th) = costs t
  /\ config (checkThreshold rt st t th) = config t.
Proof.
  unfold checkThreshold.
  destruct (_ && _); [|auto].
  destruct (fireAlert_costs (action th) st (channels th)
              (set_alertsFired (add (alertKey th) (alertsFired t)) t))
    as (-> & -> & _).
  auto.
Qed.

Lemma fold_checkThreshold_costs st ths t :
  costs (fold_left (checkThreshold rt st) ths t) = costs t
  /\ config (fold_left (checkThreshold rt st) ths t) = config t.
Proof.
  revert t. induction ths as [|th ths IH]; intro t; simpl; [auto|].
  destruct (IH (checkThreshold rt st t th)) as [-> ->].
  apply checkThreshold_costs.
Qed.

Lemma checkAlerts_costs now t :
  costs (checkAlerts rt now t) = costs t
  /\ config (checkAlerts rt now t) = config t.
Proof. unfold checkAlerts. apply fold_checkThreshold_costs. Qed.

Lemma recordCost_costs now c t :
  costs (recordCost rt now c t) = (costs t ++ [c])%list
  /\ config (recordCost rt now c t) = config t.
Proof.
  unfold recordCost.
  destruct (checkAlerts_costs now (set_costs (costs t ++ [c])%list t))
    as [-> ->].
  auto.
Qed.

(** A sequence of [recordCost] events, each with its clock reading. *)
Definition recordAll (events : list (Z * ActualCost)) : list Op :=
  List.map (fun e => OpRecordCost (fst e) (snd e)) events.

Lemma recordAll_costs events t :
  costs (run rt (recordAll events) t)
  = (costs t ++ List.map snd events)%list
  /\ config (run rt (recordAll events) t) = config t.
Proof.
  unfold run. revert t.
  induction events as [|[now c] events IH]; intro t.
  - cbn. now rewrite app_nil_r.
  - unfold recordAll. cbn [List.map fold_left step fst snd].
    fold (recordAll events).
    destruct (IH (recordCost rt now c t)) as [-> ->].
    destruct (recordCost_costs now c t) as [-> ->].
    now rewrite <- app_assoc.
Qed.

(** *** The status of a period *)

Lemma getStatus_fields now period t :
  let st := getStatus rt now period t in
  let inside := filter (inPeriod (periodStart st) (periodEnd st)) (costs t) in
  bs_period st = period
  /\ limit st = getLimit (config t) period
  /\ (periodStart st, periodEnd st) = getPeriodBounds rt period now
  /\ spent st = Num.roundTo 1000000 (total inside)
  /\ remaining st
     = Num.roundTo 1000000 (Num.max 0 (limit st - total inside))
  /\ percentUsed st
     = Num.roundTo 100
         (if Num.gtb (limit st) 0
          then (fold_left (fun sum c => sum + totalCost c) inside 0
                / limit st) * 100
          else 0).
Proof.
  unfold getStatus. destruct (getPeriodBounds rt period now) as [s e].
  simpl. repeat split.
  - apply NumFacts.roundTo_comp. rewrite reduce_sum. ring.
  - apply NumFacts.roundTo_comp. apply max_0_comp.
    rewrite reduce_sum. ring.
Qed.

(** C4. After any sequence of [recordCost] events on a new tracker, the
    status of a period reports as [spent] the sum of [totalCost] over
    exactly the recorded costs whose timestamp lies in [periodStart,
    periodEnd) of that period, rounded to micro-USD, and as [remaining]
    the rounded rest of the limit; the bounds are those of the period at
    the time of the call. *)
Theorem getStatus_spent_is_period_sum cfg events now period :
  let t := run rt (recordAll events) (new cfg) in
  let st := getStatus rt now period t in
  let recorded := List.map snd events in
  let inside :=
    filter (fun c => (periodStart st <=? timestamp c)%Z
                     && (timestamp c <? periodEnd st)%Z) recorded in
  (periodStart st, periodEnd st) = getPeriodBounds rt period now
  /\ spent st = Num.roundTo 1000000 (total inside)
  /\ remaining st
     = Num.roundTo 1000000 (Num.max 0 (limit st - total inside)).
Proof.
  intros t st recorded inside.
  destruct (getStatus_fields now period t) as (_ & _ & Hb & Hs & Hr & _).
  fold st in Hb, Hs, Hr.
  assert (Hc : costs t = recorded).
  { unfold t. destruct (recordAll_costs events (new cfg)) as [-> _].
    reflexivity. }
  rewrite Hc in Hs, Hr.
  split; [exact Hb|]. split; [exact Hs | exact Hr].
Qed.

(** *** The emergency latch *)

Lemma AlertAction_eqb_eq a b : AlertAction_eqb a b = true -> a = b.
Proof. destruct a, b; simpl; congruence. Qed.

Lemma AlertKey_eqb_refl k : AlertKey_eqb k k = true.
Proof.
  unfold AlertKey_eqb. apply andb_true_iff. split.
  - apply Qeq_bool_iff. reflexivity.
  - destruct (snd k); reflexivity.
Qed.

Lemma has_app k s1 s2 : has k (s1 ++ s2)%list = has k s1 || has k s2.
Proof. unfold has. apply existsb_app. Qed.

Lemma has_add k k' s : has k (add k' s) = has k s || AlertKey_eqb k k'
                       \/ has k (add k' s) = has k s.
Proof.
  unfold add. destruct (has k' s); [now right|].
  left. rewrite has_app. simpl. now rewrite orb_false_r.
Qed.

Lemma has_add_same k s : has k (add k s) = true.
Proof.
  unfold add. destruct (has k s) eqn:E; [exact E|].
  rewrite has_app. simpl. rewrite AlertKey_eqb_refl.
  now rewrite orb_true_r.
Qed.

Lemma has_add_mono k k' s : has k s = true -> has k (add k' s) = true.
Proof.
  intro H. unfold add. destruct (has k' s); [exact H|].
  rewrite has_app, H. reflexivity.
Qed.

Lemma fireAlert_latch a st ch t :
  emergencyModeActive t = true ->
  emergencyModeActive (fireAlert rt a st ch t) = true.
Proof.
  intro H. unfold fireAlert. destruct a; simpl; auto.
  destruct (enabled _); simpl; auto.
Qed.

Lemma fireAlert_emergency st ch t :
  enabled (emergencyMode (config t)) = true ->
  emergencyModeActive (fireAlert rt act_emergency_mode st ch t) = true.
Proof. intro H. unfold fireAlert. rewrite H. reflexivity. Qed.

Lemma checkThreshold_latch st t th :
  emergencyModeActive t = true ->
  emergencyModeActive (checkThreshold rt st t th) = true.
Proof.
  intro H. unfold checkThreshold. destruct (_ && _); [|exact H].
  now apply fireAlert_latch.
Qed.

Lemma fold_checkThreshold_latch st ths t :
  emergencyModeActive t = true ->
  emergencyModeActive (fold_left (checkThreshold rt st) ths t) = true.
Proof.
  revert t. induction ths as [|th ths IH]; intros t H; simpl; [exact H|].
  apply IH. now apply checkThreshold_latch.
Qed.

Lemma checkAlerts_latch now t :
  emergencyModeActive t = true ->
  emergencyModeActive (checkAlerts rt now t) = true.
Proof. apply fold_checkThreshold_latch. Qed.

(** Every operation but [resetAlerts()] and [setEmergencyMode(false)]
    keeps a latch that is set. *)
Lemma step_latch op t :
  op <> OpResetAlerts -> op <> OpSetEmergencyMode false ->
  emergencyModeActive t = true ->
  emergencyModeActive (step rt op t) = true.
Proof.
  intros Hreset Hoff H. destruct op as [now c|active|now cfg|now|]; simpl.
  - now apply checkAlerts_latch.
  - destruct active; [reflexivity|congruence].
  - now apply checkAlerts_latch.
  - exact H.
  - congruence.
Qed.

Lemma checkThreshold_has k st t th :
  has k (alertsFired t) = true ->
  has k (alertsFired (checkThreshold rt st t th)) = true.
Proof.
  intro H. unfold checkThreshold. destruct (_ && _); [|exact H].
  destruct (fireAlert_costs (action th) st (channels th)
              (set_alertsFired (add (alertKey th) (alertsFired t)) t))
    as (_ & _ & ->).
  simpl. now apply has_add_mono.
Qed.

Lemma fold_checkThreshold_has k st ths t :
  has k (alertsFired t) = true ->
  has k (alertsFired (fold_left (checkThreshold rt st) ths t)) = true.
Proof.
  revert t. induction ths as [|th ths IH]; intros t H; simpl; [exact H|].
  apply IH. now apply checkThreshold_has.
Qed.

(** A threshold that the status has reached is marked as fired once it
    has been looked at. *)
Lemma checkThreshold_marks st t th :
  percentage th <= percentUsed st ->
  has (alertKey th) (alertsFired (checkThreshold rt st t th)) = true.
Proof.
  intro H. apply NumFacts.geb_le in H. unfold checkThreshold. rewrite H.
  destruct (has (alertKey th) (alertsFired t)) eqn:E; simpl; [exact E|].
  destruct (fireAlert_costs (action th) st (channels th)
              (set_alertsFired (add (alertKey th) (alertsFired t)) t))
    as (_ & _ & ->).
  simpl. apply has_add_same.
Qed.

Lemma fold_checkThreshold_marks st ths t th :
  In th ths -> percentage th <= percentUsed st ->
  has (alertKey th)
      (alertsFired (fold_left (checkThreshold rt st) ths t)) = true.
Proof.
  revert t. induction ths as [|th0 ths IH]; intros t Hin H; simpl.
  - destruct Hin.
  - destruct Hin as [->|Hin].
    + apply fold_checkThreshold_has. now apply checkThreshold_marks.
    + now apply IH.
Qed.

(** While the thresholds are looked at, the key of an [emergency_mode]
    threshold that was not marked before is marked only together with
    the latch. *)
Definition marked_implies_latched (k : AlertKey) (t : Tracker) : Prop :=
  has k (alertsFired t) = true -> emergencyModeActive t = true.

Lemma checkThreshold_marked_implies_latched k st t th :
  snd k = act_emergency_mode ->
  enabled (emergencyMode (config t)) = true ->
  marked_implies_latched k t ->
  marked_implies_latched k (checkThreshold rt st t th).
Proof.
  intros Hk Hen Inv. unfold marked_implies_latched, checkThreshold.
  destruct (_ && _) eqn:Hcond; [|exact Inv].
  set (t1 := set_alertsFired (add (alertKey th) (alertsFired t)) t).
  destruct (fireAlert_costs (action th) st (channels th) t1)
    as (_ & _ & ->).
  simpl. intro Hhas.
  destruct (has_add k (alertKey th) (alertsFired t)) as [E|E];
    rewrite E in Hhas.
  - apply orb_true_iff in Hhas. destruct Hhas as [Hold|Hsame].
    + apply fireAlert_latch. simpl. now apply Inv.
    + unfold AlertKey_eqb in Hsame. apply andb_true_iff in Hsame.
      destruct Hsame as [_ Ha]. apply AlertAction_eqb_eq in Ha.
      simpl in Ha. rewrite <- Ha, Hk.
      apply fireAlert_emergency. exact Hen.
  - apply fireAlert_latch. simpl. now apply Inv.
Qed.

Lemma fold_checkThreshold_marked_implies_latched k st ths t :
  snd k = act_emergency_mode ->
  enabled (emergencyMode (config t)) = true ->
  marked_implies_latched k t ->
  marked_implies_latched k (fold_left (checkThreshold rt st) ths t).
Proof.
  revert t. induction ths as [|th ths IH]; intros t Hk Hen Inv; simpl;
    [exact Inv|].
  apply IH; [exact Hk| |now apply checkThreshold_marked_implies_latched].
  destruct (checkThreshold_costs st t th) as [_ ->]. exact Hen.
Qed.

(** The alert check sets the latch when the daily status has reached an
    [emergency_mode] threshold whose key has not fired, and emergency mode
    is enabled. *)
Lemma checkAlerts_sets_latch now t th :
  In th (alertThresholds (config t)) ->
  action th = act_emergency_mode ->
  enabled (emergencyMode (config t)) = true ->
  percentage th <= percentUsed (getStatus rt now daily t) ->
  has (alertKey th) (alertsFired t) = false ->
  emergencyModeActive (checkAlerts rt now t) = true.
Proof.
  intros Hin Hact Hen Hpct Hnew. unfold checkAlerts.
  apply (fold_checkThreshold_marked_implies_latched (alertKey th)).
  - exact Hact.
  - exact Hen.
  - unfold marked_implies_latched. congruence.
  - now apply fold_checkThreshold_marks.
Qed.

(** C7, as amended. A latch that is set stays set under every operation
    other than [resetAlerts()] and [setEmergencyMode(false)]; and
    [recordCost] and [updateConfig] set it when, in the daily status they
    check, [percentUsed] has reached a threshold of the configuration
    whose action is [emergency_mode] and whose key has not fired yet,
    provided emergency mode is enabled in the configuration. *)
Theorem emergency_latch op t :
  (op <> OpResetAlerts -> op <> OpSetEmergencyMode false ->
   emergencyModeActive t = true ->
   emergencyModeActive (step rt op t) = true)
  /\ (forall now cost th,
        op = OpRecordCost now cost ->
        In th (alertThresholds (config t)) ->
        action th = act_emergency_mode ->
        enabled (emergencyMode (config t)) = true ->
        percentage th
        <= percentUsed
             (getStatus rt now daily (set_costs (costs t ++ [cost])%list t)) ->
        has (alertKey th) (alertsFired t) = false ->
        emergencyModeActive (step rt op t) = true)
  /\ (forall now cfg th,
        op = OpUpdateConfig now cfg ->
        let c := spread (config t) cfg in
        In th (alertThresholds c) ->
        action th = act_emergency_mode ->
        enabled (emergencyMode c) = true ->
        percentage th
        <= percentUsed (getStatus rt now daily (set_config c t)) ->
        emergencyModeActive (step rt op t) = true).
Proof.
  split; [apply step_latch|]. split.
  - intros now cost th -> Hin Hact Hen Hpct Hnew. simpl. unfold recordCost.
    now apply (checkAlerts_sets_latch now _ th).
  - intros now cfg th -> c Hin Hact Hen Hpct. simpl. unfold updateConfig.
    fold c. now apply (checkAlerts_sets_latch now _ th).
Qed.

(** *** A limit of zero *)

Lemma percentUsed_zero_limit now period t :
  getLimit (config t) period == 0 ->
  percentUsed (getStatus rt now period t) == 0.
Proof.
  intro H.
  destruct (getStatus_fields now period t) as (_ & Hl & _ & _ & _ & ->).
  rewrite Hl.
  assert (E : Num.gtb (getLimit (config t) period) 0 = false).
  { apply NumFacts.gtb_le. rewrite H. apply Qle_refl. }
  rewrite E. apply NumFacts.roundTo_0.
Qed.

Lemma checkThreshold_below st t th :
  percentUsed st < percentage th -> checkThreshold rt st t th = t.
Proof.
  intro H. apply NumFacts.geb_lt in H. unfold checkThreshold.
  now rewrite H.
Qed.

Lemma fold_checkThreshold_below st ths t :
  Forall (fun th => percentUsed st < percentage th) ths ->
  fold_left (checkThreshold rt st) ths t = t.
Proof.
  induction 1 as [|th ths H _ IH]; simpl; [reflexivity|].
  now rewrite (checkThreshold_below st t th H).
Qed.

(** C10, as amended. With a limit of 0 for a period [getStatus] reports
    [percentUsed = 0] for it.  With a daily limit of 0, whatever has been
    spent: budget admission, which rejects at [percentUsed >= 100], does
    not reject; and the alert check fires no threshold whose percentage is
    above 0, so when all thresholds are above 0 it changes nothing. *)
Theorem zero_limit_status now period t :
  (getLimit (config t) period == 0 ->
   percentUsed (getStatus rt now period t) == 0)
  /\ (dailyLimit (config t) == 0 ->
      Num.geb (percentUsed (getStatus rt now daily t)) 100 = false
      /\ (forall th, 0 < percentage th ->
            checkThreshold rt (getStatus rt now daily t) t th = t)
      /\ (Forall (fun th => 0 < percentage th) (alertThresholds (config t)) ->
          checkAlerts rt now t = t)).
Proof.
  split; [apply percentUsed_zero_limit|].
  intro H.
  assert (E : percentUsed (getStatus rt now daily t) == 0)
    by (now apply percentUsed_zero_limit).
  split; [|split].
  - apply NumFacts.geb_lt. rewrite E. reflexivity.
  - intros th Hth. apply checkThreshold_below. now rewrite E.
  - intro Hall. unfold checkAlerts. apply fold_checkThreshold_below.
    eapply Forall_impl; [|exact Hall]. intros th Hth. simpl in Hth.
    now rewrite E.
Qed.

(** *** What the alert check marks *)

Lemma AlertKey_eqb_true a b :
  AlertKey_eqb a b = true <-> fst a == fst b /\ snd a = snd b.
Proof.
  unfold AlertKey_eqb. rewrite andb_true_iff, Qeq_bool_iff. split.
  - intros [Hq Ha]. split; [exact Hq|now apply AlertAction_eqb_eq].
  - intros [Hq ->]. split; [exact Hq|]. destruct (snd b); reflexivity.
Qed.

Lemma AlertKey_eqb_trans a b c :
  AlertKey_eqb a b = true -> AlertKey_eqb b c = true ->
  AlertKey_eqb a c = true.
Proof.
  rewrite !AlertKey_eqb_true. intros [H1 H2] [H3 H4].
  split; [now rewrite H1|congruence].
Qed.

Lemma has_true k s :
  has k s = true <-> exists k', In k' s /\ AlertKey_eqb k k' = true.
Proof. unfold has. apply existsb_exists. Qed.

Lemma has_add_eq k k' s :
  has k (add k' s) = has k s || AlertKey_eqb k k'.
Proof.
  unfold add. destruct (has k' s) eqn:E.
  - destruct (AlertKey_eqb k k') eqn:Ek; [|now rewrite orb_false_r].
    rewrite orb_true_r. apply has_true in E.
    destruct E as (k0 & Hin & Hk0). apply has_true. exists k0.
    split; [exact Hin|]. exact (AlertKey_eqb_trans _ _ _ Ek Hk0).
  - rewrite has_app. simpl. now rewrite orb_false_r.
Qed.

Lemma checkThreshold_fired k st t th :
  has k (alertsFired (checkThreshold rt st t th))
  = has k (alertsFired t)
    || (Num.geb (percentUsed st) (percentage th)
        && AlertKey_eqb k (alertKey th)).
Proof.
  unfold checkThreshold.
  destruct (Num.geb (percentUsed st) (percentage th)); simpl;
    [|now rewrite orb_false_r].
  destruct (has (alertKey th) (alertsFired t)) eqn:E; simpl.
  - destruct (AlertKey_eqb k (alertKey th)) eqn:Ek;
      [|now rewrite orb_false_r].
    rewrite orb_true_r. apply has_true in E.
    destruct E as (k0 & Hin & Hk0). apply has_true. exists k0.
    split; [exact Hin|]. exact (AlertKey_eqb_trans _ _ _ Ek Hk0).
  - destruct (fireAlert_costs (action th) st (channels th)
                (set_alertsFired (add (alertKey th) (alertsFired t)) t))
      as (_ & _ & ->).
    simpl. apply has_add_eq.
Qed.

Lemma fold_checkThreshold_fired k st ths t :
  has k (alertsFired (fold_left (checkThreshold rt st) ths t))
  = has k (alertsFired t)
    || existsb (fun th => Num.geb (percentUsed st) (percentage th)
                          && AlertKey_eqb k (alertKey th)) ths.
Proof.
  revert t. induction ths as [|th ths IH]; intro t; simpl.
  - now rewrite orb_false_r.
  - rewrite IH, checkThreshold_fired. now rewrite orb_assoc.
Qed.

(** X11. The alert check adds to the fired set exactly the keys of the
    configured thresholds that the daily status has reached: afterwards a
    key is in the set when it was before, or when it is the key
    [percentage-action] of a threshold with [percentUsed >= percentage],
    and not otherwise. *)
Theorem checkAlerts_marks_reached_thresholds now t k :
  has k (alertsFired (checkAlerts rt now t))
  = has k (alertsFired t)
    || existsb
         (fun th =>
            Num.geb (percentUsed (getStatus rt now daily t)) (percentage th)
            && AlertKey_eqb k (alertKey th))
         (alertThresholds (config t)).
Proof. unfold checkAlerts. apply fold_checkThreshold_fired. Qed.

Lemma getStatus_same now period t t' :
  costs t' = costs t -> config t' = config t ->
  getStatus rt now period t' = getStatus rt now period t.
Proof. intros Hc Hg. unfold getStatus. now rewrite Hc, Hg. Qed.

Lemma fold_checkThreshold_nothing_new st ths t :
  (forall th, In th ths ->
     Num.geb (percentUsed st) (percentage th) = true ->
     has (alertKey th) (alertsFired t) = true) ->
  fold_left (checkThreshold rt st) ths t = t.
Proof.
  induction ths as [|th ths IH]; intro H; simpl; [reflexivity|].
  assert (E : checkThreshold rt st t th = t).
  { unfold checkThreshold.
    destruct (Num.geb (percentUsed st) (percentage th)) eqn:Eg;
      [|reflexivity].
    rewrite (H th (or_introl eq_refl) Eg). reflexivity. }
  rewrite E. apply IH. intros th' Hin. apply H. now right.
Qed.

(** X12. An alert fires once: checking the alerts again at the same
    moment, after any check, fires nothing and writes nothing, the
    tracker is left as it is. *)
Theorem checkAlerts_idempotent now t :
  checkAlerts rt now (checkAlerts rt now t) = checkAlerts rt now t.
Proof.
  destruct (checkAlerts_costs now t) as [Hc Hg].
  unfold checkAlerts at 1.
  rewrite (getStatus_same now daily t (checkAlerts rt now t) Hc Hg), Hg.
  apply fold_checkThreshold_nothing_new. intros th Hin Hreached.
  unfold checkAlerts. apply fold_checkThreshold_marks; [exact Hin|].
  now apply NumFacts.geb_le.
Qed.

(** *** Bounds of the status *)

Lemma total_not_negative cs :
  Forall (fun c => 0 <= totalCost c) cs -> 0 <= total cs.
Proof.
  induction 1 as [|c cs Hc _ IH]; simpl; [apply Qle_refl|]. lra.
Qed.

(** X13. [remaining] is never negative, and it is 0 once the costs of
    the period have reached the limit; when no recorded cost is
    negative, [spent] and [percentUsed] are not negative either. *)
Theorem status_not_negative now period t :
  let st := getStatus rt now period t in
  let inside := filter (inPeriod (periodStart st) (periodEnd st)) (costs t) in
  0 <= remaining st
  /\ (limit st <= total inside -> remaining st == 0)
  /\ (Forall (fun c => 0 <= totalCost c) (costs t) ->
      0 <= spent st /\ 0 <= percentUsed st).
Proof.
  intros st inside.
  destruct (getStatus_fields now period t) as (_ & _ & _ & Hs & Hr & Hp).
  fold st in Hs, Hr, Hp. fold inside in Hs, Hr, Hp.
  split; [|split].
  - rewrite Hr. apply NumFacts.roundTo_not_negative; [reflexivity|].
    apply NumFacts.max_l.
  - intro Hover. rewrite Hr.
    assert (E : Num.max 0 (limit st - total inside) == 0).
    { unfold Num.max.
      destruct (Qle_bool 0 (limit st - total inside)) eqn:E;
        [|reflexivity].
      apply Qle_bool_iff in E. lra. }
    rewrite (NumFacts.roundTo_comp _ _ _ E). apply NumFacts.roundTo_0.
  - intro Hall.
    assert (Hin : 0 <= total inside).
    { apply total_not_negative. apply Forall_forall. intros c Hc.
      apply filter_In in Hc. rewrite Forall_forall in Hall.
      now apply Hall. }
    split.
    + rewrite Hs. now apply NumFacts.roundTo_not_negative.
    + rewrite Hp. apply NumFacts.roundTo_not_negative; [reflexivity|].
      destruct (Num.gtb (limit st) 0) eqn:El; [|apply Qle_refl].
      apply NumFacts.gtb_lt in El. rewrite reduce_sum.
      apply Qmult_le_0_compat; [|discriminate].
      apply Qle_shift_div_l; [exact El|]. lra.
Qed.

(** *** Pruning *)

(** X14. [prune] keeps, in order, exactly the costs stamped within the
    last 90 days and touches nothing else; it does not change the status
    of a period that starts within those 90 days. *)
Theorem prune_keeps_recent_status now now' period t :
  (now - 90 * 24 * 60 * 60 * 1000
   <= fst (getPeriodBounds rt period now'))%Z ->
  getStatus rt now' period (prune now t) = getStatus rt now' period t
  /\ costs (prune now t)
     = filter (fun c => (now - 7776000000 <=? timestamp c)%Z) (costs t)
  /\ config (prune now t) = config t
  /\ emergencyModeActive (prune now t) = emergencyModeActive t
  /\ alertsFired (prune now t) = alertsFired t.
Proof.
  intro Hstart. split; [|repeat split].
  unfold getStatus, prune.
  destruct (getPeriodBounds rt period now') as [start end_].
  simpl in *. rewrite ListFacts.filter_filter_implied; [reflexivity|].
  intros c Hc. unfold inPeriod in Hc. apply andb_true_iff in Hc.
  destruct Hc as [Hge _]. apply Z.leb_le in Hge. apply Z.leb_le. lia.
Qed.

End WithRuntime.

(** *** Concrete trackers *)

(** 2026-11-01T00:00:00Z, and a cost recorded at that moment. *)
Definition t0 : Z := 1793491200000.

Definition costOf (amount : Q) : ActualCost :=
  {| ac_provider := openai; ac_model := "gpt-4o-mini";
     inputTokens := 100; outputTokens := 50;
     totalCost := amount; timestamp := t0 |}.

Definition emergencyThreshold : BudgetAlertThreshold :=
  {| percentage := 95; action := act_emergency_mode; channels := None |}.

Definition zeroDailyLimit : PartialBudgetConfig :=
  {| p_dailyLimit := Some 0; p_weeklyLimit := None; p_monthlyLimit := None;
     p_alertThresholds := None; p_emergencyMode := None |}.

Definition zeroLimitZeroThreshold : PartialBudgetConfig :=
  {| p_dailyLimit := Some 0; p_weeklyLimit := None; p_monthlyLimit := None;
     p_alertThresholds :=
       Some [{| percentage := 0; action := act_log; channels := None |}];
     p_emergencyMode := None |}.

Definition dailyLimitOne : PartialBudgetConfig :=
  {| p_dailyLimit := Some 1; p_weeklyLimit := None; p_monthlyLimit := None;
     p_alertThresholds := None; p_emergencyMode := None |}.

Example daily_status_after_two_costs :
  let t := run ExampleRuntime.utc
             (recordAll [(t0, costOf 0.01); (t0, costOf 0.02)])
             (new noOverrides) in
  let st := getStatus ExampleRuntime.utc t0 daily t in
  spent st == 0.03 /\ remaining st == 4.97 /\ percentUsed st == 0.6
  /\ periodStart st = t0 /\ periodEnd st = (t0 + 86400000)%Z.
Proof. vm_compute. repeat split. Qed.

(** The claim C7 as stated fails: [setEmergencyMode(false)] is not
    [resetAlerts()], and it clears a latch that is set. *)
Lemma latch_cleared_by_setEmergencyMode_false :
  let t := setEmergencyMode true (new noOverrides) in
  let op := OpSetEmergencyMode false in
  emergencyModeActive t = true
  /\ op <> OpResetAlerts
  /\ emergencyModeActive (step ExampleRuntime.utc op t) = false.
Proof. repeat split. discriminate. Qed.

Lemma emergency_latch_witness :
  (let t := setEmergencyMode true (new noOverrides) in
   emergencyModeActive (step ExampleRuntime.utc (OpPrune t0) t) = true)
  /\ (let t := new noOverrides in
      emergencyModeActive t = false
      /\ emergencyModeActive
           (step ExampleRuntime.utc (OpRecordCost t0 (costOf 4.9)) t) = true)
  /\ (let t := run ExampleRuntime.utc (recordAll [(t0, costOf 0.96)])
                 (new noOverrides) in
      emergencyModeActive t = false
      /\ emergencyModeActive
           (step ExampleRuntime.utc (OpUpdateConfig t0 dailyLimitOne) t)
         = true).
Proof.
  split; [|split].
  - apply (emergency_latch ExampleRuntime.utc (OpPrune t0)
             (setEmergencyMode true (new noOverrides)));
      [discriminate | discriminate | reflexivity].
  - split; [reflexivity|].
    apply (proj1 (proj2 (emergency_latch ExampleRuntime.utc
                           (OpRecordCost t0 (costOf 4.9)) (new noOverrides)))
             t0 (costOf 4.9) emergencyThreshold);
      [reflexivity | simpl; auto | reflexivity | reflexivity
      | apply Qle_bool_iff; vm_compute; reflexivity | reflexivity].
  - split; [reflexivity|].
    apply (proj2 (proj2 (emergency_latch ExampleRuntime.utc
                           (OpUpdateConfig t0 dailyLimitOne)
                           (run ExampleRuntime.utc
                              (recordAll [(t0, costOf 0.96)])
                              (new noOverrides))))
             t0 dailyLimitOne emergencyThreshold);
      [reflexivity | vm_compute; auto | reflexivity | reflexivity
      | apply Qle_bool_iff; vm_compute; reflexivity].
Defined.

(** The claim C10 as stated fails: with a daily limit of 0 and a
    threshold at 0 percent, the first alert check fires that threshold. *)
Lemma zero_percent_threshold_fires_at_zero_limit :
  let t := new zeroLimitZeroThreshold in
  let t' := recordCost ExampleRuntime.utc t0 (costOf 3) t in
  dailyLimit (config t) == 0
  /\ alertsFired t = []
  /\ alertsFired t' = [(0, act_log)]
  /\ List.length (console t') = 1%nat.
Proof. vm_compute. repeat split. Qed.

Lemma zero_limit_status_witness :
  let t := run ExampleRuntime.utc (recordAll [(t0, costOf 3)])
             (new zeroDailyLimit) in
  spent (getStatus ExampleRuntime.utc t0 daily t) == 3
  /\ percentUsed (getStatus ExampleRuntime.utc t0 daily t) == 0
  /\ Num.geb (percentUsed (getStatus ExampleRuntime.utc t0 daily t)) 100
     = false
  /\ checkAlerts ExampleRuntime.utc t0 t = t.
Proof.
  intro t.
  assert (Hzero : dailyLimit (config t) == 0) by reflexivity.
  destruct (zero_limit_status ExampleRuntime.utc t0 daily t) as [H1 H2].
  destruct (H2 Hzero) as (Haccept & _ & Hcheck).
  split; [reflexivity|]. split; [exact (H1 Hzero)|].
  split; [exact Haccept|]. apply Hcheck.
  repeat constructor.
Defined.

(** A cost of a call made 100 days before [t0]. *)
Definition oldCost : ActualCost :=
  {| ac_provider := anthropic; ac_model := "claude-sonnet-4-5";
     inputTokens := 1000; outputTokens := 500;
     totalCost := 1; timestamp := (t0 - 100 * 86400000)%Z |}.

Lemma prune_keeps_recent_status_witness :
  let t := run ExampleRuntime.utc
             (recordAll [(timestamp oldCost, oldCost); (t0, costOf 3)])
             (new noOverrides) in
  getStatus ExampleRuntime.utc t0 daily (prune t0 t)
  = getStatus ExampleRuntime.utc t0 daily t
  /\ List.length (costs t) = 2%nat
  /\ List.length (costs (prune t0 t)) = 1%nat.
Proof.
  intro t. split; [|split; reflexivity].
  apply (prune_keeps_recent_status ExampleRuntime.utc t0 t0 daily t).
  vm_compute. discriminate.
Defined.

End BudgetTrackerFacts.

(* ------------------------------------------------------------------ *)
(** ** Maps in insertion order *)

Module MapFacts.
Import Js.

Section Maps.
Variable V : Type.
Implicit Types (m : Map V) (k : string) (v : V).

Lemma map_get_In k m v : map_get k m = Some v -> In (k, v) m.
Proof.
  induction m as [|[k' v'] m IH]; simpl; [discriminate|].
  destruct (String.eqb k k') eqn:E.
  - apply String.eqb_eq in E. subst k'. intros [= ->]. now left.
  - intro H. right. now apply IH.
Qed.

Lemma map_get_NoDup k m v :
  NoDup (List.map fst m) -> In (k, v) m -> map_get k m = Some v.
Proof.
  induction m as [|[k' v'] m IH]; simpl; [intros _ []|].
  intros Hnd [[= -> ->]|Hin].
  - now rewrite String.eqb_refl.
  - inversion Hnd as [|? ? Hnotin Hnd']; subst.
    destruct (String.eqb k k') eqn:E.
    + apply String.eqb_eq in E. subst k'. exfalso. apply Hnotin.
      change k with (fst (k, v)). now apply in_map.
    + now apply IH.
Qed.

Lemma map_set_In k v m k' v' :
  In (k', v') (map_set k v m) -> (k' = k /\ v' = v) \/ In (k', v') m.
Proof.
  induction m as [|[k0 v0] m IH]; simpl.
  - intros [[= <- <-]|[]]. now left.
  - destruct (String.eqb k k0) eqn:E.
    + apply String.eqb_eq in E. subst k0.
      intros [[= <- <-]|Hin]; [now left | right; now right].
    + intros [Heq|Hin]; [right; now left|].
      destruct (IH Hin) as [H|H]; [now left | right; now right].
Qed.

Lemma map_set_keys k v m k' :
  In k' (List.map fst (map_set k v m)) -> k' = k \/ In k' (List.map fst m).
Proof.
  intro H. apply in_map_iff in H. destruct H as [[k0 v0] [<- Hin]].
  apply map_set_In in Hin. destruct Hin as [[-> _]|Hin]; [now left|].
  right. change k0 with (fst (k0, v0)). now apply in_map.
Qed.

Lemma map_set_NoDup k v m :
  NoDup (List.map fst m) -> NoDup (List.map fst (map_set k v m)).
Proof.
  induction m as [|[k0 v0] m IH]; simpl.
  - intros _. constructor; [intros []|constructor].
  - intro Hnd. inversion Hnd as [|? ? Hnotin Hnd']; subst.
    destruct (String.eqb k k0) eqn:E; simpl.
    + constructor; assumption.
    + constructor; [|now apply IH].
      intro Hin. apply map_set_keys in Hin. destruct Hin as [->|Hin].
      * rewrite String.eqb_refl in E. discriminate.
      * now apply Hnotin.
Qed.

Lemma map_delete_In k m k' v' :
  In (k', v') (map_delete k m) -> In (k', v') m.
Proof.
  induction m as [|[k0 v0] m IH]; simpl; [auto|].
  destruct (String.eqb k k0); [now right|].
  intros [H|H]; [now left | right; now apply IH].
Qed.

Lemma map_delete_NoDup k m :
  NoDup (List.map fst m) -> NoDup (List.map fst (map_delete k m)).
Proof.
  induction m as [|[k0 v0] m IH]; simpl; [auto|].
  intro Hnd. inversion Hnd as [|? ? Hnotin Hnd']; subst.
  destruct (String.eqb k k0); [assumption|]. simpl.
  constructor; [|now apply IH].
  intro Hin. apply Hnotin. apply in_map_iff in Hin.
  destruct Hin as [[k1 v1] [<- Hin]]. apply map_delete_In in Hin.
  change k1 with (fst (k1, v1)). now apply in_map.
Qed.

Lemma map_get_set_same k v m : map_get k (map_set k v m) = Some v.
Proof.
  induction m as [|[k0 v0] m IH]; simpl.
  - now rewrite String.eqb_refl.
  - destruct (String.eqb k k0) eqn:E; simpl; rewrite E; [reflexivity|].
    exact IH.
Qed.

Lemma map_get_set_other k k' v m :
  k' <> k -> map_get k' (map_set k v m) = map_get k' m.
Proof.
  intro Hne. induction m as [|[k0 v0] m IH]; simpl.
  - apply String.eqb_neq in Hne. now rewrite Hne.
  - destruct (String.eqb k k0) eqn:E; simpl.
    + apply String.eqb_eq in E. subst k0.
      apply String.eqb_neq in Hne. now rewrite Hne.
    + now rewrite IH.
Qed.

Lemma map_has_In k m : map_has k m = true <-> In k (List.map fst m).
Proof.
  unfold map_has. induction m as [|[k0 v0] m IH]; simpl.
  - split; [discriminate|intros []].
  - destruct (String.eqb k k0) eqn:E.
    + apply String.eqb_eq in E. subst k0. split; auto.
    + rewrite IH. split; [now right|].
      intros [H|H]; [|exact H]. subst k0.
      rewrite String.eqb_refl in E. discriminate.
Qed.

Lemma map_size_set k v m :
  map_size (map_set k v m)
  = if map_has k m then map_size m else S (map_size m).
Proof.
  unfold map_has, map_size. induction m as [|[k0 v0] m IH]; simpl.
  - reflexivity.
  - destruct (String.eqb k k0); simpl; [reflexivity|].
    rewrite IH. now destruct (map_get k m).
Qed.

Lemma map_size_delete k m :
  map_size (map_delete k m)
  = if map_has k m then Nat.pred (map_size m) else map_size m.
Proof.
  unfold map_has, map_size. induction m as [|[k0 v0] m IH]; simpl.
  - reflexivity.
  - destruct (String.eqb k k0); simpl; [reflexivity|].
    rewrite IH. destruct (map_get k m) eqn:E; [|reflexivity].
    destruct m; [discriminate E|reflexivity].
Qed.

(** With each key once, deleting a key removes the pair of that key and
    nothing else. *)
Lemma map_delete_filter k m :
  NoDup (List.map fst m) ->
  map_delete k m = filter (fun kv => negb (String.eqb k (fst kv))) m.
Proof.
  induction m as [|[k0 v0] m IH]; simpl; [reflexivity|].
  intro Hnd. inversion Hnd as [|? ? Hnotin Hnd']; subst.
  destruct (String.eqb k k0) eqn:E; simpl.
  - apply String.eqb_eq in E. subst k0.
    symmetry. apply forallb_filter_id. apply forallb_forall.
    intros [k1 v1] Hin. simpl. apply negb_true_iff, String.eqb_neq.
    intros ->. apply Hnotin. change k1 with (fst (k1, v1)).
    now apply in_map.
  - now rewrite IH.
Qed.

End Maps.

End MapFacts.

(* ------------------------------------------------------------------ *)
(** ** Cost breakdowns of the budget tracker *)

Module BreakdownFacts.
Import BudgetTracker.

(** The sum of the values of a breakdown. *)
Definition sumValues (m : Js.Map Q) : Q :=
  fold_right (fun kv acc => snd kv + acc) 0 m.











Section WithRuntime.
Variable rt : Runtime.


End WithRuntime.

Example breakdown_by_provider :
  let t := run ExampleRuntime.utc
             (BudgetTrackerFacts.recordAll
                [(BudgetTrackerFacts.t0, BudgetTrackerFacts.costOf 0.01);
                 (BudgetTrackerFacts.t0, BudgetTrackerFacts.costOf 0.02)])
             (new noOverrides) in
  List.map fst
    (getCostByProvider ExampleRuntime.utc BudgetTrackerFacts.t0 daily t)
  = ["openai"]
  /\ List.map fst
       (getCostByModel ExampleRuntime.utc BudgetTrackerFacts.t0 daily t)
     = ["openai/gpt-4o-mini"]
  /\ sumValues
       (getCostByProvider ExampleRuntime.utc BudgetTrackerFacts.t0 daily t)
     == 0.03.
Proof. vm_compute. repeat split. Qed.

End BreakdownFacts.

(* ------------------------------------------------------------------ *)
(** ** The semantic cache *)

Module SemanticCacheFacts.
Import SemanticCache.

Lemma bumpHitCount_fields e :
  queryHash (bumpHitCount e) = queryHash e
  /\ queryText (bumpHitCount e) = queryText e
  /\ expiresAt (bumpHitCount e) = expiresAt e
  /\ hitCount (bumpHitCount e) = (hitCount e + 1)%Z.
Proof. repeat split. Qed.

Section WithRuntime.
Variable rt : Runtime.

(** *** Expiry *)

(** The best entry of a scan is one of the scanned entries. *)
Lemma scan_In queryVec vocab active ke sim :
  scan rt queryVec vocab active = (Some ke, sim) -> In ke active.
Proof.
  unfold scan.
  assert (G : forall l best,
             (forall x, fst best = Some x -> In x active) ->
             incl l active ->
             forall x s,
               fold_left
                 (fun best ke =>
                    let entryVec := toVector rt (queryText (snd ke)) vocab in
                    let sim := cosineSimilarity rt queryVec entryVec in
                    if Num.gtb sim (snd best) then (Some ke, sim) else best)
                 l best = (Some x, s) -> In x active).
  { induction l as [|y l IH]; intros best Hb Hincl x s; simpl.
    - intro E. apply Hb. now rewrite E.
    - apply IH.
      + destruct (Num.gtb _ _); simpl; [|exact Hb].
        intros x' [= <-]. apply Hincl. now left.
      + intros z Hz. apply Hincl. now right. }
  apply (G active (None, 0)).
  - simpl. discriminate.
  - apply incl_refl.
Qed.

(** A hit of the scan is a stored entry, not expired at the clock
    reading of the scan, with its hit count incremented. *)
Lemma semanticMatch_hit_origin query now c e sim c' :
  semanticMatch rt query now c = (Some (e, sim), c') ->
  exists key stored,
    In (key, stored) (adapter c) /\ e = bumpHitCount stored
    /\ (now < expiresAt stored)%Z
    /\ similarityThreshold (config c) <= sim.
Proof.
  unfold semanticMatch. cbv zeta.
  set (active := filter _ (adapter c)).
  destruct active as [|a0 rest] eqn:Hactive; [discriminate|].
  rewrite <- Hactive.
  destruct (scan rt _ _ active) as [[[key entry]|] bestSim] eqn:Hscan;
    [|discriminate].
  destruct (Num.geb bestSim _) eqn:Hthr; [|discriminate].
  intros [= <- <- _]. exists key, entry.
  apply scan_In in Hscan. unfold active in Hscan.
  apply filter_In in Hscan. destruct Hscan as [Hin Hfresh].
  split; [exact Hin|]. split; [reflexivity|]. split.
  - now apply Z.ltb_lt.
  - now apply NumFacts.geb_le.
Qed.

(** C5. Whatever the cache holds, an entry that [lookup] returns is a
    stored entry (with its hit count incremented) that had not expired
    when its path read the clock: the exact-hash path returns the entry
    stored under the hash of the query only if [expiresAt] is after the
    first reading, the similarity scan only entries whose [expiresAt] is
    after the second.  So an entry with [expiresAt <= now] at both
    readings is never returned. *)
Theorem lookup_never_returns_expired query now1 now2 c e sim c' :
  lookup rt query now1 now2 c = (Some (e, sim), c') ->
  (exists key stored,
     In (key, stored) (adapter c) /\ e = bumpHitCount stored
     /\ ((key = Helpers.hashString rt query /\ sim = 1.0
          /\ (now1 < expiresAt stored)%Z)
         \/ ((now2 < expiresAt stored)%Z
             /\ similarityThreshold (config c) <= sim)))
  /\ (forall key stored,
        In (key, stored) (adapter c) ->
        (expiresAt stored <= now1)%Z -> (expiresAt stored <= now2)%Z ->
        e <> bumpHitCount stored).
Proof.
  intro H.
  assert (Horigin :
            exists key stored,
              In (key, stored) (adapter c) /\ e = bumpHitCount stored
              /\ ((key = Helpers.hashString rt query /\ sim = 1.0
                   /\ (now1 < expiresAt stored)%Z)
                  \/ ((now2 < expiresAt stored)%Z
                      /\ similarityThreshold (config c) <= sim))).
  { unfold lookup in H.
    destruct (Js.map_get (Helpers.hashString rt query) (adapter c))
      as [exact|] eqn:Hget.
    - destruct (now1 <? expiresAt exact)%Z eqn:Hfresh.
      + injection H as <- <- _. exists (Helpers.hashString rt query), exact.
        split; [now apply MapFacts.map_get_In|]. split; [reflexivity|].
        left. repeat split. now apply Z.ltb_lt.
      + apply semanticMatch_hit_origin in H.
        destruct H as (key & stored & Hin & -> & Hfresh' & Hsim).
        exists key, stored. auto.
    - apply semanticMatch_hit_origin in H.
      destruct H as (key & stored & Hin & -> & Hfresh' & Hsim).
      exists key, stored. auto. }
  split; [exact Horigin|].
  intros key stored _ Hexp1 Hexp2 ->.
  destruct Horigin as (key' & stored' & _ & Heq & Hpath).
  assert (E : expiresAt stored = expiresAt stored').
  { now rewrite <- (proj1 (proj2 (proj2 (bumpHitCount_fields stored)))),
                Heq. }
  destruct Hpath as [(_ & _ & Hlt)|(Hlt & _)]; lia.
Qed.

(** *** Keys *)

(** Every entry is stored under its own [queryHash], which is the hash
    of its [queryText], and no key occurs twice. *)
Definition keyed (a : Js.Map CacheEntry) : Prop :=
  NoDup (List.map fst a)
  /\ forall k e, In (k, e) a ->
       k = queryHash e /\ queryHash e = Helpers.hashString rt (queryText e).

Lemma keyed_nil : keyed [].
Proof. split; [constructor | intros ? ? []]. Qed.

Lemma keyed_set a e :
  keyed a -> queryHash e = Helpers.hashString rt (queryText e) ->
  keyed (Js.map_set (queryHash e) e a).
Proof.
  intros [Hnd Hk] He. split; [now apply MapFacts.map_set_NoDup|].
  intros k e' Hin. apply MapFacts.map_set_In in Hin.
  destruct Hin as [[-> ->]|Hin]; [auto | now apply Hk].
Qed.

Lemma keyed_delete a k : keyed a -> keyed (Js.map_delete k a).
Proof.
  intros [Hnd Hk]. split; [now apply MapFacts.map_delete_NoDup|].
  intros k' e Hin. apply MapFacts.map_delete_In in Hin. now apply Hk.
Qed.

Lemma keyed_bump a k e :
  keyed a -> In (k, e) a -> keyed (Js.map_set k (bumpHitCount e) a).
Proof.
  intros Ha Hin. destruct (proj2 Ha k e Hin) as [-> He].
  apply (keyed_set a (bumpHitCount e) Ha). exact He.
Qed.

Lemma semanticMatch_keyed query now c :
  keyed (adapter c) -> keyed (adapter (snd (semanticMatch rt query now c))).
Proof.
  intro Ha. unfold semanticMatch. cbv zeta.
  set (active := filter _ (adapter c)).
  destruct active as [|a0 rest] eqn:Hactive; [exact Ha|].
  rewrite <- Hactive.
  destruct (scan rt _ _ active) as [[[key entry]|] bestSim] eqn:Hscan;
    [|exact Ha].
  destruct (Num.geb bestSim _); [|exact Ha].
  simpl. apply scan_In in Hscan. unfold active in Hscan.
  apply filter_In in Hscan. destruct Hscan as [Hin _].
  assert (Hb : keyed (Js.map_set key (bumpHitCount entry) (adapter c)))
    by (now apply keyed_bump).
  apply (keyed_set _ (bumpHitCount entry) Hb).
  exact (proj2 (proj2 Ha key entry Hin)).
Qed.

Lemma lookup_keyed query now1 now2 c :
  keyed (adapter c) -> keyed (adapter (snd (lookup rt query now1 now2 c))).
Proof.
  intro Ha. unfold lookup.
  destruct (Js.map_get _ (adapter c)) as [exact|] eqn:Hget;
    [|now apply semanticMatch_keyed].
  destruct (now1 <? expiresAt exact)%Z; [|now apply semanticMatch_keyed].
  simpl. apply keyed_bump; [exact Ha|]. now apply MapFacts.map_get_In.
Qed.

Lemma evictOldest_keyed c :
  keyed (adapter c) -> keyed (adapter (evictOldest c)).
Proof.
  intro Ha. unfold evictOldest.
  destruct (Js.sort _ _) as [|victim ?]; [exact Ha|].
  simpl. now apply keyed_delete.
Qed.

Lemma store_keyed query response ttlMs nowCreated nowExpires c :
  keyed (adapter c) ->
  keyed (adapter (store rt query response ttlMs nowCreated nowExpires c)).
Proof.
  intro Ha. unfold store. cbv zeta. simpl.
  set (c1 := if (_ <=? _)%Z then evictOldest c else c).
  assert (H1 : keyed (adapter c1)).
  { unfold c1. destruct (_ <=? _)%Z; [now apply evictOldest_keyed|exact Ha]. }
  set (entry := {| queryHash := Helpers.hashString rt query |}).
  apply (keyed_set (adapter c1) entry H1). reflexivity.
Qed.

Lemma pruneExpired_keyed now c :
  keyed (adapter c) -> keyed (adapter (snd (pruneExpired now c))).
Proof.
  intro Ha. unfold pruneExpired.
  set (f := fun (st : Z * Js.Map CacheEntry) (entry : CacheEntry) =>
              if (expiresAt entry <=? now)%Z
              then ((fst st + 1)%Z, Js.map_delete (queryHash entry) (snd st))
              else st).
  assert (G : forall l st, keyed (snd st) -> keyed (snd (fold_left f l st))).
  { induction l as [|x l IH]; intros st Hst; simpl; [exact Hst|].
    apply IH. unfold f. destruct (_ <=? _)%Z; [|exact Hst].
    simpl. now apply keyed_delete. }
  specialize (G (Js.map_values (adapter c)) (0%Z, adapter c) Ha).
  destruct (fold_left f _ _) as [pruned a]. exact G.
Qed.

Lemma step_keyed op c : keyed (adapter c) -> keyed (adapter (step rt op c)).
Proof.
  intro Ha. destruct op; simpl.
  - now apply lookup_keyed.
  - now apply store_keyed.
  - now apply pruneExpired_keyed.
  - apply keyed_nil.
Qed.

Lemma run_keyed ops c : keyed (adapter c) -> keyed (adapter (run rt ops c)).
Proof.
  unfold run. revert c.
  induction ops as [|op ops IH]; intros c Ha; simpl; [exact Ha|].
  apply IH. now apply step_keyed.
Qed.

(** C6. In a cache reached from a new one by any sequence of lookups,
    stores, prunings and clearings, every stored entry that has not
    expired at the first clock reading is hit by a lookup of its own
    [queryText]: the exact-hash path returns that entry, its hit count
    incremented, with similarity 1.0, which is at least 0.99. *)
Theorem lookup_own_text_hits ops cfg key e now1 now2 :
  let c := run rt ops (new cfg) in
  In (key, e) (adapter c) ->
  (now1 < expiresAt e)%Z ->
  exists hit sim c',
    lookup rt (queryText e) now1 now2 c = (Some (hit, sim), c')
    /\ hit = bumpHitCount e /\ sim = 1.0 /\ 0.99 <= sim
    /\ key = Helpers.hashString rt (queryText e).
Proof.
  intros c Hin Hfresh.
  assert (Ha : keyed (adapter c)) by (apply run_keyed, keyed_nil).
  destruct (proj2 Ha key e Hin) as [Hkey Hhash].
  assert (Hget : Js.map_get (Helpers.hashString rt (queryText e)) (adapter c)
                 = Some e).
  { apply MapFacts.map_get_NoDup; [exact (proj1 Ha)|]. congruence. }
  unfold lookup. rewrite Hget.
  apply Z.ltb_lt in Hfresh. rewrite Hfresh.
  eexists. eexists. eexists. split; [reflexivity|].
  repeat split; [discriminate | congruence].
Qed.

(** *** Storing and looking up *)

Lemma evictOldest_config c : config (evictOldest c) = config c.
Proof. unfold evictOldest. now destruct (Js.sort _ _). Qed.

Lemma store_adapter query response ttlMs nowCreated nowExpires c :
  exists a1,
    adapter (store rt query response ttlMs nowCreated nowExpires c)
    = Js.map_set (Helpers.hashString rt query)
        {| queryHash := Helpers.hashString rt query;
           queryText := query;
           ce_response := content response;
           entry_provider := resp_provider response;
           entry_model := resp_model response;
           cost := resp_cost response;
           tokensUsed := tok_total (tokens response);
           createdAt := nowCreated;
           expiresAt :=
             (nowExpires
              + match ttlMs with
                | Some t => t
                | None => defaultTtlMs (config c)
                end)%Z;
           hitCount := 0 |} a1
    /\ a1 = adapter (if (maxEntries (config c)
                         <=? Z.of_nat (Js.map_size (adapter c)))%Z
                     then evictOldest c else c).
Proof. eexists. split; reflexivity. Qed.

(** X16. Round trip: a response stored for a query is returned by a
    lookup of that query made before the entry expires, as an exact
    match with similarity 1.0 and a hit count of 1, whatever the cache
    held before. *)
Theorem store_then_lookup_hits query response ttlMs nowCreated nowExpires
    now1 now2 c :
  let ttl := match ttlMs with
             | Some t => t
             | None => defaultTtlMs (config c)
             end in
  (now1 < nowExpires + ttl)%Z ->
  exists hit c',
    lookup rt query now1 now2
      (store rt query response ttlMs nowCreated nowExpires c)
    = (Some (hit, 1.0), c')
    /\ queryText hit = query
    /\ ce_response hit = content response
    /\ (entry_provider hit, entry_model hit)
       = (resp_provider response, resp_model response)
    /\ cost hit = resp_cost response
    /\ createdAt hit = nowCreated
    /\ expiresAt hit = (nowExpires + ttl)%Z
    /\ hitCount hit = 1%Z.
Proof.
  intros ttl Hfresh.
  destruct (store_adapter query response ttlMs nowCreated nowExpires c)
    as (a1 & Ha & _).
  unfold lookup. rewrite Ha, MapFacts.map_get_set_same.
  cbn [expiresAt]. fold ttl. apply Z.ltb_lt in Hfresh. rewrite Hfresh.
  eexists. eexists. split; [reflexivity|]. repeat split.
Qed.

(** X17. Every lookup is counted once: a hit adds 1 to [hitCount] and
    the cost of the returned entry to [totalCostSaved]; a miss adds 1 to
    [missCount] and leaves the stored entries as they are; [hitRate] is
    then hits over lookups. *)
Theorem lookup_is_counted_once query now1 now2 c :
  let c' := snd (lookup rt query now1 now2 c) in
  let hits := stats_hitCount (stats c') in
  let misses := stats_missCount (stats c') in
  match fst (lookup rt query now1 now2 c) with
  | Some (e, _) =>
      hits = (stats_hitCount (stats c) + 1)%Z
      /\ misses = stats_missCount (stats c)
      /\ totalCostSaved (stats c') = totalCostSaved (stats c) + cost e
  | None =>
      hits = stats_hitCount (stats c)
      /\ misses = (stats_missCount (stats c) + 1)%Z
      /\ totalCostSaved (stats c') = totalCostSaved (stats c)
      /\ adapter c' = adapter c
  end
  /\ hitRate (stats c')
     = if (0 <? hits + misses)%Z
       then inject_Z hits / inject_Z (hits + misses) else 0.
Proof.
  assert (Hsem : forall now,
            let c' := snd (semanticMatch rt query now c) in
            match fst (semanticMatch rt query now c) with
            | Some (e, _) =>
                stats_hitCount (stats c') = (stats_hitCount (stats c) + 1)%Z
                /\ stats_missCount (stats c') = stats_missCount (stats c)
                /\ totalCostSaved (stats c') = totalCostSaved (stats c) + cost e
            | None =>
                stats_hitCount (stats c') = stats_hitCount (stats c)
                /\ stats_missCount (stats c')
                   = (stats_missCount (stats c) + 1)%Z
                /\ totalCostSaved (stats c') = totalCostSaved (stats c)
                /\ adapter c' = adapter c
            end
            /\ hitRate (stats c')
               = if (0 <? stats_hitCount (stats c')
                          + stats_missCount (stats c'))%Z
                 then inject_Z (stats_hitCount (stats c'))
                      / inject_Z (stats_hitCount (stats c')
                                  + stats_missCount (stats c'))
                 else 0).
  { intro now. unfold semanticMatch. cbv zeta.
    destruct (filter _ (adapter c)) as [|a0 rest]; [simpl; auto|].
    destruct (scan rt _ _ _) as [[[key entry]|] bestSim]; [|simpl; auto].
    destruct (Num.geb bestSim _); simpl; auto. }
  unfold lookup.
  destruct (Js.map_get _ (adapter c)) as [exact|]; [|apply Hsem].
  destruct (now1 <? expiresAt exact)%Z; [|apply Hsem].
  simpl. auto.
Qed.

(** *** Capacity and eviction *)

Lemma keyed_has a k e : keyed a -> In (k, e) a -> Js.map_has k a = true.
Proof.
  intros _ Hin. apply MapFacts.map_has_In.
  change k with (fst (k, e)). now apply in_map.
Qed.

Lemma keyed_value a e :
  keyed a -> In e (Js.map_values a) -> In (queryHash e, e) a.
Proof.
  intros Ha Hin. unfold Js.map_values in Hin. apply in_map_iff in Hin.
  destruct Hin as [[k e'] [E Hin]]. simpl in E. subst e'.
  now destruct (proj2 Ha k e Hin) as [<- _].
Qed.

(** The comparator of [evictOldest]: fewer hits first, then older. *)
Definition lessValuable (a b : CacheEntry) : bool :=
  let d := if (hitCount a - hitCount b =? 0)%Z
           then (createdAt a - createdAt b)%Z
           else (hitCount a - hitCount b)%Z in
  (d <=? 0)%Z.

Lemma lessValuable_true a b :
  lessValuable a b = true
  <-> (hitCount a < hitCount b)%Z
      \/ (hitCount a = hitCount b /\ (createdAt a <= createdAt b)%Z).
Proof.
  unfold lessValuable.
  destruct (hitCount a - hitCount b =? 0)%Z eqn:E.
  - apply Z.eqb_eq in E. rewrite Z.leb_le. lia.
  - apply Z.eqb_neq in E. rewrite Z.leb_le. lia.
Qed.

Lemma lessValuable_total a b :
  lessValuable a b = false -> lessValuable b a = true.
Proof.
  intro H. apply lessValuable_true.
  destruct (lessValuable_true a b) as [_ Hb].
  destruct (Z.lt_trichotomy (hitCount a) (hitCount b)) as [Hlt|[Heq|Hgt]].
  - rewrite Hb in H by (now left). discriminate.
  - destruct (Z.le_gt_cases (createdAt a) (createdAt b)) as [Hle|Hgt].
    + rewrite Hb in H by (right; now split). discriminate.
    + right. split; lia.
  - now left.
Qed.

Lemma lessValuable_trans a b c :
  lessValuable a b = true -> lessValuable b c = true ->
  lessValuable a c = true.
Proof. rewrite !lessValuable_true. lia. Qed.

Lemma evictOldest_victim c :
  keyed (adapter c) -> adapter c <> [] ->
  exists victim,
    In (queryHash victim, victim) (adapter c)
    /\ evictOldest c
       = set_adapter (Js.map_delete (queryHash victim) (adapter c)) c
    /\ forall k e, In (k, e) (adapter c) -> lessValuable victim e = true.
Proof.
  intros Ha Hne. unfold evictOldest. fold lessValuable.
  change (fun a b : CacheEntry => lessValuable a b) with lessValuable.
  destruct (Js.sort lessValuable (Js.map_values (adapter c)))
    as [|victim rest] eqn:Es.
  - exfalso. apply Hne.
    pose proof (SortFacts.sort_Permutation _ lessValuable
                  (Js.map_values (adapter c))) as Hp.
    rewrite Es in Hp. apply Permutation_nil in Hp.
    unfold Js.map_values in Hp. now apply map_eq_nil in Hp.
  - exists victim. split; [|split; [reflexivity|]].
    + apply keyed_value; [exact Ha|].
      apply (SortFacts.sort_In _ lessValuable). rewrite Es. now left.
    + intros k e Hin.
      apply (SortFacts.sort_head_least _ lessValuable lessValuable_total
               lessValuable_trans _ _ _ Es).
      unfold Js.map_values. change e with (snd (k, e)). now apply in_map.
Qed.

(** X18. When the cache is not empty, [evictOldest] removes exactly one
    entry, one with the fewest hits and, among those, the oldest; the
    other entries, the configuration and the statistics stay. *)
Theorem evictOldest_removes_least_valuable ops cfg :
  let c := run rt ops (new cfg) in
  adapter c <> [] ->
  exists victim,
    In (queryHash victim, victim) (adapter c)
    /\ adapter (evictOldest c)
       = filter (fun ke => negb (String.eqb (queryHash victim) (fst ke)))
           (adapter c)
    /\ Js.map_size (adapter (evictOldest c))
       = Nat.pred (Js.map_size (adapter c))
    /\ (forall k e, In (k, e) (adapter c) ->
          (hitCount victim < hitCount e)%Z
          \/ (hitCount victim = hitCount e
              /\ (createdAt victim <= createdAt e)%Z))
    /\ config (evictOldest c) = config c
    /\ stats (evictOldest c) = stats c.
Proof.
  intros c Hne.
  assert (Ha : keyed (adapter c)) by (apply run_keyed, keyed_nil).
  destruct (evictOldest_victim c Ha Hne) as (victim & Hin & -> & Hleast).
  exists victim. simpl. split; [exact Hin|]. split; [|split; [|split]].
  - apply MapFacts.map_delete_filter. exact (proj1 Ha).
  - rewrite MapFacts.map_size_delete.
    now rewrite (keyed_has _ _ _ Ha Hin).
  - intros k e He. now apply lessValuable_true, (Hleast k e).
  - auto.
Qed.

Lemma lookup_size query now1 now2 c :
  keyed (adapter c) ->
  Js.map_size (adapter (snd (lookup rt query now1 now2 c)))
  = Js.map_size (adapter c)
  /\ config (snd (lookup rt query now1 now2 c)) = config c.
Proof.
  intro Ha.
  assert (Hsem : forall now,
            Js.map_size (adapter (snd (semanticMatch rt query now c)))
            = Js.map_size (adapter c)
            /\ config (snd (semanticMatch rt query now c)) = config c).
  { intro now. unfold semanticMatch. cbv zeta.
    set (active := filter _ (adapter c)).
    destruct active as [|a0 rest] eqn:Hactive; [simpl; auto|].
    rewrite <- Hactive.
    destruct (scan rt _ _ active) as [[[key entry]|] bestSim] eqn:Hscan;
      [|simpl; auto].
    destruct (Num.geb bestSim _); [|simpl; auto].
    simpl. split; [|reflexivity].
    apply scan_In in Hscan. unfold active in Hscan.
    apply filter_In in Hscan. destruct Hscan as [Hin _].
    destruct (proj2 Ha key entry Hin) as [Hk _].
    rewrite <- Hk, !MapFacts.map_size_set.
    assert (H1 : Js.map_has key (adapter c) = true)
      by (now apply (keyed_has _ _ entry)).
    assert (H2 : Js.map_has key
                   (Js.map_set key (bumpHitCount entry) (adapter c)) = true).
    { unfold Js.map_has. now rewrite MapFacts.map_get_set_same. }
    now rewrite H2, H1. }
  unfold lookup.
  destruct (Js.map_get _ (adapter c)) as [exact|] eqn:Hget; [|apply Hsem].
  destruct (now1 <? expiresAt exact)%Z; [|apply Hsem].
  simpl. split; [|reflexivity]. rewrite MapFacts.map_size_set.
  unfold Js.map_has. now rewrite Hget.
Qed.

Lemma store_size query response ttlMs nowCreated nowExpires c :
  keyed (adapter c) -> (1 <= maxEntries (config c))%Z ->
  (Z.of_nat (Js.map_size (adapter c)) <= maxEntries (config c))%Z ->
  (Z.of_nat
     (Js.map_size
        (adapter (store rt query response ttlMs nowCreated nowExpires c)))
   <= maxEntries (config c))%Z
  /\ config (store rt query response ttlMs nowCreated nowExpires c)
     = config c.
Proof.
  intros Ha Hmax Hsize.
  destruct (store_adapter query response ttlMs nowCreated nowExpires c)
    as (a1 & -> & ->).
  split.
  - rewrite MapFacts.map_size_set.
    destruct (maxEntries (config c) <=? Z.of_nat (Js.map_size (adapter c)))%Z
      eqn:Efull.
    + apply Z.leb_le in Efull.
      assert (Hne : adapter c <> []).
      { intro E. rewrite E in Efull. simpl in Efull. lia. }
      destruct (evictOldest_victim c Ha Hne) as (victim & Hin & -> & _).
      simpl. rewrite MapFacts.map_size_delete.
      rewrite (keyed_has _ _ _ Ha Hin).
      assert (Hpos : (0 < Js.map_size (adapter c))%nat).
      { destruct (adapter c); [congruence|simpl; lia]. }
      destruct (Js.map_has _ _); lia.
    + apply Z.leb_gt in Efull. destruct (Js.map_has _ _); lia.
  - unfold store. cbv zeta. simpl.
    destruct (_ <=? _)%Z; [apply evictOldest_config|reflexivity].
Qed.

Lemma pruneExpired_size now c :
  (Js.map_size (adapter (snd (pruneExpired now c)))
   <= Js.map_size (adapter c))%nat
  /\ config (snd (pruneExpired now c)) = config c.
Proof.
  unfold pruneExpired.
  set (f := fun (st : Z * Js.Map CacheEntry) (entry : CacheEntry) =>
              if (expiresAt entry <=? now)%Z
              then ((fst st + 1)%Z, Js.map_delete (queryHash entry) (snd st))
              else st).
  assert (G : forall l st,
             (Js.map_size (snd (fold_left f l st)) <= Js.map_size (snd st))%nat).
  { induction l as [|x l IH]; intro st; simpl; [lia|].
    etransitivity; [apply IH|]. unfold f.
    destruct (_ <=? _)%Z; [|lia]. simpl.
    rewrite MapFacts.map_size_delete. destruct (Js.map_has _ _); lia. }
  specialize (G (Js.map_values (adapter c)) (0%Z, adapter c)).
  destruct (fold_left f _ _) as [pruned a]. simpl in *. auto.
Qed.

(** X19. The cache never holds more than [maxEntries] entries, when
    [maxEntries] is at least 1: a store into a full cache evicts one
    entry first, and nothing else adds an entry. *)
Theorem cache_never_exceeds_maxEntries ops cfg :
  (1 <= maxEntries cfg)%Z ->
  (Z.of_nat (Js.map_size (adapter (run rt ops (new cfg))))
   <= maxEntries cfg)%Z.
Proof.
  intro Hmax.
  assert (G : forall l c,
             keyed (adapter c) -> config c = cfg ->
             (Z.of_nat (Js.map_size (adapter c)) <= maxEntries cfg)%Z ->
             (Z.of_nat (Js.map_size (adapter (run rt l c)))
              <= maxEntries cfg)%Z).
  { unfold run. induction l as [|op l IH]; intros c Ha Hc Hs; simpl;
      [exact Hs|].
    apply IH; [now apply step_keyed| |];
      destruct op as [q n1 n2|q r ttl nc ne|now|]; simpl.
    - exact (eq_trans (proj2 (lookup_size q n1 n2 c Ha)) Hc).
    - subst cfg. exact (proj2 (store_size q r ttl nc ne c Ha Hmax Hs)).
    - exact (eq_trans (proj2 (pruneExpired_size now c)) Hc).
    - exact Hc.
    - rewrite (proj1 (lookup_size q n1 n2 c Ha)). exact Hs.
    - subst cfg. exact (proj1 (store_size q r ttl nc ne c Ha Hmax Hs)).
    - pose proof (proj1 (pruneExpired_size now c)). lia.
    - lia. }
  apply G; [apply keyed_nil|reflexivity|simpl; lia].
Qed.

(** *** Pruning *)

Lemma prune_fold now l : forall n (m : Js.Map CacheEntry),
  NoDup (List.map fst m) ->
  fold_left
    (fun (st : Z * Js.Map CacheEntry) (entry : CacheEntry) =>
       if (expiresAt entry <=? now)%Z
       then ((fst st + 1)%Z, Js.map_delete (queryHash entry) (snd st))
       else st)
    l (n, m)
  = ((n + Z.of_nat
            (List.length (filter (fun e => (expiresAt e <=? now)%Z) l)))%Z,
     filter
       (fun ke =>
          negb (existsb (fun e => (expiresAt e <=? now)%Z
                                  && String.eqb (queryHash e) (fst ke)) l))
       m).
Proof.
  induction l as [|x l IH]; intros n m Hnd; simpl.
  - rewrite Z.add_0_r. f_equal. symmetry. apply forallb_filter_id.
    now apply forallb_forall.
  - destruct (expiresAt x <=? now)%Z; simpl.
    + rewrite IH by (now apply MapFacts.map_delete_NoDup).
      f_equal; [lia|].
      rewrite (MapFacts.map_delete_filter _ _ _ Hnd).
      rewrite ListFacts.filter_filter. apply filter_ext.
      intros [k e]. simpl. now rewrite negb_orb.
    + now rewrite IH.
Qed.

(** X20. [pruneExpired] removes exactly the entries with
    [expiresAt <= now], keeps the others in their order, returns the
    number of entries it removed and sets [totalEntries] to the number
    of entries left. *)
Theorem pruneExpired_removes_exactly_the_expired ops cfg now :
  let c := run rt ops (new cfg) in
  let result := pruneExpired now c in
  adapter (snd result)
  = filter (fun ke => (now <? expiresAt (snd ke))%Z) (adapter c)
  /\ fst result
     = Z.of_nat
         (List.length
            (filter (fun ke => (expiresAt (snd ke) <=? now)%Z) (adapter c)))
  /\ totalEntries (stats (snd result))
     = Z.of_nat (Js.map_size (adapter (snd result)))
  /\ config (snd result) = config c.
Proof.
  intros c result.
  assert (Ha : keyed (adapter c)) by (apply run_keyed, keyed_nil).
  unfold result, pruneExpired.
  rewrite (prune_fold now (Js.map_values (adapter c)) 0 (adapter c) (proj1 Ha)).
  simpl. split; [|split; [|split; reflexivity]].
  - apply filter_ext_in. intros [k e] Hin. simpl.
    destruct (now <? expiresAt e)%Z eqn:Efresh.
    + apply negb_true_iff. apply not_true_iff_false. intro Hex.
      apply existsb_exists in Hex. destruct Hex as (e' & Hin' & Hcond).
      apply andb_true_iff in Hcond. destruct Hcond as [Hexp Hk].
      apply String.eqb_eq in Hk. apply (keyed_value _ _ Ha) in Hin'.
      rewrite Hk in Hin'.
      pose proof (MapFacts.map_get_NoDup _ _ _ _ (proj1 Ha) Hin) as G1.
      pose proof (MapFacts.map_get_NoDup _ _ _ _ (proj1 Ha) Hin') as G2.
      rewrite G1 in G2. injection G2 as <-.
      apply Z.ltb_lt in Efresh. apply Z.leb_le in Hexp. lia.
    + apply negb_false_iff. apply existsb_exists. exists e. split.
      * unfold Js.map_values. change e with (snd (k, e)). now apply in_map.
      * apply andb_true_iff. split.
        -- apply Z.ltb_ge in Efresh. now apply Z.leb_le.
        -- destruct (proj2 Ha k e Hin) as [-> _]. apply String.eqb_refl.
  - unfold Js.map_values. f_equal. clear Ha.
    induction (adapter c) as [|[k e] a IH]; simpl; [reflexivity|].
    destruct (expiresAt e <=? now)%Z; simpl; now rewrite IH.
Qed.

(** *** Vocabulary and vectors *)

Lemma map_set_new {V} k (v : V) m :
  Js.map_has k m = false -> Js.map_set k v m = (m ++ [(k, v)])%list.
Proof.
  unfold Js.map_has. induction m as [|[k0 v0] m IH]; simpl; [reflexivity|].
  destruct (String.eqb k k0); [discriminate|].
  intro H. now rewrite IH.
Qed.

(** The vocabulary numbers its words 0, 1, 2, ... in the order in which
    they were added, each word once. *)
Definition numbered (vocab : Js.Map nat) : Prop :=
  List.map snd vocab = seq 0 (Js.map_size vocab)
  /\ NoDup (List.map fst vocab).

Lemma numbered_add tok vocab :
  numbered vocab ->
  numbered (if Js.map_has tok vocab then vocab
            else Js.map_set tok (Js.map_size vocab) vocab).
Proof.
  intros [Hn Hd]. destruct (Js.map_has tok vocab) eqn:E; [now split|].
  split; [|now apply MapFacts.map_set_NoDup].
  rewrite (map_set_new _ _ _ E). unfold Js.map_size in *.
  rewrite map_app, length_app, Hn. simpl.
  now rewrite Nat.add_1_r, seq_S.
Qed.

Lemma has_add_word tok tok' (vocab : Js.Map nat) :
  Js.map_has tok vocab = true \/ tok = tok' ->
  Js.map_has tok (if Js.map_has tok' vocab then vocab
                  else Js.map_set tok' (Js.map_size vocab) vocab) = true.
Proof.
  intros [H| ->].
  - destruct (Js.map_has tok' vocab); [exact H|].
    unfold Js.map_has in *.
    destruct (String.eqb tok tok') eqn:E.
    + apply String.eqb_eq in E. subst tok'.
      now rewrite MapFacts.map_get_set_same.
    + apply String.eqb_neq in E.
      now rewrite MapFacts.map_get_set_other.
  - destruct (Js.map_has tok' vocab) eqn:E; [exact E|].
    unfold Js.map_has. now rewrite MapFacts.map_get_set_same.
Qed.

Lemma addWords_spec toks : forall vocab,
  numbered vocab ->
  let vocab' :=
    fold_left
      (fun vocab tok =>
         if Js.map_has tok vocab then vocab
         else Js.map_set tok (Js.map_size vocab) vocab)
      toks vocab in
  numbered vocab'
  /\ forall tok,
       Js.map_has tok vocab = true \/ In tok toks ->
       Js.map_has tok vocab' = true.
Proof.
  induction toks as [|t toks IH]; intros vocab Hn; simpl.
  - split; [exact Hn|]. intros tok [H|[]]. exact H.
  - destruct (IH _ (numbered_add t vocab Hn)) as [Hn' Hhas].
    split; [exact Hn'|]. intros tok H. apply Hhas.
    destruct H as [H|[<-|H]]; [left|left|now right];
      apply has_add_word; auto.
Qed.

Lemma buildVocab_spec docs : forall vocab,
  numbered vocab ->
  let vocab' :=
    fold_left
      (fun vocab doc =>
         fold_left
           (fun vocab tok =>
              if Js.map_has tok vocab then vocab
              else Js.map_set tok (Js.map_size vocab) vocab)
           (tokenize rt doc) vocab)
      docs vocab in
  numbered vocab'
  /\ forall tok,
       Js.map_has tok vocab = true
       \/ (exists doc, In doc docs /\ In tok (tokenize rt doc)) ->
       Js.map_has tok vocab' = true.
Proof.
  induction docs as [|d docs IH]; intros vocab Hn; simpl.
  - split; [exact Hn|]. intros tok [H|(doc & [] & _)]. exact H.
  - destruct (addWords_spec (tokenize rt d) vocab Hn) as [Hn1 Hhas1].
    destruct (IH _ Hn1) as [Hn' Hhas].
    split; [exact Hn'|]. intros tok H. apply Hhas.
    destruct H as [H|(doc & [<-|Hin] & Htok)].
    + left. apply Hhas1. now left.
    + left. apply Hhas1. now right.
    + right. now exists doc.
Qed.

Lemma increment_length i vec :
  List.length (increment i vec) = List.length vec.
Proof.
  revert i. induction vec as [|x vec IH]; intros [|i]; simpl; auto.
Qed.

Lemma toVector_length text vocab :
  List.length (toVector rt text vocab) = Js.map_size vocab.
Proof.
  unfold toVector.
  assert (G : forall toks vec,
             List.length
               (fold_left
                  (fun vec tok =>
                     match Js.map_get tok vocab with
                     | Some i => increment i vec
                     | None => vec
                     end) toks vec)
             = List.length vec).
  { induction toks as [|t toks IH]; intro vec; simpl; [reflexivity|].
    rewrite IH. destruct (Js.map_get t vocab); [|reflexivity].
    apply increment_length. }
  rewrite G. apply repeat_length.
Qed.

Lemma numbered_index vocab tok i :
  numbered vocab -> Js.map_get tok vocab = Some i ->
  (i < Js.map_size vocab)%nat.
Proof.
  intros [Hn _] Hget. apply MapFacts.map_get_In in Hget.
  assert (Hi : In i (List.map snd vocab)).
  { change i with (snd (tok, i)). now apply in_map. }
  rewrite Hn in Hi. apply in_seq in Hi. lia.
Qed.

(** X21. [buildVocab] gives every word of the documents an index, the
    indices are 0, 1, 2, ... up to the size of the vocabulary in order of
    first appearance, each word once; so [toVector] never counts outside
    the vector, and every vector has the size of the vocabulary. *)
Theorem buildVocab_numbers_the_words docs :
  let vocab := buildVocab rt docs in
  List.map snd vocab = seq 0 (Js.map_size vocab)
  /\ NoDup (List.map fst vocab)
  /\ (forall doc tok,
        In doc docs -> In tok (tokenize rt doc) ->
        exists i, Js.map_get tok vocab = Some i)
  /\ (forall tok i,
        Js.map_get tok vocab = Some i -> (i < Js.map_size vocab)%nat)
  /\ forall text,
       List.length (toVector rt text vocab) = Js.map_size vocab.
Proof.
  intro vocab.
  assert (H0 : numbered []) by (split; [reflexivity|constructor]).
  destruct (buildVocab_spec docs [] H0) as [Hn Hhas].
  fold (buildVocab rt docs) in Hn, Hhas. fold vocab in Hn, Hhas.
  split; [exact (proj1 Hn)|]. split; [exact (proj2 Hn)|].
  split; [|split].
  - intros doc tok Hd Ht.
    assert (H : Js.map_has tok vocab = true)
      by (apply Hhas; right; now exists doc).
    unfold Js.map_has in H.
    destruct (Js.map_get tok vocab) as [i|]; [now exists i|discriminate].
  - intros tok i. now apply numbered_index.
  - intro text. apply toVector_length.
Qed.

Lemma sumProducts_comm a : forall b, sumProducts a b == sumProducts b a.
Proof.
  induction a as [|x a IH]; intros [|y b]; simpl; try reflexivity.
  rewrite IH. ring.
Qed.

Lemma Qeq_bool_comp x y z : x == y -> Qeq_bool x z = Qeq_bool y z.
Proof.
  intro H. destruct (Qeq_bool x z) eqn:E1, (Qeq_bool y z) eqn:E2;
    try reflexivity.
  - apply Qeq_bool_iff in E1. rewrite H in E1.
    apply Qeq_bool_iff in E1. congruence.
  - apply Qeq_bool_iff in E2. rewrite <- H in E2.
    apply Qeq_bool_iff in E2. congruence.
Qed.

(** X22. The similarity does not depend on the order of its arguments,
    and it is 0 for vectors of different lengths and for empty vectors,
    whatever [Math.sqrt] returns. *)
Theorem cosineSimilarity_symmetric a b :
  cosineSimilarity rt a b == cosineSimilarity rt b a
  /\ (List.length a <> List.length b -> cosineSimilarity rt a b = 0)
  /\ cosineSimilarity rt [] [] = 0.
Proof.
  split; [|split].
  - unfold cosineSimilarity.
    rewrite (Nat.eqb_sym (List.length b) (List.length a)).
    destruct (Nat.eqb (List.length a) (List.length b)) eqn:E; simpl;
      [|reflexivity].
    apply Nat.eqb_eq in E. rewrite <- E.
    destruct (Nat.eqb (List.length a) 0); [reflexivity|].
    assert (Hd : Math_sqrt rt (sumProducts a a) * Math_sqrt rt (sumProducts b b)
                 == Math_sqrt rt (sumProducts b b)
                    * Math_sqrt rt (sumProducts a a)) by ring.
    rewrite (Qeq_bool_comp _ _ 0 Hd).
    destruct (Qeq_bool _ 0); [reflexivity|].
    now rewrite Hd, (sumProducts_comm a b).
  - intro Hne. unfold cosineSimilarity.
    apply Nat.eqb_neq in Hne. now rewrite Hne.
  - reflexivity.
Qed.

End WithRuntime.

(** *** Concrete caches *)

Definition t0 : Z := 1793491200000.

Definition answer : ChatResponse :=
  {| resp_id := "r1"; content := "Qubits.";
     resp_provider := openai; resp_model := "gpt-4o-mini";
     tokens := {| tok_input := 10; tok_output := 20; tok_total := 30 |};
     resp_cost := 0.001; responseTimeMs := 120;
     resp_citations := None; cacheHit := false; finishReason := None |}.

Definition text : string := "Please explain quantum computing".

(** A cache holding one entry, stored at [t0] with the default TTL of one
    hour. *)
Definition oneEntry : Cache :=
  run ExampleRuntime.utc [OpStore text answer None t0 t0] (new DEFAULT_CONFIG).

Definition storedEntry : CacheEntry :=
  {| queryHash := "please explain q";
     queryText := text;
     ce_response := "Qubits.";
     entry_provider := openai; entry_model := "gpt-4o-mini";
     cost := 0.001; tokensUsed := 30;
     createdAt := t0; expiresAt := (t0 + 3600000)%Z; hitCount := 0 |}.

Example oneEntry_adapter :
  adapter oneEntry = [("please explain q", storedEntry)].
Proof. reflexivity. Qed.

(** The same words with other punctuation and case have another key and
    are found by the scan, with similarity 1. *)
Example semantic_hit :
  exists sim,
    fst (lookup ExampleRuntime.utc "please, explain QUANTUM computing!"
           (t0 + 1) (t0 + 2) oneEntry)
    = Some (bumpHitCount storedEntry, sim)
    /\ sim == 1.
Proof. eexists. split; [vm_compute; reflexivity | reflexivity]. Qed.

(** At the moment of expiry neither path returns the entry. *)
Example expired_miss :
  fst (lookup ExampleRuntime.utc text (t0 + 3600000) (t0 + 3600000) oneEntry)
  = None
  /\ fst (lookup ExampleRuntime.utc "please, explain QUANTUM computing!"
            (t0 + 3600000) (t0 + 3600000) oneEntry)
     = None.
Proof. vm_compute. split; reflexivity. Qed.

Definition otherText : string := "Kindly explain quantum computing".

(** A cache with a lower similarity threshold and two entries: one
    stored two hours before [t0], expired since one hour, and one stored
    at [t0]. *)
Definition twoEntries : Cache :=
  run ExampleRuntime.utc
    [ OpStore text answer None (t0 - 7200000) (t0 - 7200000);
      OpStore otherText answer None t0 t0 ]
    (new {| maxEntries := 1000; similarityThreshold := 0.7;
            defaultTtlMs := 3600000; realtimeTtlMs := 60000 |}).

Definition expiredEntry : CacheEntry :=
  {| queryHash := "please explain q";
     queryText := text;
     ce_response := "Qubits.";
     entry_provider := openai; entry_model := "gpt-4o-mini";
     cost := 0.001; tokensUsed := 30;
     createdAt := (t0 - 7200000)%Z; expiresAt := (t0 - 3600000)%Z;
     hitCount := 0 |}.

Definition freshEntry : CacheEntry :=
  {| queryHash := "kindly explain q";
     queryText := otherText;
     ce_response := "Qubits.";
     entry_provider := openai; entry_model := "gpt-4o-mini";
     cost := 0.001; tokensUsed := 30;
     createdAt := t0; expiresAt := (t0 + 3600000)%Z; hitCount := 0 |}.

Example twoEntries_adapter :
  adapter twoEntries
  = [("please explain q", expiredEntry); ("kindly explain q", freshEntry)].
Proof. reflexivity. Qed.

(** The lookup of the expired entry's own text finds that entry under its
    hash, passes it over, and returns the other entry from the scan. *)
Lemma lookup_never_returns_expired_witness :
  exists c',
    lookup ExampleRuntime.utc text (t0 + 1) (t0 + 2) twoEntries
    = (Some (bumpHitCount freshEntry, 3 # 4), c')
    /\ bumpHitCount freshEntry <> bumpHitCount expiredEntry.
Proof.
  exists (snd (lookup ExampleRuntime.utc text (t0 + 1) (t0 + 2) twoEntries)).
  assert (E : lookup ExampleRuntime.utc text (t0 + 1) (t0 + 2) twoEntries
              = (Some (bumpHitCount freshEntry, 3 # 4),
                 snd (lookup ExampleRuntime.utc text (t0 + 1) (t0 + 2)
                        twoEntries)))
    by (vm_compute; reflexivity).
  split; [exact E|].
  apply (proj2 (lookup_never_returns_expired ExampleRuntime.utc _ _ _ _ _ _ _ E)
           "please explain q" expiredEntry).
  - left. reflexivity.
  - vm_compute. discriminate.
  - vm_compute. discriminate.
Defined.

Lemma lookup_own_text_hits_witness :
  exists hit c',
    lookup ExampleRuntime.utc text (t0 + 1) (t0 + 2) oneEntry
    = (Some (hit, 1.0), c')
    /\ hitCount hit = 1%Z.
Proof.
  destruct (lookup_own_text_hits ExampleRuntime.utc
              [OpStore text answer None t0 t0] DEFAULT_CONFIG
              "please explain q" storedEntry (t0 + 1) (t0 + 2))
    as (hit & sim & c' & Hlookup & -> & -> & _).
  - left. reflexivity.
  - reflexivity.
  - exists (bumpHitCount storedEntry), c'. split; [exact Hlookup|reflexivity].
Defined.

Lemma store_then_lookup_hits_witness :
  exists hit c',
    lookup ExampleRuntime.utc text (t0 + 1) (t0 + 2)
      (store ExampleRuntime.utc text answer None t0 t0 (new DEFAULT_CONFIG))
    = (Some (hit, 1.0), c')
    /\ queryText hit = text
    /\ ce_response hit = "Qubits."
    /\ (entry_provider hit, entry_model hit) = (openai, "gpt-4o-mini")
    /\ cost hit = 0.001
    /\ createdAt hit = t0
    /\ expiresAt hit = (t0 + 3600000)%Z
    /\ hitCount hit = 1%Z.
Proof.
  apply (store_then_lookup_hits ExampleRuntime.utc text answer None t0 t0
           (t0 + 1) (t0 + 2) (new DEFAULT_CONFIG)).
  reflexivity.
Defined.

(** Of the two entries, none hit so far, the older one is evicted. *)
Lemma evictOldest_removes_least_valuable_witness :
  Js.map_size (adapter twoEntries) = 2%nat
  /\ Js.map_size (adapter (evictOldest twoEntries)) = 1%nat
  /\ adapter (evictOldest twoEntries) = [("kindly explain q", freshEntry)].
Proof.
  destruct (evictOldest_removes_least_valuable ExampleRuntime.utc
              [ OpStore text answer None (t0 - 7200000) (t0 - 7200000);
                OpStore otherText answer None t0 t0 ]
              {| maxEntries := 1000; similarityThreshold := 0.7;
                 defaultTtlMs := 3600000; realtimeTtlMs := 60000 |})
    as (victim & _ & _ & Hsize & _).
  - discriminate.
  - split; [reflexivity|]. split; [exact Hsize|reflexivity].
Defined.

(** A cache for a single entry. *)
Definition singleEntryConfig : SemanticCacheConfig :=
  {| maxEntries := 1; similarityThreshold := 0.82;
     defaultTtlMs := 3600000; realtimeTtlMs := 60000 |}.

Lemma cache_never_exceeds_maxEntries_witness :
  let c := run ExampleRuntime.utc
             [ OpStore text answer None t0 t0;
               OpStore otherText answer None (t0 + 1) (t0 + 1) ]
             (new singleEntryConfig) in
  (Z.of_nat (Js.map_size (adapter c)) <= 1)%Z
  /\ List.map fst (adapter c) = ["kindly explain q"].
Proof.
  intro c. split; [|reflexivity].
  apply (cache_never_exceeds_maxEntries ExampleRuntime.utc
           [ OpStore text answer None t0 t0;
             OpStore otherText answer None (t0 + 1) (t0 + 1) ]
           singleEntryConfig).
  reflexivity.
Defined.

End SemanticCacheFacts.

(* ------------------------------------------------------------------ *)
(** ** The cascade executor *)

Module CascadeFacts.
Import Cascade.

Section Executor.
Variables W T : Type.
Variable run : ProviderName -> string -> Monad.M W T.
Variable evaluate : T -> Monad.M W Q.
Variable onStep : option (StepInfo -> Monad.M W unit).

Local Notation "'loop'" := (Cascade.loop run evaluate onStep).
Local Notation "'outcomes'" := (Cascade.outcomes run evaluate onStep).
Local Notation "'executeCascade'" :=
  (Cascade.executeCascade run evaluate onStep).

(** The step at position [k] succeeded with the response [r] and the
    score [q]. *)
Definition succeeded (outs : list (option (T * Q))) (k : nat) (r : T) (q : Q)
  : Prop :=
  nth_error outs k = Some (Some (r, q)).

(** No step of [steps] reached its threshold. *)
Definition none_accepted (steps : list CascadeStep)
  (outs : list (option (T * Q))) : Prop :=
  forall j step r q,
    nth_error steps j = Some step -> succeeded outs j r q ->
    q < qualityThreshold step.

(** The result built from the step at index [k]. *)
Definition resultOf (total k : nat) (step : CascadeStep) (r : T)
  : CascadeResult T :=
  {| response := r; provider := step_provider step;
     model := step_model step; step := k; totalSteps := total;
     totalCost := 0 |}.

(** The statements after the loop. *)
Definition finish (total : nat) (b : Best T) : Result (CascadeResult T) :=
  match bestResponse b with
  | None => Throw AllCascadeStepsFailed
  | Some response =>
      Ok {| response := response; provider := bestProvider b;
            model := bestModel b; step := bestStep b;
            totalSteps := total; totalCost := 0 |}
  end.

(** The best-so-far variables after all of [steps] were tried. *)
Fixpoint bestAfter (i : nat) (steps : list CascadeStep)
  (outs : list (option (T * Q))) (b : Best T) : Best T :=
  match steps, outs with
  | step :: steps', o :: outs' =>
      bestAfter (S i) steps' outs'
        match o with
        | Some (r, q) => keepBest i step r q b
        | None => b
        end
  | _, _ => b
  end.


(** When no step reaches its threshold, the loop runs to its end and the
    result is what is left in the best-so-far variables. *)
Lemma loop_none_accepted total steps : forall i b w,
  none_accepted steps (outcomes i steps w) ->
  fst (loop total i steps b w)
  = finish total (bestAfter i steps (outcomes i steps w) b).
Proof.
  induction steps as [|step0 rest IH]; intros i b w Hnone.
  - simpl. unfold finish. destruct (bestResponse b); reflexivity.
  - unfold none_accepted, succeeded in *. simpl in *.
    destruct (attempt run evaluate onStep i step0 w) as [[[r0 q0]|e] w'] eqn:Ea.
    + assert (Hlow : q0 < qualityThreshold step0)
        by (apply (Hnone 0%nat step0 r0 q0); reflexivity).
      apply NumFacts.geb_lt in Hlow. rewrite Hlow. simpl.
      apply IH. intros j step r q Hn Hs.
      apply (Hnone (S j) step r q); assumption.
    + simpl. apply IH. intros j step r q Hn Hs.
      apply (Hnone (S j) step r q); assumption.
Qed.

(** The loop fails only after every step was tried and none reached its
    threshold. *)
Lemma loop_fails_inv total steps : forall i b w,
  fst (loop total i steps b w) = Throw AllCascadeStepsFailed ->
  none_accepted steps (outcomes i steps w).
Proof.
  induction steps as [|step0 rest IH]; intros i b w Hfail.
  - intros [|j] step r q H; discriminate.
  - unfold none_accepted, succeeded in *. simpl in *.
    destruct (attempt run evaluate onStep i step0 w) as [[[r0 q0]|e] w'] eqn:Ea.
    + destruct (Num.geb q0 (qualityThreshold step0)) eqn:Eg;
        [discriminate Hfail|].
      intros [|j] step r q Hn Hs; simpl in Hn, Hs.
      * injection Hn as <-. injection Hs as _ <-.
        now apply NumFacts.geb_lt.
      * exact (IH (S i) _ w' Hfail j step r q Hn Hs).
    + intros [|j] step r q Hn Hs; simpl in Hn, Hs; [discriminate Hs|].
      exact (IH (S i) _ w' Hfail j step r q Hn Hs).
Qed.

(** What is left in the best-so-far variables: either they were never
    assigned, and then no successful step scored above the initial
    [bestQuality]; or they hold the first of the successful steps with
    the highest score, which is above the initial [bestQuality]. *)
Lemma bestAfter_cases steps : forall i outs b,
  List.length outs = List.length steps ->
  (bestAfter i steps outs b = b
   /\ forall j r q, succeeded outs j r q -> q <= bestQuality b)
  \/ (exists k step r q,
        nth_error steps k = Some step /\ succeeded outs k r q
        /\ bestAfter i steps outs b
           = {| bestResponse := Some r; bestQuality := q;
                bestProvider := step_provider step;
                bestModel := step_model step; bestStep := (i + k)%nat |}
        /\ bestQuality b < q
        /\ (forall j r' q', (j < k)%nat -> succeeded outs j r' q' -> q' < q)
        /\ (forall j r' q', succeeded outs j r' q' -> q' <= q)).
Proof.
  unfold succeeded.
  induction steps as [|step0 rest IH]; intros i outs b Hlen.
  - left. split; [reflexivity|]. destruct outs; [|discriminate].
    intros [|j] r q H; discriminate.
  - destruct outs as [|o outs']; [discriminate|]. simpl in Hlen.
    injection Hlen as Hlen. simpl.
    set (b1 := match o with
               | Some (r, q) => keepBest i step0 r q b
               | None => b
               end).
    assert (Hb1 : (b1 = b /\ forall r q, o = Some (r, q) -> q <= bestQuality b)
                  \/ (exists r q, o = Some (r, q) /\ bestQuality b < q
                      /\ b1 = {| bestResponse := Some r; bestQuality := q;
                                 bestProvider := step_provider step0;
                                 bestModel := step_model step0;
                                 bestStep := i |})).
    { unfold b1. destruct o as [[r q]|].
      - unfold keepBest. destruct (Num.gtb q (bestQuality b)) eqn:E.
        + right. exists r, q. apply NumFacts.gtb_lt in E. auto.
        + left. split; [reflexivity|]. intros r' q' [= _ <-].
          now apply NumFacts.gtb_le.
      - left. split; [reflexivity|]. discriminate. }
    destruct (IH (S i) outs' b1 Hlen)
      as [[Hsame Hle]|(k & step & r & q & Hk & Hs & Hbest & Hlt & Hfirst & Hmax)].
    + destruct Hb1 as [[Eb1 Ho]|(r & q & Ho & Hlt & Eb1)].
      * left. rewrite Hsame, Eb1. split; [reflexivity|].
        intros [|j] r q H; simpl in H.
        -- injection H as H. now apply (Ho r q).
        -- rewrite <- Eb1. now apply (Hle j r q).
      * right. exists 0%nat, step0, r, q. simpl.
        rewrite Hsame, Eb1, Nat.add_0_r. subst o.
        repeat split; auto.
        -- intros j r' q' Hj. lia.
        -- intros [|j] r' q' H; simpl in H.
           ++ injection H as _ <-. apply Qle_refl.
           ++ specialize (Hle j r' q' H). now rewrite Eb1 in Hle.
    + right. exists (S k), step, r, q. simpl.
      rewrite Hbest, Nat.add_succ_r.
      assert (Hq0 : forall r' q', o = Some (r', q') -> q' < q).
      { intros r' q' Ho.
        destruct Hb1 as [[Eb1 Hob]|(r1 & q1 & Ho1 & _ & Eb1)].
        - rewrite Eb1 in Hlt. eapply Qle_lt_trans; [|exact Hlt].
          now apply (Hob r' q').
        - rewrite Ho in Ho1. injection Ho1 as -> ->.
          now rewrite Eb1 in Hlt. }
      assert (Hb : bestQuality b < q).
      { destruct Hb1 as [[Eb1 _]|(r1 & q1 & _ & Hlt1 & Eb1)].
        - now rewrite Eb1 in Hlt.
        - rewrite Eb1 in Hlt. simpl in Hlt.
          eapply Qlt_trans; eassumption. }
      repeat split; auto.
      * intros [|j] r' q' Hj H; simpl in H.
        -- injection H as H. now apply (Hq0 r' q').
        -- apply (Hfirst j r' q'); [lia|exact H].
      * intros [|j] r' q' H; simpl in H.
        -- injection H as H. apply Qlt_le_weak. now apply (Hq0 r' q').
        -- now apply (Hmax j r' q').
Qed.

Lemma outcomes_length steps : forall i w,
  List.length (outcomes i steps w) = List.length steps.
Proof.
  induction steps as [|step0 rest IH]; intros i w; simpl; [reflexivity|].
  destruct (attempt run evaluate onStep i step0 w) as [[?|?] w'];
    simpl; now rewrite IH.
Qed.

(** *** What [executeCascade] returns *)


(** X2. When no step reaches its threshold and some successful step
    scored above 0, the first of the successful steps with the highest
    score is returned. *)
Lemma executeCascade_best chain w k step r q :
  let outs := outcomes 0 chain w in
  none_accepted chain outs ->
  nth_error chain k = Some step ->
  succeeded outs k r q ->
  0 < q ->
  (forall j r' q', succeeded outs j r' q' -> q' <= q) ->
  (forall j r' q', (j < k)%nat -> succeeded outs j r' q' -> q' < q) ->
  fst (executeCascade chain w)
  = Ok (resultOf (List.length chain) k step r).
Proof.
  intros outs Hnone Hk Hs Hpos Hmax Hfirst. subst outs.
  unfold Cascade.executeCascade.
  destruct chain as [|first rest] eqn:Ec; [destruct k; discriminate|].
  rewrite <- Ec in *.
  rewrite (loop_none_accepted _ chain 0 _ w Hnone).
  set (b0 := {| bestResponse := None; bestQuality := 0;
                bestProvider := step_provider first;
                bestModel := step_model first; bestStep := 0 |}).
  destruct (bestAfter_cases chain 0 (outcomes 0 chain w) b0
              (outcomes_length chain 0 w))
    as [[_ Hle]|(k' & step' & r' & q' & Hk' & Hs' & -> & _ & Hfirst' & Hmax')].
  - exfalso. specialize (Hle k r q Hs). simpl in Hle.
    exact (Qlt_not_le _ _ Hpos Hle).
  - unfold finish. simpl.
    assert (Ekk : k' = k).
    { destruct (Nat.lt_trichotomy k' k) as [Hlt|[Heq|Hgt]]; [|exact Heq|].
      - exfalso. specialize (Hfirst k' r' q' Hlt Hs').
        specialize (Hmax' k r q Hs). exact (Qlt_not_le _ _ Hfirst Hmax').
      - exfalso. specialize (Hfirst' k r q Hgt Hs).
        specialize (Hmax k' r' q' Hs'). exact (Qlt_not_le _ _ Hfirst' Hmax). }
    subst k'. unfold succeeded in Hs, Hs'. rewrite Hs in Hs'.
    injection Hs' as <- <-. rewrite Hk in Hk'. injection Hk' as <-.
    reflexivity.
Qed.

(** X3. [executeCascade] fails with the all-steps-failed error exactly
    when the chain is not empty and every step either threw or returned a
    response whose score is below its threshold and not above 0. *)
Lemma executeCascade_fails_iff chain w :
  let outs := outcomes 0 chain w in
  fst (executeCascade chain w) = Throw AllCascadeStepsFailed
  <-> chain <> []
      /\ forall j step r q,
           nth_error chain j = Some step -> succeeded outs j r q ->
           q < qualityThreshold step /\ q <= 0.
Proof.
  intro outs. subst outs. unfold Cascade.executeCascade.
  destruct chain as [|first rest] eqn:Ec.
  - split; [discriminate|]. intros [H _]. congruence.
  - rewrite <- Ec in *.
    set (b0 := {| bestResponse := None; bestQuality := 0;
                  bestProvider := step_provider first;
                  bestModel := step_model first; bestStep := 0 |}).
    assert (Hne : chain <> []) by (rewrite Ec; discriminate).
    split.
    + intro Hfail. split; [exact Hne|].
      assert (Hnone : none_accepted chain (outcomes 0 chain w))
        by (now apply (loop_fails_inv (List.length chain) chain 0 b0 w)).
      rewrite (loop_none_accepted _ chain 0 b0 w Hnone) in Hfail.
      destruct (bestAfter_cases chain 0 (outcomes 0 chain w) b0
                  (outcomes_length chain 0 w))
        as [[_ Hle]|(k' & step' & r' & q' & _ & _ & E & _)].
      * intros j step r q Hj Hs. split; [now apply (Hnone j step r q)|].
        exact (Hle j r q Hs).
      * rewrite E in Hfail. discriminate.
    + intros [_ Hall].
      assert (Hnone : none_accepted chain (outcomes 0 chain w)).
      { intros j step r q Hj Hs. now apply (Hall j step r q). }
      rewrite (loop_none_accepted _ chain 0 b0 w Hnone).
      destruct (bestAfter_cases chain 0 (outcomes 0 chain w) b0
                  (outcomes_length chain 0 w))
        as [[-> _]|(k' & step' & r' & q' & Hk' & Hs' & _ & Hlt & _)].
      * reflexivity.
      * exfalso. destruct (Hall k' step' r' q' Hk' Hs') as [_ Hle].
        simpl in Hlt. exact (Qlt_not_le _ _ Hlt Hle).
Qed.

(** *** What a result is made of, and what is thrown *)

Lemma loop_result total steps : forall i b w res,
  fst (loop total i steps b w) = Ok res ->
  totalSteps res = total /\ totalCost res = 0
  /\ ((exists j st q,
         nth_error steps j = Some st /\ step res = (i + j)%nat
         /\ provider res = step_provider st /\ model res = step_model st
         /\ succeeded (outcomes i steps w) j (response res) q)
      \/ (bestResponse b = Some (response res)
          /\ provider res = bestProvider b /\ model res = bestModel b
          /\ step res = bestStep b)).
Proof.
  induction steps as [|step0 rest IH]; intros i b w res H.
  - simpl in H. destruct (bestResponse b) as [r|] eqn:Eb; [|discriminate].
    injection H as <-. simpl. split; [reflexivity|].
    split; [reflexivity|]. right. auto.
  - unfold succeeded in *. simpl in *.
    destruct (attempt run evaluate onStep i step0 w) as [[[r0 q0]|e] w'] eqn:Ea.
    + destruct (Num.geb q0 (qualityThreshold step0)) eqn:Eg.
      * injection H as <-. simpl. split; [reflexivity|].
        split; [reflexivity|]. left. exists 0%nat, step0, q0.
        simpl. rewrite Nat.add_0_r. auto.
      * destruct (IH (S i) _ w' res H) as (Ht & Hc & Hcase).
        split; [exact Ht|]. split; [exact Hc|].
        destruct Hcase as [(j & st & q & Hj & Hs & Hp & Hm & Ho)
                          |(Hr & Hp & Hm & Hs)].
        -- left. exists (S j), st, q. simpl.
           rewrite Nat.add_succ_r. auto.
        -- unfold keepBest in Hr, Hp, Hm, Hs.
           destruct (Num.gtb q0 (bestQuality b)).
           ++ simpl in Hr, Hp, Hm, Hs. injection Hr as Hr.
              left. exists 0%nat, step0, q0. simpl.
              rewrite Nat.add_0_r, <- Hr. auto.
           ++ right. auto.
    + destruct (IH (S i) _ w' res H) as (Ht & Hc & Hcase).
      split; [exact Ht|]. split; [exact Hc|].
      destruct Hcase as [(j & st & q & Hj & Hs & Hp & Hm & Ho)|Hb].
      * left. exists (S j), st, q. simpl. rewrite Nat.add_succ_r. auto.
      * right. exact Hb.
Qed.

(** X4. A result of [executeCascade] names a step of the chain: [step] is
    an index of the chain, [provider] and [model] are those of the step
    at that index, [response] is what [run] returned for that very step,
    [totalSteps] is the length of the chain, and [totalCost] is 0
    whatever the steps cost. *)
Theorem executeCascade_result_names_a_step chain w res :
  fst (executeCascade chain w) = Ok res ->
  totalSteps res = List.length chain
  /\ totalCost res = 0
  /\ (step res < List.length chain)%nat
  /\ exists st q,
       nth_error chain (step res) = Some st
       /\ provider res = step_provider st /\ model res = step_model st
       /\ succeeded (outcomes 0 chain w) (step res) (response res) q.
Proof.
  intro H. unfold Cascade.executeCascade in H.
  destruct chain as [|first rest] eqn:Ec; [discriminate H|].
  rewrite <- Ec in *.
  destruct (loop_result _ chain 0 _ w res H)
    as (Ht & Hc & [(j & st & q & Hj & Hs & Hp & Hm & Ho)|(Hr & _)]);
    [|discriminate Hr].
  simpl in Hs. rewrite Hs.
  split; [exact Ht|]. split; [exact Hc|]. split.
  - apply nth_error_Some. congruence.
  - exists st, q. auto.
Qed.

Lemma loop_throws total steps : forall i b w e,
  fst (loop total i steps b w) = Throw e -> e = AllCascadeStepsFailed.
Proof.
  induction steps as [|step0 rest IH]; intros i b w e H; simpl in H.
  - destruct (bestResponse b); [discriminate|]. now injection H.
  - destruct (attempt run evaluate onStep i step0 w) as [[[r0 q0]|e0] w'].
    + destruct (Num.geb q0 (qualityThreshold step0)); [discriminate|].
      exact (IH _ _ _ _ H).
    + exact (IH _ _ _ _ H).
Qed.

(** X5. Whatever [run], [evaluate] and [onStep] throw is caught:
    [executeCascade] throws a [TypeError] when the chain is empty (it
    reads [chain[0].provider]) and otherwise nothing but the
    all-steps-failed error. *)
Theorem executeCascade_exceptions chain w :
  (chain = [] -> fst (executeCascade chain w) = Throw TypeError)
  /\ forall e,
       fst (executeCascade chain w) = Throw e ->
       (chain = [] /\ e = TypeError)
       \/ (chain <> [] /\ e = AllCascadeStepsFailed).
Proof.
  split; [now intros ->|].
  intros e H. unfold Cascade.executeCascade in H.
  destruct chain as [|first rest]; [left; split; [reflexivity|]|right; split].
  - now injection H.
  - discriminate.
  - exact (loop_throws _ _ _ _ _ _ H).
Qed.

End Executor.

(** *** Concrete cascades

    The state is trivial; [run] answers with a text naming the model and
    [evaluate] reads the score off that text, as in the unit tests. *)

Definition mini (threshold : Q) : CascadeStep :=
  {| step_provider := openai; step_model := "gpt-4o-mini";
     qualityThreshold := threshold; maxCost := 0.05 |}.

Definition gpt4o (threshold : Q) : CascadeStep :=
  {| step_provider := openai; step_model := "gpt-4o";
     qualityThreshold := threshold; maxCost := 0.15 |}.

Definition sonar (threshold : Q) : CascadeStep :=
  {| step_provider := perplexity; step_model := "sonar";
     qualityThreshold := threshold; maxCost := 0.01 |}.

Definition answers : ProviderName -> string -> Monad.M unit string :=
  fun provider model =>
    Monad.ret ("response from " ++ providerString provider ++ "/" ++ model).

(** A [run] whose call for [gpt-4o-mini] throws. *)
Definition miniUnavailable : ProviderName -> string -> Monad.M unit string :=
  fun provider model =>
    if String.eqb model "gpt-4o-mini"
    then Monad.throw (Error "Model unavailable")
    else answers provider model.

Definition allFail : ProviderName -> string -> Monad.M unit string :=
  fun _ _ => Monad.throw (Error "Fail").

(** An [evaluate] that gives [forMini] to the answer of [gpt-4o-mini],
    [forSonar] to the answer of [sonar] and [other] to the rest. *)
Definition scores (forSonar forMini other : Q) : string -> Monad.M unit Q :=
  fun response =>
    Monad.ret
      (if String.eqb response "response from openai/gpt-4o-mini" then forMini
       else if String.eqb response "response from perplexity/sonar"
            then forSonar
            else other).

Definition stepOf {T} (r : Result (CascadeResult T) * unit) : option nat :=
  match fst r with Ok c => Some (step c) | Throw _ => None end.

Example returns_first_response_that_meets_threshold :
  stepOf (executeCascade answers (scores 0 9 10) None [mini 8; gpt4o 9] tt)
  = Some 0%nat.
Proof. reflexivity. Qed.

Example escalates_when_first_is_below_threshold :
  stepOf (executeCascade answers (scores 0 5 9) None [mini 8; gpt4o 9] tt)
  = Some 1%nat.
Proof. reflexivity. Qed.

Example returns_best_when_no_threshold_is_met :
  stepOf (executeCascade answers (scores 0 5 7) None [mini 10; gpt4o 10] tt)
  = Some 1%nat
  /\ stepOf (executeCascade answers (scores 0 7 5) None [mini 10; gpt4o 10] tt)
     = Some 0%nat.
Proof. split; reflexivity. Qed.

Example continues_after_a_failed_step :
  stepOf (executeCascade miniUnavailable (scores 9 9 9) None
            [mini 8; gpt4o 9] tt)
  = Some 1%nat.
Proof. reflexivity. Qed.

Example throws_when_all_steps_fail :
  fst (executeCascade allFail (scores 10 10 10) None [mini 8] tt)
  = Throw AllCascadeStepsFailed.
Proof. reflexivity. Qed.

(** Scenario: the chain (sonar, 7.0), (gpt-4o-mini, 8.5), (gpt-4o, 9.0)
    with scores 6.5 and 9.0 returns the second step's response. *)
Example scenario_escalation :
  fst (executeCascade answers (scores 6.5 9.0 0) None
         [sonar 7.0; mini 8.5; gpt4o 9.0] tt)
  = Ok {| response := "response from openai/gpt-4o-mini";
          provider := openai; model := "gpt-4o-mini"; step := 1;
          totalSteps := 3; totalCost := 0 |}.
Proof. reflexivity. Qed.

(** C1, at the input where the code departs from it. The only step of the
    chain succeeds and is scored 0, below its threshold 8: it is the
    successful step with the highest score, yet [executeCascade] does not
    return it but fails, because the best-so-far variables start at
    quality 0 and are assigned only on a score above them. *)
Theorem executeCascade_drops_best_step_scored_zero :
  let chain := [mini 8] in
  let outs := outcomes answers (scores 0 0 0) None 0 chain tt in
  outs = [Some ("response from openai/gpt-4o-mini", 0)]
  /\ none_accepted string chain outs
  /\ fst (executeCascade answers (scores 0 0 0) None chain tt)
     = Throw AllCascadeStepsFailed.
Proof.
  split; [reflexivity|]. split; [|reflexivity].
  intros [|[|j]] step r q Hn Hs; try discriminate.
  injection Hn as <-. injection Hs as _ <-. reflexivity.
Qed.

(** C2, at the input where the code departs from it. The first step's
    [run] throws, the second step's [run] returns a response, which is
    scored 0: [executeCascade] fails with the all-steps-failed error
    although a [run] call succeeded. *)
Theorem executeCascade_fails_although_a_run_succeeded :
  let chain := [mini 8; gpt4o 9] in
  outcomes miniUnavailable (scores 0 0 0) None 0 chain tt
  = [None; Some ("response from openai/gpt-4o", 0)]
  /\ fst (miniUnavailable openai "gpt-4o" tt)
     = Ok "response from openai/gpt-4o"
  /\ fst (executeCascade miniUnavailable (scores 0 0 0) None chain tt)
     = Throw AllCascadeStepsFailed.
Proof. repeat split. Qed.


Lemma executeCascade_best_witness :
  fst (executeCascade answers (scores 0 7 5) None [mini 10; gpt4o 10] tt)
  = Ok {| response := "response from openai/gpt-4o-mini";
          provider := openai; model := "gpt-4o-mini"; step := 0;
          totalSteps := 2; totalCost := 0 |}.
Proof.
  apply (executeCascade_best unit string answers (scores 0 7 5) None
           [mini 10; gpt4o 10] tt 0%nat (mini 10)
           "response from openai/gpt-4o-mini" 7).
  - intros [|[|[|j]]] step r q Hn Hs; try discriminate.
    + injection Hn as <-. injection Hs as _ <-. reflexivity.
    + injection Hn as <-. injection Hs as _ <-. reflexivity.
  - reflexivity.
  - reflexivity.
  - reflexivity.
  - intros [|[|[|j]]] r' q' Hs; try discriminate.
    + injection Hs as _ <-. apply Qle_refl.
    + injection Hs as _ <-. discriminate.
  - intros j r' q' Hj. lia.
Defined.

Lemma executeCascade_result_names_a_step_witness :
  let chain := [mini 8; gpt4o 9] in
  let res := {| response := "response from openai/gpt-4o";
                provider := openai; model := "gpt-4o"; step := 1%nat;
                totalSteps := 2%nat; totalCost := 0 |} in
  fst (executeCascade miniUnavailable (scores 9 9 9) None chain tt) = Ok res
  /\ totalSteps res = List.length chain
  /\ totalCost res = 0
  /\ (step res < List.length chain)%nat
  /\ exists st q,
       nth_error chain (step res) = Some st
       /\ provider res = step_provider st /\ model res = step_model st
       /\ succeeded string
            (outcomes miniUnavailable (scores 9 9 9) None 0 chain tt)
            (step res) (response res) q.
Proof.
  intros chain res. split; [reflexivity|].
  exact (executeCascade_result_names_a_step unit string miniUnavailable
           (scores 9 9 9) None chain tt res eq_refl).
Defined.

End CascadeFacts.

(* ------------------------------------------------------------------ *)
(** ** What a computation changes and what it throws *)

Module MonadFacts.

Section Changes.
Variable W : Type.
Variable R : W -> W -> Prop.
Hypothesis R_refl : forall w, R w w.
Hypothesis R_trans : forall w1 w2 w3, R w1 w2 -> R w2 w3 -> R w1 w3.

(** The state a computation ends in, thrown or not, is related by [R] to
    the state it started in. *)
Definition changes {X} (m : Monad.M W X) : Prop :=
  forall w, R w (snd (m w)).

Lemma changes_ret X (x : X) : changes (Monad.ret x).
Proof. intro w. apply R_refl. Qed.

Lemma changes_throw X e : changes (@Monad.throw W X e).
Proof. intro w. apply R_refl. Qed.

Lemma changes_get : changes (@Monad.get W).
Proof. intro w. apply R_refl. Qed.

Lemma changes_modify f : (forall w, R w (f w)) -> changes (Monad.modify f).
Proof. intros H w. apply H. Qed.

Lemma changes_bind X Y (m : Monad.M W X) (k : X -> Monad.M W Y) :
  changes m -> (forall x, changes (k x)) -> changes (Monad.bind m k).
Proof.
  intros Hm Hk w. unfold Monad.bind.
  specialize (Hm w). destruct (m w) as [[x|e] w']; simpl in *.
  - eapply R_trans; [exact Hm|]. apply Hk.
  - exact Hm.
Qed.

(** The cascade changes the state as its three callbacks do. *)
Lemma changes_loop T run evaluate onStep total steps :
  (forall p m, changes (run p m)) ->
  (forall r : T, changes (evaluate r)) ->
  (forall f info, onStep = Some f -> changes (f info)) ->
  forall i b, changes (Cascade.loop run evaluate onStep total i steps b).
Proof.
  intros Hrun Heval Hstep.
  assert (Hattempt : forall i step,
             changes (Cascade.attempt run evaluate onStep i step)).
  { intros i step. unfold Cascade.attempt.
    apply changes_bind; [apply Hrun|]. intro r.
    apply changes_bind; [apply Heval|]. intro q.
    apply changes_bind; [|intro; apply changes_ret].
    destruct onStep as [f|] eqn:E; [now apply (Hstep f)|apply changes_ret]. }
  induction steps as [|step rest IH]; intros i b w; simpl.
  - destruct (Cascade.bestResponse b); apply R_refl.
  - specialize (Hattempt i step w).
    destruct (Cascade.attempt run evaluate onStep i step w)
      as [[[r q]|e] w']; simpl in *.
    + destruct (Num.geb q (qualityThreshold step)); simpl;
        [exact Hattempt|].
      eapply R_trans; [exact Hattempt|apply IH].
    + eapply R_trans; [exact Hattempt|apply IH].
Qed.

Lemma changes_executeCascade T run evaluate onStep chain :
  (forall p m, changes (run p m)) ->
  (forall r : T, changes (evaluate r)) ->
  (forall f info, onStep = Some f -> changes (f info)) ->
  changes (Cascade.executeCascade run evaluate onStep chain).
Proof.
  intros Hrun Heval Hstep. unfold Cascade.executeCascade.
  destruct chain; [apply changes_throw|].
  now apply changes_loop.
Qed.

End Changes.

Lemma changes_weaken W (R R' : W -> W -> Prop) X (m : Monad.M W X) :
  (forall w w', R w w' -> R' w w') -> changes W R m -> changes W R' m.
Proof. intros H Hm w. apply H, Hm. Qed.

Section Throws.
Variable W : Type.
Variable P : Exn -> Prop.

(** Every exception that leaves the computation satisfies [P]. *)
Definition throwsOnly {X} (m : Monad.M W X) : Prop :=
  forall w e, fst (m w) = Throw e -> P e.

Lemma throwsOnly_ret X (x : X) : throwsOnly (Monad.ret x).
Proof. intros w e. discriminate. Qed.

Lemma throwsOnly_throw X e : P e -> throwsOnly (@Monad.throw W X e).
Proof. intros H w e' [= <-]. exact H. Qed.

Lemma throwsOnly_get : throwsOnly (@Monad.get W).
Proof. intros w e. discriminate. Qed.

Lemma throwsOnly_modify f : throwsOnly (@Monad.modify W f).
Proof. intros w e. discriminate. Qed.

Lemma throwsOnly_bind X Y (m : Monad.M W X) (k : X -> Monad.M W Y) :
  throwsOnly m -> (forall x, throwsOnly (k x)) ->
  throwsOnly (Monad.bind m k).
Proof.
  intros Hm Hk w e. unfold Monad.bind.
  specialize (Hm w). destruct (m w) as [[x|e'] w']; simpl in *.
  - apply Hk.
  - intros [= <-]. now apply Hm.
Qed.

(** Whatever its callbacks throw, the loop of the cascade throws only the
    all-steps-failed error. *)
Lemma throwsOnly_loop T run evaluate onStep total steps :
  P Cascade.AllCascadeStepsFailed ->
  forall i (b : Cascade.Best T),
    throwsOnly (Cascade.loop run evaluate onStep total i steps b).
Proof.
  intro HP. induction steps as [|step rest IH]; intros i b w e; simpl.
  - destruct (Cascade.bestResponse b); [discriminate|].
    intros [= <-]. exact HP.
  - destruct (Cascade.attempt run evaluate onStep i step w)
      as [[[r q]|e'] w']; simpl.
    + destruct (Num.geb q (qualityThreshold step)); simpl;
        [discriminate|apply IH].
    + apply IH.
Qed.

Lemma throwsOnly_executeCascade T run evaluate onStep chain :
  P Cascade.AllCascadeStepsFailed -> P TypeError ->
  throwsOnly (@Cascade.executeCascade W T run evaluate onStep chain).
Proof.
  intros HP HT. unfold Cascade.executeCascade.
  destruct chain; [now apply throwsOnly_throw|].
  now apply throwsOnly_loop.
Qed.

End Throws.

End MonadFacts.

(* ------------------------------------------------------------------ *)
(** ** The orchestrator *)

Module AgentManagerFacts.
Import AgentManager.

(** The types of the artifacts created so far, in order of creation. *)
Definition types (w : Process.World) : list Artifacts.ArtifactType :=
  match Process.artifactManager w with
  | Some m => List.map Artifacts.type (Artifacts.heap m)
  | None => []
  end.

(** No artifact is created and no provider is called. *)
Definition quiet (w w' : Process.World) : Prop :=
  types w' = types w /\ Process.providerCalls w' = Process.providerCalls w.

(** Artifacts may be created, none of them a [budget_reject], and those
    that exist keep their type. *)
Definition grows (w w' : Process.World) : Prop :=
  exists l, types w' = (types w ++ l)%list /\ ~ In Artifacts.budget_reject l.

(** A relation on the process, read on the state of [processQuery]. *)
Definition onWorld (R : Process.World -> Process.World -> Prop)
  (s s' : PState) : Prop :=
  R (fst s) (fst s').

Definition notBudgetExceeded (e : Exn) : Prop :=
  match e with
  | BudgetExceededError _ _ _ => False
  | _ => True
  end.

Lemma quiet_refl w : quiet w w.
Proof. split; reflexivity. Qed.

Lemma quiet_trans w1 w2 w3 : quiet w1 w2 -> quiet w2 w3 -> quiet w1 w3.
Proof. intros [A B] [C D]. split; congruence. Qed.

Lemma grows_refl w : grows w w.
Proof. exists []. split; [now rewrite app_nil_r|intros []]. Qed.

Lemma grows_trans w1 w2 w3 : grows w1 w2 -> grows w2 w3 -> grows w1 w3.
Proof.
  intros (l1 & E1 & N1) (l2 & E2 & N2). exists (l1 ++ l2)%list. split.
  - now rewrite E2, E1, app_assoc.
  - intro H. apply in_app_or in H. tauto.
Qed.

Lemma quiet_grows w w' : quiet w w' -> grows w w'.
Proof.
  intros [E _]. exists []. split; [now rewrite app_nil_r|intros []].
Qed.

Lemma onWorld_refl R : (forall w, R w w) -> forall s, onWorld R s s.
Proof. intros H s. apply H. Qed.

Lemma onWorld_trans R :
  (forall a b c, R a b -> R b c -> R a c) ->
  forall a b c, onWorld R a b -> onWorld R b c -> onWorld R a c.
Proof. intros H a b c. apply H. Qed.

(** [lift] and the local array. *)
Lemma changes_lift R X (m : Process.M X) :
  MonadFacts.changes _ R m -> MonadFacts.changes _ (onWorld R) (lift m).
Proof.
  intros H s. unfold lift, onWorld. specialize (H (fst s)).
  destruct (m (fst s)) as [r w']. exact H.
Qed.

Lemma throwsOnly_lift P X (m : Process.M X) :
  MonadFacts.throwsOnly _ P m -> MonadFacts.throwsOnly _ P (lift m).
Proof.
  intros H s e. unfold lift. specialize (H (fst s) e).
  destruct (m (fst s)) as [r w']. exact H.
Qed.

Lemma changes_generated R r :
  (forall w, R w w) -> MonadFacts.changes _ (onWorld R) (generated r).
Proof. intros H s. apply H. Qed.

Lemma changes_generatedArtifacts R :
  (forall w, R w w) -> MonadFacts.changes _ (onWorld R) generatedArtifacts.
Proof. intros H s. apply H. Qed.

(** Decompose a computation along its binds. *)
Ltac quiet_binds :=
  repeat match goal with
         | |- MonadFacts.changes _ _ (Monad.bind _ _) =>
             apply (MonadFacts.changes_bind _ quiet quiet_trans); [|intro]
         | |- MonadFacts.changes _ _ (Monad.ret _) =>
             apply (MonadFacts.changes_ret _ quiet quiet_refl)
         | |- MonadFacts.changes _ _ Monad.get =>
             apply (MonadFacts.changes_get _ quiet quiet_refl)
         | |- MonadFacts.changes _ _ (Monad.throw _) =>
             apply (MonadFacts.changes_throw _ quiet quiet_refl)
         end.

Create HintDb quiet.
Create HintDb total.

Ltac unchanged :=
  let w := fresh "w" in
  intro w; simpl;
  repeat match goal with
         | |- context [match ?x with _ => _ end] => destruct x; simpl
         end;
  try apply quiet_refl; split; reflexivity.

Ltac no_exception :=
  let w := fresh "w" in
  let e := fresh "e" in
  intros w e; simpl;
  repeat match goal with
         | |- context [match ?x with _ => _ end] => destruct x; simpl
         end;
  discriminate.

Section WithRuntime.
Variable rt : Runtime.
Variable env : Process.Env.

(** *** The effects of the process *)

Lemma quiet_dateNow : MonadFacts.changes _ quiet (Process.dateNow env).
Proof. unfold Process.dateNow. unchanged. Qed.

Lemma quiet_perfNow : MonadFacts.changes _ quiet (Process.perfNow env).
Proof. unfold Process.perfNow. unchanged. Qed.

Lemma quiet_uid : MonadFacts.changes _ quiet (Process.uid env).
Proof. unfold Process.uid. unchanged. Qed.

Lemma quiet_getBudgetTracker :
  MonadFacts.changes _ quiet Process.getBudgetTracker.
Proof. unfold Process.getBudgetTracker. unchanged. Qed.

Lemma quiet_getAnalytics : MonadFacts.changes _ quiet Process.getAnalytics.
Proof. unfold Process.getAnalytics. unchanged. Qed.

Lemma quiet_getArtifactManager :
  MonadFacts.changes _ quiet Process.getArtifactManager.
Proof.
  intro w. unfold Process.getArtifactManager, quiet, types.
  destruct (Process.artifactManager w) eqn:E; simpl; rewrite ?E; auto.
Qed.

Lemma quiet_set_tracker t :
  MonadFacts.changes _ quiet (Monad.modify (Process.set_tracker t)).
Proof. unchanged. Qed.

Lemma quiet_set_collector c :
  MonadFacts.changes _ quiet (Monad.modify (Process.set_collector c)).
Proof. unchanged. Qed.

Lemma quiet_onAgent f : MonadFacts.changes _ quiet (onAgent f).
Proof. unfold onAgent. unchanged. Qed.

#[local] Hint Resolve quiet_dateNow quiet_perfNow quiet_uid
  quiet_getBudgetTracker quiet_getAnalytics quiet_getArtifactManager
  quiet_set_tracker quiet_set_collector quiet_onAgent : quiet.

Lemma quiet_onTracker X (f : BudgetTracker.Tracker -> X * BudgetTracker.Tracker) :
  MonadFacts.changes _ quiet (Process.onTracker f).
Proof.
  unfold Process.onTracker. quiet_binds; auto with quiet.
  destruct (f x) as [y t']. quiet_binds; auto with quiet.
Qed.

Lemma quiet_onAnalytics f :
  MonadFacts.changes _ quiet (Process.onAnalytics f).
Proof. unfold Process.onAnalytics. quiet_binds; auto with quiet. Qed.

Lemma quiet_elapsed start :
  MonadFacts.changes _ quiet (Process.elapsed env start).
Proof. unfold Process.elapsed. quiet_binds; auto with quiet. Qed.

Lemma quiet_startTimer : MonadFacts.changes _ quiet (Process.startTimer env).
Proof. unfold Process.startTimer. auto with quiet. Qed.

#[local] Hint Resolve quiet_onTracker quiet_onAnalytics quiet_elapsed
  quiet_startTimer : quiet.

Lemma quiet_cacheLookup content :
  MonadFacts.changes _ quiet (cacheLookup rt env content).
Proof.
  unfold cacheLookup. quiet_binds.
  destruct (Process.cache (Process.agent x)); quiet_binds; auto with quiet.
  destruct (SemanticCache.lookup rt content x0 x1 c) as [r c'].
  quiet_binds; auto with quiet.
Qed.

Lemma quiet_cacheStore content response :
  MonadFacts.changes _ quiet (cacheStore rt env content response).
Proof.
  unfold cacheStore. quiet_binds.
  destruct (Process.cache (Process.agent x)); quiet_binds; auto with quiet.
Qed.

Lemma quiet_noteCacheMiss content :
  MonadFacts.changes _ quiet (noteCacheMiss env content).
Proof. unfold noteCacheMiss. quiet_binds; auto with quiet. Qed.

Lemma quiet_readDailyStatus :
  MonadFacts.changes _ quiet (readDailyStatus rt env).
Proof. unfold readDailyStatus. quiet_binds; auto with quiet. Qed.

Lemma quiet_routeEmergency query :
  MonadFacts.changes _ quiet (SmartRouter.routeEmergency rt env query).
Proof.
  unfold SmartRouter.routeEmergency. quiet_binds; auto with quiet.
  destruct (CostCalculator.cheapestModelWithinBudget _ _ _ _);
    quiet_binds.
Qed.

Lemma quiet_routeQuery query configured :
  MonadFacts.changes _ quiet (SmartRouter.routeQuery rt env query configured).
Proof.
  unfold SmartRouter.routeQuery. quiet_binds; auto with quiet.
  - destruct (SmartRouter.determineStrategy _ _); quiet_binds;
      auto using quiet_routeEmergency.
    destruct (SmartRouter.getCascadeChain query); quiet_binds.
  - destruct x0 as [selection chain]. quiet_binds.
    + destruct (BudgetTracker.isProviderDisabled _ _); quiet_binds.
      apply quiet_routeEmergency.
Qed.

Lemma quiet_postprocess content classification routing response :
  MonadFacts.changes _ quiet
    (postprocess rt env content classification routing response).
Proof.
  unfold postprocess. quiet_binds;
    auto using quiet_cacheStore with quiet.
Qed.

#[local] Hint Resolve quiet_cacheLookup quiet_cacheStore quiet_noteCacheMiss
  quiet_readDailyStatus quiet_routeEmergency quiet_routeQuery
  quiet_postprocess : quiet.

(** *** What never throws *)

Lemma getCascadeChain_not_empty query : SmartRouter.getCascadeChain query <> [].
Proof.
  unfold SmartRouter.getCascadeChain.
  destruct (cq_isRealtime query); [discriminate|].
  destruct (cq_complexity query); discriminate.
Qed.

(** A computation that returns in every state. *)
Definition total {X} (m : Process.M X) : Prop :=
  forall w, exists x w', m w = (Ok x, w').

Lemma total_ret X (x : X) : total (Monad.ret x).
Proof. intro w. now exists x, w. Qed.

Lemma total_bind X Y (m : Process.M X) (k : X -> Process.M Y) :
  total m -> (forall x, total (k x)) -> total (Monad.bind m k).
Proof.
  intros Hm Hk w. unfold Monad.bind.
  destruct (Hm w) as (x & w' & ->). apply Hk.
Qed.

Ltac total_binds :=
  repeat match goal with
         | |- total (Monad.bind _ _) => apply total_bind; [|intro]
         | |- total (Monad.ret _) => apply total_ret
         end.

Ltac returns :=
  let w := fresh "w" in
  intro w; simpl;
  repeat match goal with
         | |- context [match ?x with _ => _ end] => destruct x; simpl
         end;
  eexists; eexists; reflexivity.

Lemma total_dateNow : total (Process.dateNow env).
Proof. unfold Process.dateNow. returns. Qed.

Lemma total_perfNow : total (Process.perfNow env).
Proof. unfold Process.perfNow. returns. Qed.

Lemma total_uid : total (Process.uid env).
Proof. unfold Process.uid. returns. Qed.

Lemma total_getBudgetTracker : total Process.getBudgetTracker.
Proof. unfold Process.getBudgetTracker. returns. Qed.

Lemma total_getAnalytics : total Process.getAnalytics.
Proof. unfold Process.getAnalytics. returns. Qed.

Lemma total_getArtifactManager : total Process.getArtifactManager.
Proof. unfold Process.getArtifactManager. returns. Qed.

Lemma total_modify f : total (Monad.modify f).
Proof. returns. Qed.

Lemma total_get : total Monad.get.
Proof. returns. Qed.

#[local] Hint Resolve total_dateNow total_perfNow total_uid
  total_getBudgetTracker total_getAnalytics total_getArtifactManager
  total_modify total_get : total.

Lemma total_routeEmergency query :
  total (SmartRouter.routeEmergency rt env query).
Proof.
  unfold SmartRouter.routeEmergency. total_binds; auto with total.
  destruct (CostCalculator.cheapestModelWithinBudget _ _ _ _); total_binds.
Qed.

(** The router returns a decision in every state. *)
Lemma total_routeQuery query configured :
  total (SmartRouter.routeQuery rt env query configured).
Proof.
  unfold SmartRouter.routeQuery. total_binds; auto with total.
  - destruct (SmartRouter.determineStrategy _ _); total_binds;
      auto using total_routeEmergency.
    pose proof (getCascadeChain_not_empty query) as Hne.
    destruct (SmartRouter.getCascadeChain query); [congruence|].
    total_binds.
  - destruct x0 as [selection chain]. total_binds.
    destruct (BudgetTracker.isProviderDisabled _ _); total_binds.
    apply total_routeEmergency.
Qed.

Lemma throwsOnly_total P X (m : Process.M X) :
  total m -> MonadFacts.throwsOnly _ P m.
Proof.
  intros H w e. destruct (H w) as (x & w' & ->). discriminate.
Qed.

Lemma total_onTracker X (f : BudgetTracker.Tracker -> X * BudgetTracker.Tracker) :
  total (Process.onTracker f).
Proof.
  unfold Process.onTracker. total_binds; auto with total.
  destruct (f x) as [y t']. total_binds; auto with total.
Qed.

Lemma total_onAnalytics f : total (Process.onAnalytics f).
Proof. unfold Process.onAnalytics. total_binds; auto with total. Qed.

Lemma total_onArtifacts X (f : Artifacts.Manager -> X * Artifacts.Manager) :
  total (Process.onArtifacts f).
Proof.
  unfold Process.onArtifacts. total_binds; auto with total.
  destruct (f x) as [y m']. total_binds; auto with total.
Qed.

Lemma total_onAgent f : total (onAgent f).
Proof. unfold onAgent. auto with total. Qed.

Lemma total_elapsed start : total (Process.elapsed env start).
Proof. unfold Process.elapsed. total_binds; auto with total. Qed.

#[local] Hint Resolve total_onTracker total_onAnalytics total_onArtifacts
  total_onAgent total_elapsed total_routeQuery : total.

Lemma total_cacheStore content response :
  total (cacheStore rt env content response).
Proof.
  unfold cacheStore. total_binds; auto with total.
  destruct (Process.cache (Process.agent x)); total_binds; auto with total.
Qed.

Lemma total_recordArtifact f : total (recordArtifact env f).
Proof. unfold recordArtifact. total_binds; auto with total. Qed.

Lemma total_postprocess content classification routing response :
  total (postprocess rt env content classification routing response).
Proof.
  unfold postprocess. total_binds;
    auto using total_cacheStore with total.
Qed.

#[local] Hint Resolve total_cacheStore total_recordArtifact
  total_postprocess : total.

(** *** Recording an artifact *)

Lemma update_nth_types r f (h : list Artifacts.RoutingArtifact) :
  (forall a, Artifacts.type (f a) = Artifacts.type a) ->
  List.map Artifacts.type (Artifacts.update_nth r f h)
  = List.map Artifacts.type h.
Proof.
  intro Hf. revert r. induction h as [|a h IH]; intros [|r]; simpl;
    try reflexivity.
  - now rewrite Hf.
  - now rewrite IH.
Qed.

Lemma enrichWithResponse_types id response report m :
  List.map Artifacts.type
    (Artifacts.heap (Artifacts.enrichWithResponse id response report m))
  = List.map Artifacts.type (Artifacts.heap m).
Proof.
  unfold Artifacts.enrichWithResponse. destruct (find _ _); [|reflexivity].
  simpl. now apply update_nth_types.
Qed.

(** A method that pushes one artifact whose type satisfies [Q] creates
    exactly that artifact, returns the reference to it, and calls no
    provider. *)
Lemma recordArtifact_push (Q : Artifacts.ArtifactType -> Prop) f w :
  (forall id nowIso now m,
     exists a, f id nowIso now m = Artifacts.push a m
               /\ Q (Artifacts.type a)) ->
  exists ty w',
    recordArtifact env f w = (Ok (List.length (types w)), w')
    /\ types w' = (types w ++ [ty])%list /\ Q ty
    /\ Process.providerCalls w' = Process.providerCalls w.
Proof.
  intro Hf. unfold recordArtifact, Process.onArtifacts, Monad.bind,
    Process.getArtifactManager, Process.uid, Process.dateNow, Monad.modify,
    Monad.ret, types.
  destruct (Process.artifactManager w) as [m|] eqn:Em; simpl;
    rewrite ?Em; simpl.
  - destruct (Hf (Process.uuidAt env (Process.uidReads w))
                (Process.dateAt env (Process.dateReads w))
                (Process.dateAt env (S (Process.dateReads w))) m)
      as (a & -> & Ha).
    unfold Artifacts.push. simpl. exists (Artifacts.type a).
    eexists. split; [now rewrite length_map|].
    cbn. rewrite map_app. simpl. auto.
  - destruct (Hf (Process.uuidAt env (Process.uidReads w))
                (Process.dateAt env (Process.dateReads w))
                (Process.dateAt env (S (Process.dateReads w)))
                (Artifacts.new 5000))
      as (a & -> & Ha).
    unfold Artifacts.push. simpl. exists (Artifacts.type a).
    eexists. split; [reflexivity|]. cbn. auto.
Qed.

Lemma grows_recordArtifact f :
  (forall id nowIso now m,
     exists a, f id nowIso now m = Artifacts.push a m
               /\ Artifacts.type a <> Artifacts.budget_reject) ->
  MonadFacts.changes _ grows (recordArtifact env f).
Proof.
  intros Hf w.
  destruct (recordArtifact_push (fun t => t <> Artifacts.budget_reject) f w Hf)
    as (ty & w' & -> & Ht & Hne & _).
  simpl. exists [ty]. split; [exact Ht|].
  intros [H|[]]. now apply Hne.
Qed.

Lemma recordCascadeStep_pushes queryId query fromProvider fromModel to
    qualityScore qualityThreshold cost isLast id nowIso now m :
  exists a,
    Artifacts.recordCascadeStep rt id nowIso now queryId query fromProvider
      fromModel to qualityScore qualityThreshold cost isLast m
    = Artifacts.push a m
    /\ Artifacts.type a <> Artifacts.budget_reject.
Proof.
  unfold Artifacts.recordCascadeStep. eexists. split; [reflexivity|].
  simpl. destruct to; [discriminate|].
  destruct (Num.geb _ _); discriminate.
Qed.

(** *** Before the budget check *)

(** On the state of [processQuery]: the process stays quiet and the local
    array is left alone. *)
Definition quietP (s s' : PState) : Prop :=
  quiet (fst s) (fst s') /\ snd s' = snd s.

Lemma quietP_refl s : quietP s s.
Proof. split; [apply quiet_refl|reflexivity]. Qed.

Lemma quietP_trans s1 s2 s3 : quietP s1 s2 -> quietP s2 s3 -> quietP s1 s3.
Proof.
  intros [A B] [C D]. split; [eapply quiet_trans; eassumption|congruence].
Qed.

Lemma quietP_lift X (m : Process.M X) :
  MonadFacts.changes _ quiet m -> MonadFacts.changes _ quietP (lift m).
Proof.
  intros H s. unfold lift, quietP. specialize (H (fst s)).
  destruct (m (fst s)) as [r w']. simpl in *. auto.
Qed.

Ltac quietP_binds :=
  repeat match goal with
         | |- MonadFacts.changes _ _ (Monad.bind _ _) =>
             apply (MonadFacts.changes_bind _ quietP quietP_trans); [|intro]
         | |- MonadFacts.changes _ _ (Monad.ret _) =>
             apply (MonadFacts.changes_ret _ quietP quietP_refl)
         | |- MonadFacts.changes _ _ (lift _) => apply quietP_lift
         end.

Lemma quietP_preprocess content :
  MonadFacts.changes _ quietP (preprocess rt env content).
Proof. unfold preprocess. quietP_binds; auto with quiet. Qed.

Lemma quietP_check content :
  MonadFacts.changes _ quietP
    (Monad.bind (lift (noteCacheMiss env content))
       (fun _ => lift (readDailyStatus rt env))).
Proof. quietP_binds; auto with quiet. Qed.

(** *** After the budget check *)

Lemma grows_chat provider request model :
  MonadFacts.changes _ grows (Process.chat env provider request model).
Proof.
  intro w. unfold Process.chat, grows, types. simpl.
  exists []. split; [now rewrite app_nil_r|intros []].
Qed.

Lemma quiet_getProvider name : MonadFacts.changes _ quiet (getProvider name).
Proof.
  unfold getProvider. quiet_binds.
  destruct (Js.includes _ _ _); quiet_binds.
Qed.

Lemma quiet_enrich id response report :
  MonadFacts.changes _ quiet
    (Process.onArtifacts (fun m =>
       (tt, Artifacts.enrichWithResponse id response report m))).
Proof.
  intro w. unfold Process.onArtifacts, Process.getArtifactManager,
    Monad.bind, Monad.modify, Monad.ret, quiet, types.
  destruct (Process.artifactManager w) as [m|] eqn:Em; cbn;
    rewrite ?Em; cbn.
  - split; [apply enrichWithResponse_types|reflexivity].
  - split; reflexivity.
Qed.

Ltac grows_leaf :=
  first [ apply grows_chat
        | apply (MonadFacts.changes_weaken _ quiet grows _ _ quiet_grows);
          first [ apply quiet_getProvider | apply quiet_enrich
                | solve [auto with quiet] ] ].

Ltac grows_binds :=
  repeat match goal with
         | |- MonadFacts.changes _ (onWorld grows) (Monad.bind _ _) =>
             apply (MonadFacts.changes_bind _ (onWorld grows)
                      (onWorld_trans grows grows_trans)); [|intro]
         | |- MonadFacts.changes _ (onWorld grows) (Monad.ret _) =>
             apply (MonadFacts.changes_ret _ (onWorld grows)
                      (onWorld_refl grows grows_refl))
         | |- MonadFacts.changes _ (onWorld grows) (lift _) =>
             apply changes_lift
         | |- MonadFacts.changes _ (onWorld grows) (generated _) =>
             apply (changes_generated grows _ grows_refl)
         | |- MonadFacts.changes _ (onWorld grows) generatedArtifacts =>
             apply (changes_generatedArtifacts grows grows_refl)
         | |- MonadFacts.changes _ grows (Monad.bind _ _) =>
             apply (MonadFacts.changes_bind _ grows grows_trans); [|intro]
         | |- MonadFacts.changes _ grows (Monad.ret _) =>
             apply (MonadFacts.changes_ret _ grows grows_refl)
         end.

Lemma grows_cascadeRun queryId content opts provider model :
  MonadFacts.changes _ (onWorld grows)
    (cascadeRun env queryId content opts provider model).
Proof. unfold cascadeRun. grows_binds; grows_leaf. Qed.

Lemma grows_cascadeEvaluate classification resp :
  MonadFacts.changes _ (onWorld grows)
    (cascadeEvaluate rt classification resp).
Proof. unfold cascadeEvaluate. grows_binds; grows_leaf. Qed.

Lemma grows_cascadeOnStep queryId classification chain info :
  MonadFacts.changes _ (onWorld grows)
    (cascadeOnStep rt env queryId classification chain info).
Proof.
  unfold cascadeOnStep.
  destruct (nth_error chain (Cascade.index info)) as [current|].
  - grows_binds. apply grows_recordArtifact.
    intros. apply recordCascadeStep_pushes.
  - apply (MonadFacts.changes_throw _ (onWorld grows)
             (onWorld_refl grows grows_refl)).
Qed.

Lemma grows_execute pre content opts routing routeArtifact :
  MonadFacts.changes _ (onWorld grows)
    (execute rt env pre content opts routing routeArtifact).
Proof.
  assert (Hdirect :
            forall k : ChatResponse -> Process.M ChatResponse,
              (forall r, MonadFacts.changes _ grows (k r)) ->
              MonadFacts.changes _ (onWorld grows)
                (lift (Monad.bind (getProvider (rd_provider routing))
                         (fun provider =>
                            Monad.bind
                              (Process.chat env provider
                                 (mkRequest (pre_queryId pre) content opts)
                                 (rd_model routing)) k)))).
  { intros k Hk. grows_binds; try grows_leaf. apply Hk. }
  assert (Hk : forall response,
             MonadFacts.changes _ grows
               (Monad.bind
                  (onAgent
                     (addQuality
                        (QualityEstimator.overallScore
                           (QualityEstimator.estimate rt response
                              (pre_classification pre)))))
                  (fun _ =>
                     Monad.bind Process.getArtifactManager
                       (fun m =>
                          Monad.bind
                            (Process.onArtifacts
                               (fun m0 =>
                                  (tt,
                                   Artifacts.enrichWithResponse
                                     match Artifacts.deref m routeArtifact with
                                     | Some a => Artifacts.id a
                                     | None => ""
                                     end response
                                     (Some
                                        (QualityEstimator.estimate rt response
                                           (pre_classification pre))) m0)))
                            (fun _ => Monad.ret response))))).
  { intro response. grows_binds; grows_leaf. }
  unfold execute.
  destruct (rd_strategy routing); try (apply Hdirect; exact Hk).
  destruct (cascadeChain routing) as [chain|]; [|apply Hdirect; exact Hk].
  grows_binds.
  apply (MonadFacts.changes_executeCascade _ (onWorld grows)
           (onWorld_refl grows grows_refl) (onWorld_trans grows grows_trans)).
  - intros. apply grows_cascadeRun.
  - intros. apply grows_cascadeEvaluate.
  - intros f info [= <-]. apply grows_cascadeOnStep.
Qed.

(** What is left of [routeAndExecute] once the route decision has been
    recorded. *)
Definition afterRouteDecision (pre : Pre) (content : string) (opts : Opts)
  (routing : RoutingDecision) (routeArtifact : Artifacts.Ref)
  : PM AgentResponse :=
  Monad.bind (generated routeArtifact) (fun _ =>
  Monad.bind (execute rt env pre content opts routing routeArtifact)
    (fun response =>
  Monad.bind (lift (postprocess rt env content (pre_classification pre)
                      routing response)) (fun _ =>
  Monad.bind generatedArtifacts (fun artifacts =>
  Monad.bind (lift (Process.elapsed env (pre_start pre))) (fun totalTimeMs =>
  Monad.ret
    {| ar_response := response;
       classification := pre_classification pre;
       routing := routing;
       ar_artifacts := artifacts;
       ar_cacheHit := false;
       totalTimeMs := totalTimeMs |}))))).

Lemma grows_afterRouteDecision pre content opts routing routeArtifact :
  MonadFacts.changes _ (onWorld grows)
    (afterRouteDecision pre content opts routing routeArtifact).
Proof.
  unfold afterRouteDecision. grows_binds; try grows_leaf.
  apply grows_execute.
Qed.

(** *** What [routeAndExecute] throws *)

Ltac throws_binds :=
  repeat match goal with
         | |- MonadFacts.throwsOnly _ _ (Monad.bind _ _) =>
             apply MonadFacts.throwsOnly_bind; [|intro]
         | |- MonadFacts.throwsOnly _ _ (Monad.ret _) =>
             apply MonadFacts.throwsOnly_ret
         | |- MonadFacts.throwsOnly _ _ (lift _) => apply throwsOnly_lift
         | |- MonadFacts.throwsOnly _ _ Monad.get =>
             apply MonadFacts.throwsOnly_get
         | |- MonadFacts.throwsOnly _ _ (generated _) => no_exception
         | |- MonadFacts.throwsOnly _ _ generatedArtifacts => no_exception
         end.

Lemma throws_chat provider request model :
  MonadFacts.throwsOnly _ notBudgetExceeded
    (Process.chat env provider request model).
Proof.
  intros w e. unfold Process.chat. simpl.
  destruct (Process.chatAt env _ provider request model);
    [discriminate|]. intros [= <-]. exact I.
Qed.

Lemma throws_getProvider name :
  MonadFacts.throwsOnly _ notBudgetExceeded (getProvider name).
Proof.
  unfold getProvider. throws_binds.
  destruct (Js.includes _ _ _); throws_binds.
  now apply MonadFacts.throwsOnly_throw.
Qed.

Ltac throws_leaf :=
  first [ apply throws_chat | apply throws_getProvider
        | apply throwsOnly_total; solve [auto with total] ].

Lemma throws_execute pre content opts routing routeArtifact :
  MonadFacts.throwsOnly _ notBudgetExceeded
    (execute rt env pre content opts routing routeArtifact).
Proof.
  assert (Hdirect :
            forall k : ChatResponse -> Process.M ChatResponse,
              (forall r, total (k r)) ->
              MonadFacts.throwsOnly _ notBudgetExceeded
                (lift (Monad.bind (getProvider (rd_provider routing))
                         (fun provider =>
                            Monad.bind
                              (Process.chat env provider
                                 (mkRequest (pre_queryId pre) content opts)
                                 (rd_model routing)) k)))).
  { intros k Hk. throws_binds; throws_leaf. }
  assert (Hk : forall response,
             total
               (Monad.bind
                  (onAgent
                     (addQuality
                        (QualityEstimator.overallScore
                           (QualityEstimator.estimate rt response
                              (pre_classification pre)))))
                  (fun _ =>
                     Monad.bind Process.getArtifactManager
                       (fun m =>
                          Monad.bind
                            (Process.onArtifacts
                               (fun m0 =>
                                  (tt,
                                   Artifacts.enrichWithResponse
                                     match Artifacts.deref m routeArtifact with
                                     | Some a => Artifacts.id a
                                     | None => ""
                                     end response
                                     (Some
                                        (QualityEstimator.estimate rt response
                                           (pre_classification pre))) m0)))
                            (fun _ => Monad.ret response))))).
  { intro response. total_binds; auto with total. }
  unfold execute.
  destruct (rd_strategy routing); try (apply Hdirect; exact Hk).
  destruct (cascadeChain routing) as [chain|]; [|apply Hdirect; exact Hk].
  throws_binds.
  apply MonadFacts.throwsOnly_executeCascade; exact I.
Qed.

Lemma throws_afterRouteDecision pre content opts routing routeArtifact :
  MonadFacts.throwsOnly _ notBudgetExceeded
    (afterRouteDecision pre content opts routing routeArtifact).
Proof.
  unfold afterRouteDecision. throws_binds; try throws_leaf.
  apply throws_execute.
Qed.

(** *** Budget admission *)

Lemma bind_then X Y Z (m : PM X) (n : PM Y) (k : Y -> PM Z) s1 y s2 :
  Monad.bind m (fun _ => n) s1 = (Ok y, s2) ->
  Monad.bind m (fun _ => Monad.bind n k) s1 = k y s2.
Proof.
  unfold Monad.bind. destruct (m s1) as [[x|e] s']; [|discriminate].
  destruct (n s') as [[y'|e] s'']; [|discriminate].
  now intros [= -> ->].
Qed.

Lemma recordBudgetReject_pushes queryId query dailySpent dailyLimit
    estimatedCost id nowIso now m :
  exists a,
    Artifacts.recordBudgetReject rt id nowIso now queryId query dailySpent
      dailyLimit estimatedCost m
    = Artifacts.push a m
    /\ Artifacts.type a = Artifacts.budget_reject.
Proof. eexists. split; reflexivity. Qed.

Lemma recordRouteDecision_pushes queryId query decision confidence
    id nowIso now m :
  exists a,
    Artifacts.recordRouteDecision rt id nowIso now queryId query decision
      confidence m
    = Artifacts.push a m
    /\ Artifacts.type a = Artifacts.route_decision.
Proof. eexists. split; reflexivity. Qed.

(** C3. Take a call of [processQuery] whose pre-processing ends without a
    cache hit, and let [dailyStatus] be the daily status that the budget
    check then reads.  Up to that point no artifact has been created and
    no provider called.  If [percentUsed >= 100], the call creates exactly
    one artifact, of type [budget_reject], keeps the reference to it in
    its local array, calls no provider and fails with [BudgetExceeded] for
    the daily period.  If [percentUsed < 100], the call continues with
    routing: the first artifact it creates is the [route_decision], no
    [budget_reject] is created, and it does not fail with
    [BudgetExceeded]. *)
Theorem budget_admission content opts s pre s1 dailyStatus s2 :
  preprocess rt env content s = (Ok pre, s1) ->
  pre_cacheResult pre = None ->
  Monad.bind (lift (noteCacheMiss env content))
    (fun _ => lift (readDailyStatus rt env)) s1 = (Ok dailyStatus, s2) ->
  let out := processQuery rt env content opts s in
  (types (fst s2) = types (fst s)
   /\ Process.providerCalls (fst s2) = Process.providerCalls (fst s))
  /\ (100 <= percentUsed dailyStatus ->
      fst out
      = Throw (BudgetExceededError "daily" (spent dailyStatus)
                 (limit dailyStatus))
      /\ types (fst (snd out))
         = (types (fst s) ++ [Artifacts.budget_reject])%list
      /\ snd (snd out) = (snd s ++ [List.length (types (fst s))])%list
      /\ Process.providerCalls (fst (snd out))
         = Process.providerCalls (fst s))
  /\ (percentUsed dailyStatus < 100 ->
      out = routeAndExecute rt env pre content opts s2
      /\ (exists l,
            types (fst (snd out))
            = (types (fst s) ++ Artifacts.route_decision :: l)%list
            /\ ~ In Artifacts.budget_reject l)
      /\ forall e, fst out = Throw e -> notBudgetExceeded e).
Proof.
  intros Hpre Hmiss Hcheck out.
  assert (Hq1 : quietP s s1).
  { pose proof (quietP_preprocess content s) as H. now rewrite Hpre in H. }
  assert (Hq2 : quietP s1 s2).
  { pose proof (quietP_check content s1) as H. now rewrite Hcheck in H. }
  destruct (quietP_trans _ _ _ Hq1 Hq2) as [[Htypes Hcalls] Hlocal].
  assert (Eout : out
                 = (if Num.geb (percentUsed dailyStatus) 100
                    then rejectBudget rt env pre dailyStatus
                    else routeAndExecute rt env pre content opts) s2).
  { unfold out, processQuery. unfold Monad.bind at 1.
    rewrite Hpre, Hmiss. unfold onCacheMiss.
    exact (bind_then _ _ _ _ _ _ s1 dailyStatus s2 Hcheck). }
  split; [split; assumption|]. split.
  - intro Hover. apply NumFacts.geb_le in Hover. rewrite Hover in Eout.
    destruct (recordArtifact_push (fun t => t = Artifacts.budget_reject)
                (fun id nowIso now =>
                   Artifacts.recordBudgetReject rt id nowIso now
                     (pre_queryId pre) (pre_classification pre)
                     (spent dailyStatus) (limit dailyStatus) 0)
                (fst s2))
      as (ty & w' & Hrec & Hty & -> & Hc).
    { intros. apply recordBudgetReject_pushes. }
    unfold rejectBudget, Monad.bind, lift in Eout. rewrite Hrec in Eout.
    simpl in Eout. rewrite Eout. simpl.
    rewrite Hty, Hc, Htypes, Hcalls, Hlocal. auto.
  - intro Hunder. apply NumFacts.geb_lt in Hunder. rewrite Hunder in Eout.
    split; [exact Eout|].
    destruct (total_routeQuery (pre_classification pre) None (fst s2))
      as (decision & w3 & Hroute).
    pose proof (quiet_routeQuery (pre_classification pre) None (fst s2))
      as [Ht3 _].
    rewrite Hroute in Ht3. simpl in Ht3.
    destruct (recordArtifact_push (fun t => t = Artifacts.route_decision)
                (fun id nowIso now =>
                   Artifacts.recordRouteDecision rt id nowIso now
                     (pre_queryId pre) (pre_classification pre) decision None)
                w3)
      as (ty & w4 & Hrec & Hty & -> & _).
    { intros. apply recordRouteDecision_pushes. }
    assert (Erest : out
                    = afterRouteDecision pre content opts decision
                        (List.length (types w3)) (w4, snd s2)).
    { rewrite Eout.
      change (routeAndExecute rt env pre content opts)
        with (Monad.bind
                (lift (SmartRouter.routeQuery rt env (pre_classification pre)
                         None))
                (fun routing =>
                   Monad.bind
                     (lift (recordArtifact env (fun id nowIso now =>
                        Artifacts.recordRouteDecision rt id nowIso now
                          (pre_queryId pre) (pre_classification pre) routing
                          None)))
                     (fun routeArtifact =>
                        afterRouteDecision pre content opts routing
                          routeArtifact))).
      unfold Monad.bind at 1. unfold lift at 1. rewrite Hroute.
      unfold Monad.bind at 1. unfold lift at 1. simpl fst. rewrite Hrec.
      reflexivity. }
    split.
    + pose proof (grows_afterRouteDecision pre content opts decision
                    (List.length (types w3)) (w4, snd s2)) as (l & Hl & Hno).
      rewrite <- Erest in Hl. simpl in Hl. exists l. split; [|exact Hno].
      rewrite Hl, Hty, Ht3, Htypes, <- app_assoc. reflexivity.
    + intros e He. rewrite Erest in He.
      exact (throws_afterRouteDecision pre content opts decision _ _ e He).
Qed.

(** *** What is recorded in the budget tracker *)

(** The cost records of the tracker; none before the singleton exists. *)
Definition recorded (w : Process.World) : list ActualCost :=
  match Process.tracker w with
  | Some t => BudgetTracker.costs t
  | None => []
  end.

(** No cost is recorded. *)
Definition keeps (w w' : Process.World) : Prop := recorded w' = recorded w.

Lemma keeps_refl w : keeps w w.
Proof. reflexivity. Qed.

Lemma keeps_trans w1 w2 w3 : keeps w1 w2 -> keeps w2 w3 -> keeps w1 w3.
Proof. unfold keeps. congruence. Qed.

Ltac keeps_binds :=
  cbv zeta;
  repeat match goal with
         | |- MonadFacts.changes _ (onWorld keeps) (Monad.bind _ _) =>
             apply (MonadFacts.changes_bind _ (onWorld keeps)
                      (onWorld_trans keeps keeps_trans)); [|intro]
         | |- MonadFacts.changes _ (onWorld keeps) (Monad.ret _) =>
             apply (MonadFacts.changes_ret _ (onWorld keeps)
                      (onWorld_refl keeps keeps_refl))
         | |- MonadFacts.changes _ (onWorld keeps) (Monad.throw _) =>
             apply (MonadFacts.changes_throw _ (onWorld keeps)
                      (onWorld_refl keeps keeps_refl))
         | |- MonadFacts.changes _ (onWorld keeps) (lift _) =>
             apply changes_lift
         | |- MonadFacts.changes _ (onWorld keeps) (generated _) =>
             apply (changes_generated keeps _ keeps_refl)
         | |- MonadFacts.changes _ (onWorld keeps) generatedArtifacts =>
             apply (changes_generatedArtifacts keeps keeps_refl)
         | |- MonadFacts.changes _ keeps (Monad.bind _ _) =>
             apply (MonadFacts.changes_bind _ keeps keeps_trans); [|intro]
         | |- MonadFacts.changes _ keeps (Monad.ret _) =>
             apply (MonadFacts.changes_ret _ keeps keeps_refl)
         | |- MonadFacts.changes _ keeps Monad.get =>
             apply (MonadFacts.changes_get _ keeps keeps_refl)
         | |- MonadFacts.changes _ keeps (Monad.throw _) =>
             apply (MonadFacts.changes_throw _ keeps keeps_refl)
         end.

Ltac kept :=
  let w := fresh "w" in
  intro w; unfold keeps, recorded; simpl;
  repeat match goal with
         | |- context [match ?x with _ => _ end] =>
             lazymatch x with
             | Process.tracker _ => fail
             | _ => destruct x; simpl
             end
         end;
  reflexivity.

Create HintDb spend.

Lemma keeps_dateNow : MonadFacts.changes _ keeps (Process.dateNow env).
Proof. unfold Process.dateNow. kept. Qed.

Lemma keeps_perfNow : MonadFacts.changes _ keeps (Process.perfNow env).
Proof. unfold Process.perfNow. kept. Qed.

Lemma keeps_uid : MonadFacts.changes _ keeps (Process.uid env).
Proof. unfold Process.uid. kept. Qed.

Lemma keeps_getBudgetTracker :
  MonadFacts.changes _ keeps Process.getBudgetTracker.
Proof.
  intro w. unfold Process.getBudgetTracker, keeps, recorded.
  destruct (Process.tracker w) eqn:E; simpl; rewrite ?E; reflexivity.
Qed.

Lemma keeps_getAnalytics : MonadFacts.changes _ keeps Process.getAnalytics.
Proof. unfold Process.getAnalytics. kept. Qed.

Lemma keeps_getArtifactManager :
  MonadFacts.changes _ keeps Process.getArtifactManager.
Proof. unfold Process.getArtifactManager. kept. Qed.

Lemma keeps_set_collector c :
  MonadFacts.changes _ keeps (Monad.modify (Process.set_collector c)).
Proof. kept. Qed.

Lemma keeps_set_artifactManager m :
  MonadFacts.changes _ keeps (Monad.modify (Process.set_artifactManager m)).
Proof. kept. Qed.

Lemma keeps_onAgent f : MonadFacts.changes _ keeps (onAgent f).
Proof. unfold onAgent. kept. Qed.

Lemma keeps_chat provider request model :
  MonadFacts.changes _ keeps (Process.chat env provider request model).
Proof. unfold Process.chat. kept. Qed.

#[local] Hint Resolve keeps_dateNow keeps_perfNow keeps_uid
  keeps_getBudgetTracker keeps_getAnalytics keeps_getArtifactManager
  keeps_set_collector keeps_set_artifactManager keeps_onAgent
  keeps_chat : spend.

Lemma keeps_onAnalytics f :
  MonadFacts.changes _ keeps (Process.onAnalytics f).
Proof. unfold Process.onAnalytics. keeps_binds; auto with spend. Qed.

Lemma keeps_onArtifacts X (f : Artifacts.Manager -> X * Artifacts.Manager) :
  MonadFacts.changes _ keeps (Process.onArtifacts f).
Proof.
  unfold Process.onArtifacts. keeps_binds; auto with spend.
  destruct (f x) as [y m']. keeps_binds; auto with spend.
Qed.

Lemma keeps_elapsed start :
  MonadFacts.changes _ keeps (Process.elapsed env start).
Proof. unfold Process.elapsed. keeps_binds; auto with spend. Qed.

Lemma keeps_startTimer : MonadFacts.changes _ keeps (Process.startTimer env).
Proof. unfold Process.startTimer. auto with spend. Qed.

Lemma keeps_getProvider name : MonadFacts.changes _ keeps (getProvider name).
Proof.
  unfold getProvider. keeps_binds.
  destruct (Js.includes _ _ _); keeps_binds.
Qed.

#[local] Hint Resolve keeps_onAnalytics keeps_onArtifacts keeps_elapsed
  keeps_startTimer keeps_getProvider : spend.

Lemma keeps_cacheLookup content :
  MonadFacts.changes _ keeps (cacheLookup rt env content).
Proof.
  unfold cacheLookup. keeps_binds.
  destruct (Process.cache (Process.agent x)); keeps_binds; auto with spend.
  destruct (SemanticCache.lookup rt content x0 x1 c) as [r c'].
  keeps_binds; auto with spend.
Qed.

Lemma keeps_cacheStore content response :
  MonadFacts.changes _ keeps (cacheStore rt env content response).
Proof.
  unfold cacheStore. keeps_binds.
  destruct (Process.cache (Process.agent x)); keeps_binds; auto with spend.
Qed.

Lemma keeps_recordArtifact f :
  MonadFacts.changes _ keeps (recordArtifact env f).
Proof. unfold recordArtifact. keeps_binds; auto with spend. Qed.

Lemma keeps_noteCacheMiss content :
  MonadFacts.changes _ keeps (noteCacheMiss env content).
Proof. unfold noteCacheMiss. keeps_binds; auto with spend. Qed.

Lemma keeps_readDailyStatus :
  MonadFacts.changes _ keeps (readDailyStatus rt env).
Proof. unfold readDailyStatus. keeps_binds; auto with spend. Qed.

Lemma keeps_routeEmergency query :
  MonadFacts.changes _ keeps (SmartRouter.routeEmergency rt env query).
Proof.
  unfold SmartRouter.routeEmergency. keeps_binds; auto with spend.
  destruct (CostCalculator.cheapestModelWithinBudget _ _ _ _);
    keeps_binds.
Qed.

Lemma keeps_routeQuery query configured :
  MonadFacts.changes _ keeps (SmartRouter.routeQuery rt env query configured).
Proof.
  unfold SmartRouter.routeQuery. keeps_binds; auto with spend.
  - destruct (SmartRouter.determineStrategy _ _); keeps_binds;
      auto using keeps_routeEmergency.
    destruct (SmartRouter.getCascadeChain query); keeps_binds.
  - destruct x0 as [selection chain]. keeps_binds.
    destruct (BudgetTracker.isProviderDisabled _ _); keeps_binds.
    apply keeps_routeEmergency.
Qed.

#[local] Hint Resolve keeps_cacheLookup keeps_cacheStore
  keeps_recordArtifact keeps_noteCacheMiss keeps_readDailyStatus
  keeps_routeEmergency keeps_routeQuery : spend.

Lemma keeps_preprocess content :
  MonadFacts.changes _ (onWorld keeps) (preprocess rt env content).
Proof. unfold preprocess. keeps_binds; auto with spend. Qed.

Lemma keeps_onCacheHit pre entry similarity content :
  MonadFacts.changes _ (onWorld keeps)
    (onCacheHit rt env pre entry similarity content).
Proof. unfold onCacheHit. keeps_binds; auto with spend. Qed.

Lemma keeps_rejectBudget pre dailyStatus :
  MonadFacts.changes _ (onWorld keeps) (rejectBudget rt env pre dailyStatus).
Proof. unfold rejectBudget. keeps_binds; auto with spend. Qed.

Lemma keeps_cascadeOnStep queryId classification chain info :
  MonadFacts.changes _ (onWorld keeps)
    (cascadeOnStep rt env queryId classification chain info).
Proof.
  unfold cascadeOnStep.
  destruct (nth_error chain (Cascade.index info)); keeps_binds;
    auto with spend.
Qed.

Lemma keeps_execute pre content opts routing routeArtifact :
  MonadFacts.changes _ (onWorld keeps)
    (execute rt env pre content opts routing routeArtifact).
Proof.
  assert (Hdirect :
            forall k : ChatResponse -> Process.M ChatResponse,
              (forall r, MonadFacts.changes _ keeps (k r)) ->
              MonadFacts.changes _ (onWorld keeps)
                (lift (Monad.bind (getProvider (rd_provider routing))
                         (fun provider =>
                            Monad.bind
                              (Process.chat env provider
                                 (mkRequest (pre_queryId pre) content opts)
                                 (rd_model routing)) k)))).
  { intros k Hk. keeps_binds; auto with spend. }
  assert (Hk : forall (response : ChatResponse) id report,
             MonadFacts.changes _ keeps
               (Monad.bind
                  (onAgent
                     (addQuality (QualityEstimator.overallScore report)))
                  (fun _ =>
                     Monad.bind Process.getArtifactManager
                       (fun m =>
                          Monad.bind
                            (Process.onArtifacts
                               (fun m0 =>
                                  (tt,
                                   Artifacts.enrichWithResponse (id m)
                                     response (Some report) m0)))
                            (fun _ => Monad.ret response))))).
  { intros response id report. keeps_binds; auto with spend. }
  unfold execute.
  destruct (rd_strategy routing);
    try (apply Hdirect; intro r;
         exact (Hk r (fun m => match Artifacts.deref m routeArtifact with
                               | Some a => Artifacts.id a
                               | None => ""
                               end) _)).
  destruct (cascadeChain routing) as [chain|];
    [|apply Hdirect; intro r;
      exact (Hk r (fun m => match Artifacts.deref m routeArtifact with
                            | Some a => Artifacts.id a
                            | None => ""
                            end) _)].
  keeps_binds.
  apply (MonadFacts.changes_executeCascade _ (onWorld keeps)
           (onWorld_refl keeps keeps_refl) (onWorld_trans keeps keeps_trans)).
  - intros. unfold cascadeRun. keeps_binds; auto with spend.
  - intros. unfold cascadeEvaluate. keeps_binds; auto with spend.
  - intros f info [= <-]. apply keeps_cascadeOnStep.
Qed.

(** Every result that the computation returns satisfies [P]. *)
Definition returnsOnly {X} (P : X -> Prop) (m : PM X) : Prop :=
  forall s r, fst (m s) = Ok r -> P r.

Lemma returnsOnly_ret X (P : X -> Prop) x : P x -> returnsOnly P (Monad.ret x).
Proof. intros H s r [= <-]. exact H. Qed.

Lemma returnsOnly_throw X (P : X -> Prop) e :
  returnsOnly P (@Monad.throw PState X e).
Proof. intros s r. discriminate. Qed.

Lemma returnsOnly_bind X Y (P : Y -> Prop) (m : PM X) (k : X -> PM Y) :
  (forall x, returnsOnly P (k x)) -> returnsOnly P (Monad.bind m k).
Proof.
  intros Hk s r. unfold Monad.bind.
  destruct (m s) as [[x|e] s1]; [apply Hk|discriminate].
Qed.

Ltac returns_binds :=
  repeat (apply returnsOnly_bind; intro);
  first [apply returnsOnly_throw | apply returnsOnly_ret].

Lemma onCacheHit_returns_hit pre entry similarity content :
  returnsOnly (fun r => ar_cacheHit r = true)
    (onCacheHit rt env pre entry similarity content).
Proof. unfold onCacheHit. cbv zeta. returns_binds. reflexivity. Qed.

Lemma rejectBudget_returns_nothing pre dailyStatus :
  returnsOnly (fun r => ar_cacheHit r = true)
    (rejectBudget rt env pre dailyStatus).
Proof. unfold rejectBudget. returns_binds. Qed.

(** The call [budget.recordCost(cost)] on the singleton. *)
Lemma onTracker_records now c w :
  exists w',
    Process.onTracker (fun t => (tt, BudgetTracker.recordCost rt now c t)) w
    = (Ok tt, w')
    /\ recorded w' = (recorded w ++ [c])%list.
Proof.
  unfold Process.onTracker, Process.getBudgetTracker, Monad.bind,
    Monad.modify, Monad.ret, recorded.
  destruct (Process.tracker w) as [t|]; simpl; eexists;
    (split; [reflexivity|]); simpl.
  - exact (proj1 (BudgetTrackerFacts.recordCost_costs rt now c t)).
  - exact (proj1 (BudgetTrackerFacts.recordCost_costs rt now c
                    (BudgetTracker.new BudgetTracker.noOverrides))).
Qed.

(** A step that returns and records no cost. *)
Lemma step_keeps X Y (m : Process.M X) (k : X -> Process.M Y) w :
  total m -> MonadFacts.changes _ keeps m ->
  exists x w1,
    Monad.bind m k w = k x w1 /\ recorded w1 = recorded w.
Proof.
  intros Ht Hk. specialize (Hk w). unfold Monad.bind.
  destruct (Ht w) as (x & w1 & E). rewrite E in *. now exists x, w1.
Qed.

(** Post-processing returns, and records one cost: that of the routing
    decision's model for the token counts of the response. *)
Lemma postprocess_records content classification routing response w :
  exists now w',
    postprocess rt env content classification routing response w
    = (Ok tt, w')
    /\ recorded w'
       = (recorded w
          ++ [CostCalculator.computeActualCost now (rd_provider routing)
                (rd_model routing) (tok_input (tokens response))
                (tok_output (tokens response))])%list.
Proof.
  remember (postprocess rt env content classification routing response w)
    as out eqn:Eout.
  unfold postprocess in Eout.
  match type of Eout with
  | out = Monad.bind ?m ?k w =>
      destruct (step_keeps _ _ m k w total_dateNow keeps_dateNow)
        as (nowCost & w1 & E & K1)
  end.
  rewrite E in Eout. clear E. cbv zeta in Eout.
  match type of Eout with
  | out = Monad.bind ?m ?k w1 =>
      destruct (step_keeps _ _ m k w1 (total_cacheStore content response)
                  (keeps_cacheStore content response))
        as (u2 & w2 & E & K2)
  end.
  rewrite E in Eout. clear E.
  match type of Eout with
  | out = Monad.bind ?m ?k w2 =>
      destruct (step_keeps _ _ m k w2) as (u3 & w3 & E & K3);
        [total_binds; auto with total | keeps_binds; auto with spend|]
  end.
  rewrite E in Eout. clear E.
  match type of Eout with
  | out = Monad.bind ?m ?k w3 =>
      destruct (step_keeps _ _ m k w3 total_dateNow keeps_dateNow)
        as (now & w4 & E & K4)
  end.
  rewrite E in Eout. clear E.
  destruct (onTracker_records now
              (CostCalculator.computeActualCost nowCost (rd_provider routing)
                 (rd_model routing) (tok_input (tokens response))
                 (tok_output (tokens response))) w4)
    as (w' & E & K5).
  rewrite E in Eout. exists nowCost, w'. split; [exact Eout|]. congruence.
Qed.

(** What a call of [processQuery] that started in [s] and ended as
    [out] has recorded in the budget tracker. *)
Definition accounted (s : PState) (out : Result AgentResponse * PState)
  : Prop :=
  match fst out with
  | Ok resp =>
      if ar_cacheHit resp
      then recorded (fst (snd out)) = recorded (fst s)
      else
        exists now,
          recorded (fst (snd out))
          = (recorded (fst s)
             ++ [CostCalculator.computeActualCost now
                   (rd_provider (routing resp)) (rd_model (routing resp))
                   (tok_input (tokens (ar_response resp)))
                   (tok_output (tokens (ar_response resp)))])%list
  | Throw _ => recorded (fst (snd out)) = recorded (fst s)
  end.

Lemma accounted_bind X (m : PM X) (k : X -> PM AgentResponse) s :
  MonadFacts.changes _ (onWorld keeps) m ->
  (forall x s1, accounted s1 (k x s1)) ->
  accounted s (Monad.bind m k s).
Proof.
  intros Hm Hk. specialize (Hm s). unfold Monad.bind, onWorld, keeps in *.
  destruct (m s) as [[x|e] s1]; simpl in *; [|exact Hm].
  specialize (Hk x s1). unfold accounted in *. now rewrite <- Hm.
Qed.

Lemma accounted_hit (m : PM AgentResponse) s :
  MonadFacts.changes _ (onWorld keeps) m ->
  returnsOnly (fun r => ar_cacheHit r = true) m ->
  accounted s (m s).
Proof.
  intros Hm Hr. specialize (Hm s). specialize (Hr s).
  unfold accounted, onWorld, keeps in *.
  destruct (m s) as [[r|e] s1]; simpl in *; [|exact Hm].
  now rewrite (Hr r eq_refl).
Qed.

Lemma accounted_routeAndExecute pre content opts s :
  accounted s (routeAndExecute rt env pre content opts s).
Proof.
  unfold routeAndExecute. cbv zeta.
  apply accounted_bind; [keeps_binds; auto with spend|]. intros routing s1.
  apply accounted_bind; [keeps_binds; auto with spend|].
  intros routeArtifact s2.
  apply accounted_bind; [keeps_binds|]. intros _ s3.
  apply accounted_bind; [apply keeps_execute|]. intros response s4.
  unfold Monad.bind at 1. unfold lift at 1.
  destruct (postprocess_records content (pre_classification pre) routing
              response (fst s4)) as (now & w5 & -> & E5).
  unfold Monad.bind at 1. unfold generatedArtifacts at 1.
  unfold Monad.bind at 1. unfold lift at 1. cbn [fst snd].
  destruct (total_elapsed (pre_start pre) w5) as (t & w6 & E6).
  pose proof (keeps_elapsed (pre_start pre) w5) as K6.
  rewrite E6 in *. unfold keeps in K6. simpl in K6.
  unfold accounted, Monad.ret. simpl. exists now. congruence.
Qed.

(** X23. What a call of [processQuery] records in the budget tracker:
    nothing when it throws, nothing when it serves a cache hit, and
    otherwise exactly one cost, which is appended to the records and is
    the cost of the routing decision's provider and model for the input
    and output tokens of the response that is returned. *)
Theorem processQuery_records_one_cost content opts s :
  let out := processQuery rt env content opts s in
  match fst out with
  | Ok resp =>
      if ar_cacheHit resp
      then recorded (fst (snd out)) = recorded (fst s)
      else
        exists now,
          recorded (fst (snd out))
          = (recorded (fst s)
             ++ [CostCalculator.computeActualCost now
                   (rd_provider (routing resp)) (rd_model (routing resp))
                   (tok_input (tokens (ar_response resp)))
                   (tok_output (tokens (ar_response resp)))])%list
  | Throw _ => recorded (fst (snd out)) = recorded (fst s)
  end.
Proof.
  intro out. change (accounted s out). unfold out, processQuery.
  apply accounted_bind; [apply keeps_preprocess|]. intros pre s1.
  destruct (pre_cacheResult pre) as [[entry similarity]|].
  - apply accounted_hit;
      [apply keeps_onCacheHit | apply onCacheHit_returns_hit].
  - unfold onCacheMiss.
    apply accounted_bind; [keeps_binds; auto with spend|]. intros _ s2.
    apply accounted_bind; [keeps_binds; auto with spend|].
    intros dailyStatus s3.
    destruct (Num.geb (percentUsed dailyStatus) 100).
    + apply accounted_hit;
        [apply keeps_rejectBudget | apply rejectBudget_returns_nothing].
    + apply accounted_routeAndExecute.
Qed.

(** *** A cache hit *)

Lemma bind_lift_ok X Y (m : Process.M X) (k : X -> PM Y) s x w1 :
  m (fst s) = (Ok x, w1) -> Monad.bind (lift m) k s = k x (w1, snd s).
Proof. intro E. unfold Monad.bind, lift. now rewrite E. Qed.

(** A step on the process that returns, creates no artifact and calls no
    provider. *)
Lemma step_quiet X Y (m : Process.M X) (k : X -> PM Y) s :
  total m -> MonadFacts.changes _ quiet m ->
  exists x w1,
    Monad.bind (lift m) k s = k x (w1, snd s) /\ quiet (fst s) w1.
Proof.
  intros Ht Hq. specialize (Hq (fst s)).
  destruct (Ht (fst s)) as (x & w1 & E). rewrite E in Hq.
  exists x, w1. split; [now apply bind_lift_ok|exact Hq].
Qed.

Lemma recordCacheHit_pushes queryId query similarity savedCost
    savedLatencyMs provider model id nowIso now m :
  exists a,
    Artifacts.recordCacheHit rt id nowIso now queryId query similarity
      savedCost savedLatencyMs provider model m
    = Artifacts.push a m
    /\ Artifacts.type a = Artifacts.cache_hit.
Proof. eexists. split; reflexivity. Qed.

Ltac quiet_step E Q :=
  match goal with
  | Eout : _ = Monad.bind (lift ?m) ?k ?s0 |- _ =>
      let x := fresh "x" in
      let w := fresh "w" in
      destruct (step_quiet _ _ m k s0) as (x & w & E & Q);
        [ total_binds; auto with total
        | quiet_binds; auto with quiet
        | rewrite E in Eout; clear E; cbn [fst snd] in Eout, Q ]
  end.

(** X24. A cache hit is served from the cache alone: when the lookup of
    pre-processing finds an entry, [processQuery] returns (it does not
    look at the budget, so it returns also when the daily budget is
    used up) a response marked as a cache hit that costs 0 and carries
    the text, provider and model of the entry; it creates exactly one
    artifact, of type [cache_hit], and calls no provider. *)
Theorem cache_hit_is_served_from_the_cache text opts s pre s1 entry
    similarity :
  preprocess rt env text s = (Ok pre, s1) ->
  pre_cacheResult pre = Some (entry, similarity) ->
  exists resp s',
    processQuery rt env text opts s = (Ok resp, s')
    /\ ar_cacheHit resp = true
    /\ cacheHit (ar_response resp) = true
    /\ resp_cost (ar_response resp) = 0
    /\ content (ar_response resp) = ce_response entry
    /\ (resp_provider (ar_response resp), resp_model (ar_response resp))
       = (entry_provider entry, entry_model entry)
    /\ tokens (ar_response resp)
       = {| tok_input := 0; tok_output := tokensUsed entry;
            tok_total := tokensUsed entry |}
    /\ classification resp = pre_classification pre
    /\ types (fst s') = (types (fst s) ++ [Artifacts.cache_hit])%list
    /\ ar_artifacts resp = (snd s ++ [List.length (types (fst s))])%list
    /\ Process.providerCalls (fst s') = Process.providerCalls (fst s).
Proof.
  intros Hpre Hhit.
  assert (Hq0 : quietP s s1).
  { pose proof (quietP_preprocess text s) as H. now rewrite Hpre in H. }
  destruct Hq0 as [[Ht0 Hc0] Hl0].
  remember (processQuery rt env text opts s) as out eqn:Eout.
  unfold processQuery in Eout. unfold Monad.bind at 1 in Eout.
  rewrite Hpre, Hhit in Eout. unfold onCacheHit in Eout. cbv zeta in Eout.
  quiet_step E1 Q1.
  match type of Eout with
  | _ = Monad.bind (lift (recordArtifact env ?f)) ?k ?s0 =>
      destruct (recordArtifact_push (fun t => t = Artifacts.cache_hit) f w)
        as (ty & w2 & E2 & Ht2 & -> & Hc2);
        [intros; apply recordCacheHit_pushes|];
        rewrite (bind_lift_ok _ _ (recordArtifact env f) k s0 _ w2 E2)
          in Eout;
        clear E2; cbn [fst snd] in Eout
  end.
  unfold Monad.bind at 1 in Eout. unfold generated at 1 in Eout.
  cbn [fst snd] in Eout.
  quiet_step E3 Q3. quiet_step E4 Q4. quiet_step E5 Q5.
  unfold Monad.bind at 1 in Eout. unfold generatedArtifacts at 1 in Eout.
  cbn [fst snd] in Eout.
  quiet_step E6 Q6.
  unfold Monad.ret in Eout. subst out.
  eexists. eexists. split; [reflexivity|]. cbn [fst snd ar_cacheHit
    ar_response cacheHit resp_cost content resp_provider resp_model tokens
    classification ar_artifacts].
  destruct Q1 as [T1 C1], Q3 as [T3 C3], Q4 as [T4 C4], Q5 as [T5 C5],
    Q6 as [T6 C6].
  repeat (split; [reflexivity|]). split; [|split].
  - rewrite T6, T5, T4, T3, Ht2, T1. now rewrite Ht0.
  - rewrite Hl0. do 2 f_equal. now rewrite T1, Ht0.
  - rewrite C6, C5, C4, C3, Hc2, C1. exact Hc0.
Qed.

End WithRuntime.

(** *** Concrete calls *)

Definition t0 : Z := 1793491200000.

Definition hello : ClassifiedQuery :=
  {| cq_text := "hello"; cq_complexity := simple; cq_complexityScore := 0.1;
     cq_intent := chat; cq_isRealtime := false; cq_matchedIndicators := [];
     cq_estimatedTokens := 2 |}.

Definition reply : ChatResponse :=
  {| resp_id := "r1"; content := "Hello.";
     resp_provider := perplexity; resp_model := "sonar";
     tokens := {| tok_input := 2; tok_output := 3; tok_total := 5 |};
     resp_cost := 0.005; responseTimeMs := 100;
     resp_citations := None; cacheHit := false; finishReason := None |}.

Definition env0 : Process.Env :=
  ExampleRuntime.constantEnv t0 (inl reply) hello.

Definition noOpts : Opts :=
  {| o_systemPrompt := None; o_maxTokens := None; o_temperature := None |}.

(** A process with both providers registered and no cache, in which
    nothing has been spent. *)
Definition underBudget : Process.World :=
  ExampleRuntime.freshWorld [perplexity; openai] None.

(** The same process after 5 USD, the daily limit, were spent at [t0]. *)
Definition overBudget : Process.World :=
  Process.set_tracker
    (BudgetTracker.recordCost ExampleRuntime.utc t0
       (BudgetTrackerFacts.costOf 5)
       (BudgetTracker.new BudgetTracker.noOverrides))
    underBudget.

Example rejected_call :
  let out := processQuery ExampleRuntime.utc env0 "hello" noOpts
               (overBudget, []) in
  (exists spent limit,
     fst out = Throw (BudgetExceededError "daily" spent limit)
     /\ spent == 5 /\ limit == 5)
  /\ types (fst (snd out)) = [Artifacts.budget_reject]
  /\ snd (snd out) = [0%nat]
  /\ Process.providerCalls (fst (snd out)) = [].
Proof.
  vm_compute. split; [|auto].
  eexists. eexists. split; [reflexivity|]. split; reflexivity.
Qed.

Example accepted_call :
  let out := processQuery ExampleRuntime.utc env0 "hello" noOpts
               (underBudget, []) in
  (exists r, fst out = Ok r /\ ar_artifacts r = [0%nat; 1%nat; 2%nat])
  /\ types (fst (snd out))
     = [Artifacts.route_decision; Artifacts.cascade_escalation;
        Artifacts.cascade_failure]
  /\ List.length (Process.providerCalls (fst (snd out))) = 2%nat.
Proof. vm_compute. split; [eexists; split; reflexivity|auto]. Qed.

Lemma budget_admission_witness :
  (let out := processQuery ExampleRuntime.utc env0 "hello" noOpts
                (overBudget, []) in
   types (fst (snd out)) = [Artifacts.budget_reject]
   /\ Process.providerCalls (fst (snd out)) = [])
  /\ (let out := processQuery ExampleRuntime.utc env0 "hello" noOpts
                   (underBudget, []) in
      exists l,
        types (fst (snd out)) = Artifacts.route_decision :: l
        /\ ~ In Artifacts.budget_reject l).
Proof.
  split.
  - destruct (preprocess ExampleRuntime.utc env0 "hello" (overBudget, []))
      as [[pre|e] s1] eqn:Hpre; [|vm_compute in Hpre; discriminate].
    destruct (Monad.bind (lift (noteCacheMiss env0 "hello"))
                (fun _ => lift (readDailyStatus ExampleRuntime.utc env0)) s1)
      as [[dailyStatus|e] s2] eqn:Hcheck;
      [|vm_compute in Hpre; injection Hpre as <- <-;
        vm_compute in Hcheck; discriminate].
    assert (Hmiss : pre_cacheResult pre = None).
    { pose proof Hpre as H. vm_compute in H. now injection H as <- _. }
    assert (Hover : 100 <= percentUsed dailyStatus).
    { pose proof Hpre as H1. vm_compute in H1. injection H1 as <- <-.
      pose proof Hcheck as H2. vm_compute in H2. injection H2 as <- _.
      apply Qle_bool_iff. vm_compute. reflexivity. }
    destruct (budget_admission ExampleRuntime.utc env0 "hello" noOpts
                (overBudget, []) pre s1 dailyStatus s2 Hpre Hmiss Hcheck)
      as (_ & Hreject & _).
    destruct (Hreject Hover) as (_ & Htypes & _ & Hcalls).
    split; [exact Htypes|exact Hcalls].
  - destruct (preprocess ExampleRuntime.utc env0 "hello" (underBudget, []))
      as [[pre|e] s1] eqn:Hpre; [|vm_compute in Hpre; discriminate].
    destruct (Monad.bind (lift (noteCacheMiss env0 "hello"))
                (fun _ => lift (readDailyStatus ExampleRuntime.utc env0)) s1)
      as [[dailyStatus|e] s2] eqn:Hcheck;
      [|vm_compute in Hpre; injection Hpre as <- <-;
        vm_compute in Hcheck; discriminate].
    assert (Hmiss : pre_cacheResult pre = None).
    { pose proof Hpre as H. vm_compute in H. now injection H as <- _. }
    assert (Hunder : percentUsed dailyStatus < 100).
    { pose proof Hpre as H1. vm_compute in H1. injection H1 as <- <-.
      pose proof Hcheck as H2. vm_compute in H2. injection H2 as <- _.
      reflexivity. }
    destruct (budget_admission ExampleRuntime.utc env0 "hello" noOpts
                (underBudget, []) pre s1 dailyStatus s2 Hpre Hmiss Hcheck)
      as (_ & _ & Haccept).
    destruct (Haccept Hunder) as (_ & Hgrows & _).
    exact Hgrows.
Defined.

(** A process whose daily budget is used up and whose cache holds an
    answer to [SemanticCacheFacts.text]. *)
Definition overBudgetWithCache : Process.World :=
  Process.set_tracker
    (BudgetTracker.recordCost ExampleRuntime.utc t0
       (BudgetTrackerFacts.costOf 5)
       (BudgetTracker.new BudgetTracker.noOverrides))
    (ExampleRuntime.freshWorld [perplexity; openai]
       (Some SemanticCacheFacts.oneEntry)).

Lemma cache_hit_is_served_from_the_cache_witness :
  exists resp s',
    processQuery ExampleRuntime.utc env0 SemanticCacheFacts.text noOpts
      (overBudgetWithCache, [])
    = (Ok resp, s')
    /\ ar_cacheHit resp = true
    /\ resp_cost (ar_response resp) = 0
    /\ content (ar_response resp) = "Qubits."
    /\ types (fst s') = [Artifacts.cache_hit]
    /\ Process.providerCalls (fst s') = [].
Proof.
  destruct (preprocess ExampleRuntime.utc env0 SemanticCacheFacts.text
              (overBudgetWithCache, []))
    as [[pre|e] s1] eqn:Hpre; [|vm_compute in Hpre; discriminate].
  assert (Hhit : pre_cacheResult pre
                 = Some (SemanticCache.bumpHitCount
                           SemanticCacheFacts.storedEntry, 1.0)).
  { pose proof Hpre as H. vm_compute in H. now injection H as <- _. }
  destruct (cache_hit_is_served_from_the_cache ExampleRuntime.utc env0
              SemanticCacheFacts.text noOpts (overBudgetWithCache, [])
              pre s1 _ _ Hpre Hhit)
    as (resp & s' & E & H1 & _ & H2 & H3 & _ & _ & _ & H4 & _ & H5).
  exists resp, s'. split; [exact E|]. split; [exact H1|].
  split; [exact H2|]. split; [exact H3|]. split; [exact H4|exact H5].
Defined.

End AgentManagerFacts.

(* ------------------------------------------------------------------ *)
(** ** The router *)

Module SmartRouterFacts.
Import SmartRouter.

(** The selection names a model of the cost book. *)
Definition registered (provider : ProviderName) (model : string) : Prop :=
  exists p, CostCalculator.getModelCostProfile provider model = Some p.

(** Every value that the computation returns satisfies [P]. *)
Definition yields {X} (P : X -> Prop) (m : Process.M X) : Prop :=
  forall w x w', m w = (Ok x, w') -> P x.

Lemma yields_ret X (P : X -> Prop) x : P x -> yields P (Monad.ret x).
Proof. intros H w y w' [= <- _]. exact H. Qed.

Lemma yields_throw X (P : X -> Prop) e :
  yields P (@Monad.throw Process.World X e).
Proof. intros w y w'. discriminate. Qed.

Lemma yields_bind X Y (P : Y -> Prop) (m : Process.M X)
    (k : X -> Process.M Y) :
  (forall x, yields P (k x)) -> yields P (Monad.bind m k).
Proof.
  intros Hk w y w'. unfold Monad.bind.
  destruct (m w) as [[x|e] w1]; [apply Hk|discriminate].
Qed.

Lemma yields_impl X (P Q : X -> Prop) (m : Process.M X) :
  yields P m -> (forall x, P x -> Q x) -> yields Q m.
Proof. intros Hm H w x w' E. apply H. exact (Hm w x w' E). Qed.

Lemma yields_bind2 X Y (P : X -> Prop) (Q : Y -> Prop) (m : Process.M X)
    (k : X -> Process.M Y) :
  yields P m -> (forall x, P x -> yields Q (k x)) ->
  yields Q (Monad.bind m k).
Proof.
  intros Hm Hk w y w'. unfold Monad.bind.
  destruct (m w) as [[x|e] w1] eqn:E; [|discriminate].
  apply Hk. exact (Hm w x w1 E).
Qed.

Lemma registered_profile p :
  In p CostCalculator.MODEL_COSTS -> registered (mp_provider p) (mp_model p).
Proof.
  intro H. exists p.
  now apply CostCalculatorFacts.getModelCostProfile_registered.
Qed.

Lemma cheapest_is_least complexity i o remaining p :
  CostCalculator.cheapestModelWithinBudget complexity i o remaining = Some p ->
  CostCalculatorFacts.suitable complexity p
  /\ forall p', CostCalculatorFacts.suitable complexity p' ->
       CostCalculator.estimateCostForModel p i o
       <= CostCalculator.estimateCostForModel p' i o.
Proof.
  unfold CostCalculator.cheapestModelWithinBudget.
  destruct (CostCalculatorFacts.listModelsByCost_members_sorted complexity i o)
    as [Hin Hsorted].
  pose proof (CostCalculatorFacts.find_first_fitting remaining _ Hsorted) as H.
  destruct (find _ (CostCalculator.listModelsByCost complexity i o))
    as [[q c]|]; simpl; [|discriminate].
  intros [= ->]. destruct H as (Hr & _ & Hmin). apply Hin in Hr.
  destruct Hr as [Hs Hc]. simpl in Hs, Hc. subst c.
  split; [exact Hs|]. intros p' Hs'.
  apply (Hmin (p', CostCalculator.estimateCostForModel p' i o)).
  apply Hin. simpl. now split.
Qed.

Lemma routePriority_registered query :
  registered (sel_provider (routePriority query))
    (sel_model (routePriority query)).
Proof.
  unfold routePriority, PerplexityProvider.selectPerplexityModel.
  destruct (cq_isRealtime query), (cq_intent query), (cq_complexity query);
    simpl; eexists; reflexivity.
Qed.

Lemma getCascadeChain_first query :
  exists first rest,
    getCascadeChain query = first :: rest
    /\ registered (step_provider first) (step_model first).
Proof.
  unfold getCascadeChain, PerplexityProvider.selectPerplexityModel.
  destruct (cq_isRealtime query), (cq_intent query), (cq_complexity query);
    simpl; eexists; eexists; (split; [reflexivity|]); eexists; reflexivity.
Qed.

Section WithRuntime.
Variable rt : Runtime.
Variable env : Process.Env.

Lemma routeCostOptimized_registered query :
  registered (sel_provider (routeCostOptimized rt query))
    (sel_model (routeCostOptimized rt query)).
Proof.
  unfold routeCostOptimized. cbv zeta.
  set (ranked := CostCalculator.listModelsByCost _ _ _).
  assert (Hr : forall r, In r ranked -> In (fst r) CostCalculator.MODEL_COSTS).
  { intros r Hin. unfold ranked in Hin.
    apply CostCalculatorFacts.listModelsByCost_In in Hin.
    exact (proj1 (proj1 Hin)). }
  destruct (if cq_isRealtime query || QueryIntent_eqb (cq_intent query) search
            then filter _ ranked else []) as [|best rest] eqn:Es.
  - destruct ranked as [|best rest]; simpl.
    + eexists. reflexivity.
    + apply registered_profile, Hr. now left.
  - simpl. apply registered_profile, Hr.
    destruct (cq_isRealtime query || QueryIntent_eqb (cq_intent query) search);
      [|discriminate].
    assert (Hin : In best (best :: rest)) by (now left).
    rewrite <- Es in Hin. now apply filter_In in Hin.
Qed.

(** Emergency routing selects a model of the cost book, and never one
    of Anthropic when the token estimate is not negative. *)
Lemma routeEmergency_selection query :
  yields
    (fun sel =>
       registered (sel_provider sel) (sel_model sel)
       /\ (0 <= cq_estimatedTokens query -> sel_provider sel <> anthropic))
    (routeEmergency rt env query).
Proof.
  unfold routeEmergency. cbv zeta.
  apply yields_bind. intro budget. apply yields_bind. intro now.
  destruct (CostCalculator.cheapestModelWithinBudget _ _ _ _)
    as [cheapest|] eqn:E.
  - apply yields_ret. simpl. apply cheapest_is_least in E.
    destruct E as [[Hin Hs] Hleast]. split; [now apply registered_profile|].
    intros Htok Hp.
    assert (Hc : cq_complexity query = complex).
    { unfold CostCalculator.MODEL_COSTS in Hin. simpl in Hin.
      destruct (cq_complexity query); [| |reflexivity];
        repeat (destruct Hin as [<-|Hin]; [discriminate|]);
        destruct Hin. }
    rewrite Hc in *.
    assert (Hout : 500 <= CostCalculator.estimateOutputTokens complex
                            (cq_estimatedTokens query))
      by (apply NumFacts.min_max_bounds; discriminate).
    assert (Hg : CostCalculatorFacts.suitable complex
                   {| mp_provider := openai; mp_model := "gpt-4o";
                      inputCostPer1k := 0.0025; outputCostPer1k := 0.01;
                      mp_perRequestCost := 0;
                      maxOutputTokens := 4096; contextWindow := 128000;
                      suitableFor := [medium; complex];
                      capabilities := [cap_code; cap_reasoning; long_context] |}).
    { split; [simpl; auto 10|reflexivity]. }
    specialize (Hleast _ Hg).
    assert (Ha : 0 <= cq_estimatedTokens query / 1000)
      by (apply Qle_shift_div_l; [reflexivity|lra]).
    assert (Hb : 0 < CostCalculator.estimateOutputTokens complex
                       (cq_estimatedTokens query) / 1000)
      by (apply Qlt_shift_div_l; [reflexivity|lra]).
    unfold CostCalculator.MODEL_COSTS in Hin. simpl in Hin.
    repeat (destruct Hin as [<-|Hin]; [try discriminate Hp|]);
      try (destruct Hin);
      unfold CostCalculator.estimateCostForModel in Hleast;
      cbn [inputCostPer1k outputCostPer1k mp_perRequestCost] in Hleast;
      lra.
  - apply yields_ret. simpl. split; [eexists; reflexivity|discriminate].
Qed.

(** X25. [routeQuery] always returns a decision, and the decision is
    coherent: its provider and model name a model of the cost book; its
    estimated cost is [estimateCost] of that model for the query's token
    estimates; its strategy is [emergency] when the latch is set and the
    configured one, by default [cascade], otherwise; the cascade chain
    is attached exactly for the strategy [cascade], and then the
    decision names the first step of that chain. *)
Theorem routeQuery_decision_is_coherent query configured w :
  exists d w',
    routeQuery rt env query configured w = (Ok d, w')
    /\ registered (rd_provider d) (rd_model d)
    /\ rd_estimatedCost d
       = CostCalculator.estimateCost (rd_provider d) (rd_model d)
           (cq_estimatedTokens query)
           (CostCalculator.estimateOutputTokens (cq_complexity query)
              (cq_estimatedTokens query))
    /\ rd_strategy d = determineStrategy configured (rd_emergencyMode d)
    /\ cascadeChain d
       = match rd_strategy d with
         | cascade => Some (getCascadeChain query)
         | _ => None
         end
    /\ (rd_strategy d = cascade ->
        exists first rest,
          getCascadeChain query = first :: rest
          /\ rd_provider d = step_provider first
          /\ rd_model d = step_model first).
Proof.
  destruct (AgentManagerFacts.total_routeQuery rt env query configured w)
    as (d & w' & E).
  exists d, w'. split; [exact E|]. revert w d w' E.
  change (yields
            (fun d =>
               registered (rd_provider d) (rd_model d)
               /\ rd_estimatedCost d
                  = CostCalculator.estimateCost (rd_provider d) (rd_model d)
                      (cq_estimatedTokens query)
                      (CostCalculator.estimateOutputTokens
                         (cq_complexity query) (cq_estimatedTokens query))
               /\ rd_strategy d
                  = determineStrategy configured (rd_emergencyMode d)
               /\ cascadeChain d
                  = match rd_strategy d with
                    | cascade => Some (getCascadeChain query)
                    | _ => None
                    end
               /\ (rd_strategy d = cascade ->
                   exists first rest,
                     getCascadeChain query = first :: rest
                     /\ rd_provider d = step_provider first
                     /\ rd_model d = step_model first))
            (routeQuery rt env query configured)).
  unfold routeQuery. apply yields_bind. intro budget. cbv zeta.
  unfold BudgetTracker.isEmergencyMode, BudgetTracker.isProviderDisabled.
  set (strategy := determineStrategy configured
                     (BudgetTracker.emergencyModeActive budget)).
  apply (yields_bind2 _ _
           (fun sc : Selection * option (list CascadeStep) =>
              registered (sel_provider (fst sc)) (sel_model (fst sc))
              /\ snd sc = match strategy with
                          | cascade => Some (getCascadeChain query)
                          | _ => None
                          end
              /\ (strategy = cascade ->
                  exists first rest,
                    getCascadeChain query = first :: rest
                    /\ sel_provider (fst sc) = step_provider first
                    /\ sel_model (fst sc) = step_model first))).
  - destruct strategy eqn:Es.
    + apply yields_ret. simpl.
      split; [apply routePriority_registered|].
      split; [reflexivity|discriminate].
    + apply yields_ret. simpl.
      split; [apply routeCostOptimized_registered|].
      split; [reflexivity|discriminate].
    + destruct (getCascadeChain_first query) as (first & rest & Ec & Hreg).
      rewrite Ec. apply yields_ret. simpl. split; [exact Hreg|].
      split; [reflexivity|]. intros _. now exists first, rest.
    + apply (yields_bind2 _ _ _ _ _ _ (routeEmergency_selection query)).
      intros sel [Hreg _]. apply yields_ret. simpl.
      split; [exact Hreg|]. split; [reflexivity|discriminate].
  - intros [selection chain] (Hreg & Hchain & Hfirst). simpl in *.
    apply (yields_bind2 _ _
             (fun sel =>
                registered (sel_provider sel) (sel_model sel)
                /\ (strategy = cascade -> sel = selection))).
    + destruct (negb (BudgetTracker.emergencyModeActive budget)) eqn:En.
      * apply yields_ret. auto.
      * assert (Hne : strategy <> cascade).
        { unfold strategy, determineStrategy.
          apply negb_false_iff in En. rewrite En. discriminate. }
        destruct (Js.includes _ _ _).
        -- apply (yields_impl _ _ _ _ (routeEmergency_selection query)).
           intros sel [Hs _]. split; [exact Hs|]. intro Hc. contradiction.
        -- apply yields_ret. split; [exact Hreg|]. intro Hc. contradiction.
    + intros sel [Hs Hsame]. apply yields_ret. simpl.
      split; [exact Hs|]. split; [reflexivity|].
      split; [reflexivity|]. split; [exact Hchain|].
      intro Hc. rewrite (Hsame Hc). now apply Hfirst.
Qed.

(** X26. While the emergency latch is set the router uses the strategy
    [emergency], whatever is configured, and, for a token estimate that
    is not negative, it does not select a model of Anthropic: the cost
    book always has a cheaper suitable model, and the forced fallback is
    GPT-4o-mini. *)
Theorem emergency_routing_avoids_anthropic query configured w d w' :
  0 <= cq_estimatedTokens query ->
  routeQuery rt env query configured w = (Ok d, w') ->
  rd_emergencyMode d = true ->
  rd_strategy d = emergency
  /\ cascadeChain d = None
  /\ rd_provider d <> anthropic.
Proof.
  intros Htok E. revert w d w' E.
  change (yields
            (fun d =>
               rd_emergencyMode d = true ->
               rd_strategy d = emergency
               /\ cascadeChain d = None
               /\ rd_provider d <> anthropic)
            (routeQuery rt env query configured)).
  unfold routeQuery. apply yields_bind. intro budget. cbv zeta.
  unfold BudgetTracker.isEmergencyMode, BudgetTracker.isProviderDisabled.
  destruct (BudgetTracker.emergencyModeActive budget) eqn:Ee.
  - simpl.
    apply (yields_bind2 _ _
             (fun sc : Selection * option (list CascadeStep) =>
                sel_provider (fst sc) <> anthropic /\ snd sc = None)).
    + apply (yields_bind2 _ _ _ _ _ _ (routeEmergency_selection query)).
      intros sel [_ Hp]. apply yields_ret. simpl. split; [auto|reflexivity].
    + intros [selection chain] [Hp Hchain]. simpl in *.
      apply (yields_bind2 _ _ (fun sel => sel_provider sel <> anthropic)).
      * destruct (Js.includes _ _ _).
        -- apply (yields_impl _ _ _ _ (routeEmergency_selection query)).
           intros sel [_ Hs]. auto.
        -- now apply yields_ret.
      * intros sel Hs. apply yields_ret. simpl. auto.
  - apply yields_bind. intros [selection chain].
    apply yields_bind. intro sel. apply yields_ret. simpl. discriminate.
Qed.

End WithRuntime.

(** A complex coding task, and a process whose emergency latch is set. *)
Definition refactoring : ClassifiedQuery :=
  {| cq_text := "refactor the scheduler"; cq_complexity := complex;
     cq_complexityScore := 0.9; cq_intent := code; cq_isRealtime := false;
     cq_matchedIndicators := []; cq_estimatedTokens := 2000 |}.

Definition inEmergency : Process.World :=
  Process.set_tracker
    (BudgetTracker.setEmergencyMode true
       (BudgetTracker.new BudgetTracker.noOverrides))
    (ExampleRuntime.freshWorld [perplexity; openai; anthropic] None).

Example priority_routing_of_the_task :
  exists d w',
    routeQuery ExampleRuntime.utc AgentManagerFacts.env0 refactoring
      (Some priority)
      (ExampleRuntime.freshWorld [perplexity; openai; anthropic] None)
    = (Ok d, w')
    /\ (rd_provider d, rd_model d) = (anthropic, "claude-sonnet-4-5")
    /\ rd_strategy d = priority.
Proof. eexists. eexists. split; [vm_compute; reflexivity|]. split; reflexivity. Qed.

Lemma emergency_routing_avoids_anthropic_witness :
  exists d w',
    routeQuery ExampleRuntime.utc AgentManagerFacts.env0 refactoring
      (Some priority) inEmergency
    = (Ok d, w')
    /\ rd_strategy d = emergency
    /\ cascadeChain d = None
    /\ rd_provider d <> anthropic.
Proof.
  destruct (routeQuery ExampleRuntime.utc AgentManagerFacts.env0 refactoring
              (Some priority) inEmergency)
    as [[d|e] w'] eqn:E; [|vm_compute in E; discriminate].
  exists d, w'. split; [reflexivity|].
  apply (emergency_routing_avoids_anthropic ExampleRuntime.utc
           AgentManagerFacts.env0 refactoring (Some priority) inEmergency
           d w').
  - discriminate.
  - exact E.
  - pose proof E as H. vm_compute in H. now injection H as <- _.
Defined.

End SmartRouterFacts.
